(** * NSE option chain backend: fetch, parse, deduplicate, store

    A shallow embedding of the fetch-parse-store cycle of the repository
    (nse_service.py, models.py, database_service.py, data_pipeline.py and
    the CSV parser of nse_option_chain_pipeline.py), followed by the
    properties of the specification stated and proved over it.

    Conventions of the embedding:
    - a Python value that comes out of [json] is a [pyval]; a dict is an
      association list whose lookup takes the first binding of a key;
    - a Python [float] is an ideal rational ([Q]): rounding, overflow,
      [inf] and [nan] are outside the model;
    - a [datetime] is an integer time stamp ([Z]) at the precision of the
      store;
    - a Python exception is a value of type [exn]; code that can raise
      returns a [result];
    - what the outside world answers (HTTP responses, clock readings,
      signals, the reachability of the database server) is an explicit
      argument of the function that asks for it. *)

From Stdlib Require Import List String Ascii ZArith QArith Bool Lia.
From Stdlib Require Import DecimalString Permutation Sorted.
Import ListNotations.
Close Scope Q_scope.
Open Scope string_scope.

(** ** Python values and exceptions *)

Module Py.

Local Set Warnings "-register-all".

Inductive pyval : Type :=
| PNone
| PBool (b : bool)
| PInt (z : Z)
| PFloat (q : Q)
| PStr (s : string)
| PList (items : list pyval)
| PDict (items : list (string * pyval)).

Record exn : Type := Exn { exn_class : string; exn_msg : string }.

Inductive result (A : Type) : Type :=
| Ok (a : A)
| Raised (e : exn).

Arguments Ok {A} a.
Arguments Raised {A} e.

Definition bind {A B : Type} (m : result A) (k : A -> result B) : result B :=
  match m with
  | Ok a => k a
  | Raised e => Raised e
  end.

(** [try: body / except Exception as e: handler e] *)
Definition try_except {A : Type} (body : result A) (handler : exn -> result A)
  : result A :=
  match body with
  | Ok a => Ok a
  | Raised e => handler e
  end.

Definition AttributeError (what : string) : exn :=
  Exn "AttributeError" (what ++ " object has no attribute 'get'").
Definition TypeError (msg : string) : exn := Exn "TypeError" msg.
Definition ValueError (msg : string) : exn := Exn "ValueError" msg.
Definition RuntimeError (msg : string) : exn := Exn "RuntimeError" msg.
Definition OverflowError (msg : string) : exn := Exn "OverflowError" msg.

Definition type_name (v : pyval) : string :=
  match v with
  | PNone => "'NoneType'"
  | PBool _ => "'bool'"
  | PInt _ => "'int'"
  | PFloat _ => "'float'"
  | PStr _ => "'str'"
  | PList _ => "'list'"
  | PDict _ => "'dict'"
  end.

(** Lookup in a dict: the binding of the first occurrence of the key. *)
Fixpoint assoc {V : Type} (k : string) (kv : list (string * V)) : option V :=
  match kv with
  | [] => None
  | (k', v) :: rest => if String.eqb k k' then Some v else assoc k rest
  end.

(** [d[k] = v] on a dict: the binding is replaced in place when the key is
    there, appended otherwise (insertion order is kept). *)
Fixpoint dict_set {V : Type} (kv : list (string * V)) (k : string) (v : V)
  : list (string * V) :=
  match kv with
  | [] => [(k, v)]
  | (k', v') :: rest =>
      if String.eqb k k' then (k, v) :: rest else (k', v') :: dict_set rest k v
  end.

(** [d.get(k, default)]: only a dict has the method. *)
Definition py_get (d : pyval) (k : string) (default : pyval) : result pyval :=
  match d with
  | PDict kv =>
      match assoc k kv with
      | Some v => Ok v
      | None => Ok default
      end
  | _ => Raised (AttributeError (type_name d))
  end.

(** [d[k]] for a string [k]: the binding in a dict, [KeyError] when the
    key is missing; no other value of the model is indexed by a string. *)
Definition py_getitem (d : pyval) (k : string) : result pyval :=
  match d with
  | PDict kv =>
      match assoc k kv with
      | Some v => Ok v
      | None => Raised (Exn "KeyError" ("'" ++ k ++ "'"))
      end
  | _ => Raised (TypeError (type_name d ++ " indices must be integers"))
  end.

(** [not v] is [negb (truthy v)]. *)
Definition truthy (v : pyval) : bool :=
  match v with
  | PNone => false
  | PBool b => b
  | PInt z => negb (z =? 0)%Z
  | PFloat q => negb (Qeq_bool q 0%Q)
  | PStr s => negb (String.eqb s "")
  | PList l => match l with [] => false | _ => true end
  | PDict l => match l with [] => false | _ => true end
  end.

(** [v == s] for a string literal [s]. *)
Definition eq_str (v : pyval) (s : string) : bool :=
  match v with
  | PStr s' => String.eqb s' s
  | _ => false
  end.

Definition is_none (v : pyval) : bool :=
  match v with
  | PNone => true
  | _ => false
  end.

(** The characters of a string, each as a one-character string. *)
Fixpoint chars (s : string) : list pyval :=
  match s with
  | EmptyString => []
  | String c rest => PStr (String c EmptyString) :: chars rest
  end.

(** [for x in v]: the items of a list, the keys of a dict, the characters
    of a string; nothing else is iterable. *)
Definition py_iter (v : pyval) : result (list pyval) :=
  match v with
  | PList l => Ok l
  | PDict kv => Ok (map (fun p => PStr (fst p)) kv)
  | PStr s => Ok (chars s)
  | _ => Raised (TypeError (type_name v ++ " object is not iterable"))
  end.

Fixpoint is_substring (needle hay : string) : bool :=
  if prefix needle hay then true
  else match hay with
       | EmptyString => false
       | String _ rest => is_substring needle rest
       end.

(** [s in v] for a string [s]. *)
Definition str_in (s : string) (v : pyval) : result bool :=
  match v with
  | PDict kv => Ok (match assoc s kv with Some _ => true | None => false end)
  | PList l => Ok (existsb (fun x => eq_str x s) l)
  | PStr h => Ok (is_substring s h)
  | _ => Raised (TypeError ("argument of type " ++ type_name v
                            ++ " is not iterable"))
  end.

(** What Python itself provides and the repository only calls: [float] on
    a string ([None] when it raises [ValueError]), [str] of a float and
    [repr] of a container. The development is parametric in them. *)
Class Runtime : Type := {
  float_of_str : string -> option Q;
  str_of_float : Q -> string;
  repr_of : pyval -> string
}.

(** The integers that [float] converts are those that round into the
    range of a double: the greatest double is [2^1024 - 2^971], and an
    integer from [2^1024 - 2^970] on rounds beyond it. *)
Definition float_int_bound : Z := (2 ^ 1024 - 2 ^ 970)%Z.

(** [float(v)] raises [OverflowError] ("int too large to convert to
    float"). *)
Definition float_overflows (v : pyval) : bool :=
  match v with
  | PInt z => (float_int_bound <=? Z.abs z)%Z
  | _ => false
  end.

Section WithRuntime.
Context {RT : Runtime}.

(** [float(v)]; [None] stands for the exception it raises: [ValueError],
    [TypeError], or [OverflowError] when [float_overflows v]. *)
Definition py_float (v : pyval) : option Q :=
  match v with
  | PInt z => if float_overflows v then None else Some (inject_Z z)
  | PFloat q => Some q
  | PBool b => Some (if b then 1%Q else 0%Q)
  | PStr s => float_of_str s
  | PNone | PList _ | PDict _ => None
  end.

(** [str(v)], as an f-string field formats it. *)
Definition py_str (v : pyval) : string :=
  match v with
  | PNone => "None"
  | PBool b => if b then "True" else "False"
  | PInt z => NilZero.string_of_int (Z.to_int z)
  | PFloat q => str_of_float q
  | PStr s => s
  | PList _ | PDict _ => repr_of v
  end.

End WithRuntime.

End Py.

Export Py.

Notation "x <- m ;; k" := (bind m (fun x => k))
  (at level 61, m at next level, right associativity).

(** ** models.py *)

Module Models.

Inductive OptionType : Type := CALL | PUT.

(** The value of the enumeration member: [CALL = "CE"], [PUT = "PE"]. *)
Definition value (t : OptionType) : string :=
  match t with
  | CALL => "CE"
  | PUT => "PE"
  end.

Definition OptionType_eqb (a b : OptionType) : bool :=
  match a, b with
  | CALL, CALL | PUT, PUT => true
  | _, _ => false
  end.

Record OptionChainEntry : Type := {
  symbol : string;
  type : OptionType;
  strike_price : Q;
  expiry_date : string;
  identifier : string;
  fetched_at : Z;
  open_interest : option Q;
  change_in_oi : option Q;
  pchange_in_oi : option Q;
  last_price : option Q;
  change : option Q;
  pchange : option Q;
  total_traded_volume : option Q;
  implied_volatility : option Q;
  bid_qty : option Q;
  bid_price : option Q;
  ask_price : option Q;
  ask_qty : option Q;
  underlying_value : option Q
}.

(** The twelve market fields that the field mapping fills. *)
Inductive MarketField : Type :=
| Fopen_interest | Fchange_in_oi | Fpchange_in_oi | Flast_price | Fchange
| Fpchange | Ftotal_traded_volume | Fimplied_volatility | Fbid_qty
| Fbid_price | Fask_price | Fask_qty.

Definition field_name (f : MarketField) : string :=
  match f with
  | Fopen_interest => "open_interest"
  | Fchange_in_oi => "change_in_oi"
  | Fpchange_in_oi => "pchange_in_oi"
  | Flast_price => "last_price"
  | Fchange => "change"
  | Fpchange => "pchange"
  | Ftotal_traded_volume => "total_traded_volume"
  | Fimplied_volatility => "implied_volatility"
  | Fbid_qty => "bid_qty"
  | Fbid_price => "bid_price"
  | Fask_price => "ask_price"
  | Fask_qty => "ask_qty"
  end.

(** The name of the field in the payload of the exchange. *)
Definition nse_name (f : MarketField) : string :=
  match f with
  | Fopen_interest => "openInterest"
  | Fchange_in_oi => "changeinOpenInterest"
  | Fpchange_in_oi => "pchangeinOpenInterest"
  | Flast_price => "lastPrice"
  | Fchange => "change"
  | Fpchange => "pChange"
  | Ftotal_traded_volume => "totalTradedVolume"
  | Fimplied_volatility => "impliedVolatility"
  | Fbid_qty => "bidQty"
  | Fbid_price => "bidprice"
  | Fask_price => "askPrice"
  | Fask_qty => "askQty"
  end.

Definition all_fields : list MarketField :=
  [Fopen_interest; Fchange_in_oi; Fpchange_in_oi; Flast_price; Fchange;
   Fpchange; Ftotal_traded_volume; Fimplied_volatility; Fbid_qty;
   Fbid_price; Fask_price; Fask_qty].

(** [NSE_FIELD_MAPPING]: the same table under ["CE"] and under ["PE"], in
    the order of the source. *)
Definition NSE_FIELD_MAPPING (key : string) : list (string * string) :=
  map (fun f => (nse_name f, field_name f)) all_fields.

Definition get_field (e : OptionChainEntry) (f : MarketField) : option Q :=
  match f with
  | Fopen_interest => open_interest e
  | Fchange_in_oi => change_in_oi e
  | Fpchange_in_oi => pchange_in_oi e
  | Flast_price => last_price e
  | Fchange => change e
  | Fpchange => pchange e
  | Ftotal_traded_volume => total_traded_volume e
  | Fimplied_volatility => implied_volatility e
  | Fbid_qty => bid_qty e
  | Fbid_price => bid_price e
  | Fask_price => ask_price e
  | Fask_qty => ask_qty e
  end.

Section WithRuntime.
Context {RT : Runtime}.

(** The three [pre=True] validators have the same body: the answer [None]
    for [None], the empty string, the dash and for what [float] rejects
    with [ValueError] or [TypeError]; the [OverflowError] of [float] is not
    caught and leaves the validator. *)
Definition validate_prices (v : pyval) : result (option Q) :=
  if is_none v || eq_str v "" || eq_str v "-" then Ok None
  else if float_overflows v then
    Raised (OverflowError "int too large to convert to float")
  else Ok (py_float v).

Definition validate_quantities (v : pyval) : result (option Q) :=
  if is_none v || eq_str v "" || eq_str v "-" then Ok None
  else if float_overflows v then
    Raised (OverflowError "int too large to convert to float")
  else Ok (py_float v).

Definition validate_percentages (v : pyval) : result (option Q) :=
  if is_none v || eq_str v "" || eq_str v "-" then Ok None
  else if float_overflows v then
    Raised (OverflowError "int too large to convert to float")
  else Ok (py_float v).

(** The validator that the decorators attach to each market field. *)
Definition validator_of (f : MarketField) : pyval -> result (option Q) :=
  match f with
  | Flast_price | Fbid_price | Fask_price => validate_prices
  | Fopen_interest | Fchange_in_oi | Ftotal_traded_volume | Fbid_qty
  | Fask_qty => validate_quantities
  | Fpchange_in_oi | Fchange | Fpchange | Fimplied_volatility =>
      validate_percentages
  end.

(** An [Optional[float]] field with a [pre] validator: the default [None]
    when the keyword is not passed, the validator's answer otherwise (a
    float or [None], both of which the field accepts), or the exception
    that leaves the validator. *)
Definition optional_field (kwargs : list (string * pyval)) (f : MarketField)
  : result (option Q) :=
  match assoc (field_name f) kwargs with
  | None => Ok None
  | Some v => validator_of f v
  end.

(** A [str] field of pydantic: a string as it is, a number through [str],
    anything else is a validation error. *)
Definition str_field (v : pyval) : option string :=
  match v with
  | PStr s => Some s
  | PInt _ | PFloat _ | PBool _ => Some (py_str v)
  | PNone | PList _ | PDict _ => None
  end.

(** An [Optional[float]] field without validator of its own: [None] is
    accepted, anything else goes through [float]; the outer [None] is the
    failure of the field (a validation error, or the [OverflowError] of
    [float]). *)
Definition optional_float_field (v : pyval) : option (option Q) :=
  match v with
  | PNone => Some None
  | _ => match py_float v with
         | Some q => Some (Some q)
         | None => None
         end
  end.

(** [OptionChainEntry(symbol=..., ..., **mapped_data)]: [None] when the
    constructor raises, be it the [ValidationError] of a field or the
    exception that left a validator. *)
Definition new_OptionChainEntry (symbol : string) (type : OptionType)
    (strike_price expiry_date : pyval) (identifier : string) (fetched_at : Z)
    (underlying_value : pyval) (mapped_data : list (string * pyval))
  : option OptionChainEntry :=
  match validate_prices strike_price, str_field expiry_date,
        optional_float_field underlying_value with
  | Ok (Some strike), Some expiry, Some underlying =>
      let field := optional_field mapped_data in
      let entry :=
        open_interest <- field Fopen_interest ;;
        change_in_oi <- field Fchange_in_oi ;;
        pchange_in_oi <- field Fpchange_in_oi ;;
        last_price <- field Flast_price ;;
        change <- field Fchange ;;
        pchange <- field Fpchange ;;
        total_traded_volume <- field Ftotal_traded_volume ;;
        implied_volatility <- field Fimplied_volatility ;;
        bid_qty <- field Fbid_qty ;;
        bid_price <- field Fbid_price ;;
        ask_price <- field Fask_price ;;
        ask_qty <- field Fask_qty ;;
        Ok {| symbol := symbol; type := type; strike_price := strike;
              expiry_date := expiry; identifier := identifier;
              fetched_at := fetched_at;
              open_interest := open_interest;
              change_in_oi := change_in_oi;
              pchange_in_oi := pchange_in_oi;
              last_price := last_price;
              change := change;
              pchange := pchange;
              total_traded_volume := total_traded_volume;
              implied_volatility := implied_volatility;
              bid_qty := bid_qty;
              bid_price := bid_price;
              ask_price := ask_price;
              ask_qty := ask_qty;
              underlying_value := underlying |} in
      match entry with
      | Ok entry => Some entry
      | Raised _ => None
      end
  | _, _, _ => None
  end.

End WithRuntime.

End Models.

Export Models.

(** ** nse_service.py *)

Module NseService.

(** Python's [isspace] on the ASCII range. *)
Definition is_space (c : ascii) : bool :=
  let n := nat_of_ascii c in
  ((9 <=? n)%nat && (n <=? 13)%nat) || ((28 <=? n)%nat && (n <=? 32)%nat).

Fixpoint lstrip_chars (l : list ascii) : list ascii :=
  match l with
  | [] => []
  | c :: rest => if is_space c then lstrip_chars rest else l
  end.

(** [s.strip()] *)
Definition strip (s : string) : string :=
  string_of_list_ascii
    (rev (lstrip_chars (rev (lstrip_chars (list_ascii_of_string s))))).

(** What the world brings to one attempt of the data request:
    [session_issue] is the exception inside [_initialize_session], if any
    (the attempts after the first refresh the session before the request);
    [transport_error] is the exception of [session.get] or of
    [raise_for_status], if any; [json] is what [response.json()] gives. *)
Record Response : Type := {
  session_issue : option exn;
  transport_error : option exn;
  text : string;
  json : result pyval
}.

Inductive Level : Type := DEBUG | INFO | WARNING | ERROR.

(** The logger, as the list of the records it was given by
    [fetch_option_chain] and by what it calls (the [debug] and [info]
    lines are left out). *)
Definition Log : Type := list (Level * string).

Definition emit (log : Log) (level : Level) (message : string) : Log :=
  (log ++ [(level, message)])%list.

Definition decimal (n : nat) : string :=
  NilZero.string_of_uint (Nat.to_uint n).

(** [_get_fallback_data]: the sample structure of the source. *)
Definition _get_fallback_data (symbol : string) : pyval * Log :=
  (PDict
     [("records",
       PDict
         [("data",
           PList
             [PDict
                [("strikePrice", PInt 25000);
                 ("expiryDate", PStr "30-Jan-2025");
                 ("CE",
                  PDict
                    [("openInterest", PInt 1500);
                     ("lastPrice", PFloat 125.75%Q);
                     ("change", PFloat (-5.25)%Q);
                     ("pChange", PFloat (-4.02)%Q);
                     ("totalTradedVolume", PInt 8500);
                     ("impliedVolatility", PFloat 16.8%Q);
                     ("bidQty", PInt 150);
                     ("bidprice", PFloat 125.0%Q);
                     ("askPrice", PFloat 126.0%Q);
                     ("askQty", PInt 200)]);
                 ("PE",
                  PDict
                    [("openInterest", PInt 2200);
                     ("lastPrice", PFloat 75.50%Q);
                     ("change", PFloat 3.25%Q);
                     ("pChange", PFloat 4.49%Q);
                     ("totalTradedVolume", PInt 12000);
                     ("impliedVolatility", PFloat 18.5%Q);
                     ("bidQty", PInt 100);
                     ("bidprice", PFloat 75.0%Q);
                     ("askPrice", PFloat 76.0%Q);
                     ("askQty", PInt 175)])]]);
          ("underlyingValue", PFloat 25075.50%Q)])],
   [(WARNING, "Using fallback data for " ++ symbol)]).

(** The body of the [try] of one attempt, from the response on. *)
Definition check_response (r : Response) : result pyval :=
  match transport_error r with
  | Some e => Raised e
  | None =>
      let response_text := strip (text r) in
      if String.eqb response_text "" then
        Raised (ValueError "Empty response received")
      else if prefix "<" response_text then
        Raised (ValueError "Received HTML response instead of JSON")
      else
        match json r with
        | Raised json_error =>
            Raised (ValueError ("Invalid JSON response: "
                                ++ exn_msg json_error))
        | Ok data =>
            missing <- (if negb (truthy data) then Ok true
                        else found <- str_in "records" data ;;
                             Ok (negb found)) ;;
            if (missing : bool) then
              Raised (ValueError
                        "Invalid response format - missing 'records' field")
            else Ok data
        end
  end.

(** The warning of [_initialize_session], which swallows its own
    exception: an attempt after the first calls it before the request. *)
Definition _initialize_session (attempt : nat) (r : Response) : Log :=
  if (0 <? attempt)%nat then
    match session_issue r with
    | Some e =>
        [(WARNING, "NSE session initialization had issues: " ++ exn_msg e)]
    | None => []
    end
  else [].

(** The warning of the [except] around [response.json()], which is logged
    before the [ValueError] of [check_response] is raised: it is reached
    when the request went through and the text is neither blank nor an
    HTML page. *)
Definition json_warning (r : Response) : Log :=
  match transport_error r with
  | Some _ => []
  | None =>
      let response_text := strip (text r) in
      if String.eqb response_text "" then []
      else if prefix "<" response_text then []
      else
        match json r with
        | Raised _ =>
            [(WARNING, "JSON parsing failed. Response preview: "
                       ++ substring 0 200 response_text ++ "...")]
        | Ok _ => []
        end
  end.

(** What the body of the [try] of one attempt logs, whatever it comes
    to. *)
Definition attempt_warnings (attempt : nat) (r : Response) : Log :=
  (_initialize_session attempt r ++ json_warning r)%list.

(** [for attempt in range(3)], from [attempt] on with [remaining] rounds
    left; [responses k] is what the world answers at attempt [k]. The
    session is refreshed before each retry, which never raises and leaves
    at most a warning. *)
Fixpoint fetch_loop (responses : nat -> Response) (symbol : string)
    (attempt remaining : nat) (log : Log) : result pyval * Log :=
  match remaining with
  | O => (Raised (RuntimeError "Unexpected error in fetch_option_chain"), log)
  | S remaining' =>
      let log :=
        (log ++ attempt_warnings attempt (responses attempt))%list in
      match check_response (responses attempt) with
      | Ok data => (Ok data, log)
      | Raised e =>
          let log' :=
            emit log WARNING
              ("Attempt " ++ decimal (attempt + 1) ++ " failed for "
               ++ symbol ++ ": " ++ exn_msg e) in
          if (attempt =? 2)%nat then
            let (data, lines) := _get_fallback_data symbol in
            (Ok data, (log' ++ lines)%list)
          else fetch_loop responses symbol (S attempt) remaining' log'
      end
  end.

Definition fetch_option_chain (responses : nat -> Response) (symbol : string)
  : result pyval * Log :=
  fetch_loop responses symbol 0 3 [].

Section WithRuntime.
Context {RT : Runtime}.

(** The loop over [field_mapping.items()] that fills [mapped_data]. *)
Fixpoint map_fields (option_data : pyval) (field_mapping : list (string * string))
    (mapped_data : list (string * pyval)) : result (list (string * pyval)) :=
  match field_mapping with
  | [] => Ok mapped_data
  | (nse_field, model_field) :: rest =>
      value <- py_get option_data nse_field PNone ;;
      if negb (is_none value) && negb (eq_str value "")
         && negb (eq_str value "-")
      then map_fields option_data rest (dict_set mapped_data model_field value)
      else map_fields option_data rest mapped_data
  end.

(** [_create_option_entry]: [None] is the answer of the [except] branch. *)
Definition _create_option_entry (option_data : pyval) (symbol : string)
    (option_type : OptionType) (strike_price expiry_date : pyval)
    (underlying_value : pyval) (fetched_at : Z) : option OptionChainEntry :=
  let identifier :=
    symbol ++ "_" ++ value option_type ++ "_" ++ py_str strike_price
           ++ "_" ++ py_str expiry_date in
  let field_mapping := NSE_FIELD_MAPPING (value option_type) in
  match map_fields option_data field_mapping [] with
  | Raised _ => None
  | Ok mapped_data =>
      match py_float strike_price with
      | None => None
      | Some strike =>
          new_OptionChainEntry symbol option_type (PFloat strike) expiry_date
            identifier fetched_at underlying_value mapped_data
      end
  end.

(** One side of a record: [if key in record: ... append]. *)
Definition parse_side (record : pyval) (key : string) (symbol : string)
    (option_type : OptionType) (strike_price expiry_date : pyval)
    (underlying_value : pyval) (fetched_at : Z)
    (options : list OptionChainEntry) : result (list OptionChainEntry) :=
  present <- str_in key record ;;
  if (present : bool) then
    side_data <- py_getitem record key ;;
    match _create_option_entry side_data symbol option_type strike_price
            expiry_date underlying_value fetched_at with
    | Some entry => Ok (options ++ [entry])%list
    | None => Ok options
    end
  else Ok options.

(** The loop [for record in data_list]. *)
Fixpoint parse_records (data_list : list pyval) (symbol : string)
    (underlying_value : pyval) (fetched_at : Z)
    (call_options put_options : list OptionChainEntry)
  : result (list OptionChainEntry * list OptionChainEntry) :=
  match data_list with
  | [] => Ok (call_options, put_options)
  | record :: rest =>
      match py_get record "strikePrice" PNone with
      | Raised e => Raised e
      | Ok strike_price =>
          match py_get record "expiryDate" (PStr "") with
          | Raised e => Raised e
          | Ok expiry_date =>
              if negb (truthy strike_price) then
                parse_records rest symbol underlying_value fetched_at
                  call_options put_options
              else
                match parse_side record "CE" symbol CALL strike_price
                        expiry_date underlying_value fetched_at call_options
                with
                | Raised e => Raised e
                | Ok call_options' =>
                    match parse_side record "PE" symbol PUT strike_price
                            expiry_date underlying_value fetched_at
                            put_options
                    with
                    | Raised e => Raised e
                    | Ok put_options' =>
                        parse_records rest symbol underlying_value fetched_at
                          call_options' put_options'
                    end
                end
          end
      end
  end.

(** [parse_option_chain]; [fetched_at] is the reading of the clock that the
    function takes once, before the loop. *)
Definition parse_option_chain (raw_data : pyval) (symbol : string)
    (fetched_at : Z)
  : result (list OptionChainEntry * list OptionChainEntry) :=
  records <- py_get raw_data "records" (PDict []) ;;
  data_list <- py_get records "data" (PList []) ;;
  underlying_value <- py_get records "underlyingValue" PNone ;;
  rows <- py_iter data_list ;;
  parse_records rows symbol underlying_value fetched_at [] [].

(** [fetch_and_parse] *)
Definition fetch_and_parse (responses : nat -> Response) (symbol : string)
    (fetched_at : Z)
  : result (list OptionChainEntry * list OptionChainEntry) * Log :=
  let (raw, log) := fetch_option_chain responses symbol in
  (raw_data <- raw ;; parse_option_chain raw_data symbol fetched_at, log).

End WithRuntime.

End NseService.

Export NseService.

(** ** A runtime for plain decimal literals

    An instance of [Runtime] on which the definitions can be run: [float]
    of an optionally signed decimal literal ([" 2490.75 "], ["-5"], [".5"]),
    [str] of a float with a finite decimal expansion, [repr] of containers
    of strings that need no escaping. *)

Module DecimalRuntime.

Definition digit_of (c : ascii) : option Z :=
  let n := nat_of_ascii c in
  if ((48 <=? n)%nat && (n <=? 57)%nat)%bool
  then Some (Z.of_nat (n - 48))
  else None.

(** Reads a run of digits: its value, its length and what follows it. *)
Fixpoint read_digits (l : list ascii) (acc : Z) (count : nat)
  : Z * nat * list ascii :=
  match l with
  | [] => (acc, count, [])
  | c :: rest =>
      match digit_of c with
      | Some d => read_digits rest (acc * 10 + d)%Z (S count)
      | None => (acc, count, l)
      end
  end.

Definition read_sign (l : list ascii) : bool * list ascii :=
  match l with
  | "-"%char :: rest => (true, rest)
  | "+"%char :: rest => (false, rest)
  | _ => (false, l)
  end.

Definition read_fraction (l : list ascii) : Z * nat * list ascii :=
  match l with
  | "."%char :: rest => read_digits rest 0%Z 0
  | _ => (0%Z, 0, l)
  end.

Definition float_of_decimal (s : string) : option Q :=
  let (negative, l1) := read_sign (list_ascii_of_string (strip s)) in
  let '(whole, n1, l2) := read_digits l1 0%Z 0 in
  let '(fraction, n2, l3) := read_fraction l2 in
  match l3 with
  | [] =>
      if (n1 + n2 =? 0)%nat then None
      else
        let scale := Pos.pow 10 (Pos.of_nat n2) in
        let scale := if (n2 =? 0)%nat then 1%positive else scale in
        let mantissa := (whole * Z.pos scale + fraction)%Z in
        Some (Qmake (if negative then (- mantissa)%Z else mantissa) scale)
  | _ => None
  end.

(** The digits of [r / d] after the point, at most [fuel] of them. *)
Fixpoint fraction_digits (fuel : nat) (r d : Z) : string :=
  match fuel with
  | O => ""
  | S fuel' =>
      if (r =? 0)%Z then ""
      else NilZero.string_of_int (Z.to_int (r * 10 / d))
           ++ fraction_digits fuel' ((r * 10) mod d)%Z d
  end.

Definition str_of_decimal (q : Q) : string :=
  let n := Z.abs (Qnum q) in
  let d := Z.pos (Qden q) in
  let digits := fraction_digits 17 (n mod d)%Z d in
  (if (Qnum q <? 0)%Z then "-" else "")
  ++ NilZero.string_of_int (Z.to_int (n / d)) ++ "."
  ++ (if String.eqb digits "" then "0" else digits).

Definition join (sep : string) (l : list string) : string :=
  String.concat sep l.

Fixpoint repr (v : pyval) : string :=
  match v with
  | PNone => "None"
  | PBool b => if b then "True" else "False"
  | PInt z => NilZero.string_of_int (Z.to_int z)
  | PFloat q => str_of_decimal q
  | PStr s => "'" ++ s ++ "'"
  | PList l => "[" ++ join ", " (map repr l) ++ "]"
  | PDict kv =>
      "{" ++ join ", " (map (fun p => "'" ++ fst p ++ "': " ++ repr (snd p)) kv)
      ++ "}"
  end.

Definition runtime : Runtime :=
  {| float_of_str := float_of_decimal;
     str_of_float := str_of_decimal;
     repr_of := repr |}.

End DecimalRuntime.

(** ** nse_option_chain_pipeline.py: the CSV fetcher and parser *)

Module CsvPipeline.

(** A value of a cell of the data frame, or of a field of a document. *)
Inductive Value : Type :=
| NaN
| Num (x : Q)
| Str (s : string)
| Time (t : Z).

(** A row of the frame ([pd.Series]): column label to cell. *)
Definition Row : Type := list (string * Value).

(** A document for the collection: field name to value, in insertion
    order. *)
Definition Document : Type := list (string * Value).

Definition call_columns : list (string * string) :=
  [("OI", "open_interest"); ("CHNG IN OI", "change_in_oi");
   ("VOLUME", "volume"); ("IV", "implied_volatility");
   ("LTP", "last_traded_price"); ("CHNG", "change"); ("BID QTY", "bid_qty");
   ("BID", "bid_price"); ("ASK", "ask_price"); ("ASK QTY", "ask_qty")].

Definition put_columns : list (string * string) :=
  [("BID QTY.1", "bid_qty"); ("BID.1", "bid_price"); ("ASK.1", "ask_price");
   ("ASK QTY.1", "ask_qty"); ("CHNG.1", "change");
   ("LTP.1", "last_traded_price"); ("IV.1", "implied_volatility");
   ("VOLUME.1", "volume"); ("CHNG IN OI.1", "change_in_oi");
   ("OI.1", "open_interest")].

(** [s.replace(c, "")] for a one-character [c]. *)
Fixpoint remove_char (c : ascii) (s : string) : string :=
  match s with
  | EmptyString => EmptyString
  | String c' rest =>
      if Ascii.eqb c c' then remove_char c rest
      else String c' (remove_char c rest)
  end.

Definition double_quote : ascii := ascii_of_nat 34.

(** The two [replace] calls on a string cell: commas and double quotes
    are dropped. *)
Definition clean (value : string) : string :=
  remove_char double_quote (remove_char ","%char value).

(** [pd.notna(value) and value != "" and value != "-"] *)
Definition populated (value : Value) : bool :=
  match value with
  | NaN => false
  | Str s => negb (String.eqb s "") && negb (String.eqb s "-")
  | Num _ | Time _ => true
  end.

Section WithRuntime.
Context {RT : Runtime}.

(** What the document receives for a populated cell. *)
Definition convert (value : Value) : Value :=
  match value with
  | Str s =>
      let cleaned_value := clean s in
      match float_of_str cleaned_value with
      | Some x => Num x
      | None => Str cleaned_value
      end
  | _ => value
  end.

(** The loop [for csv_col, doc_field in column_mapping.items()]. *)
Fixpoint add_mapped_fields (row : Row) (column_mapping : list (string * string))
    (doc : Document) : Document :=
  match column_mapping with
  | [] => doc
  | (csv_col, doc_field) :: rest =>
      match assoc csv_col row with
      | Some value =>
          if populated value
          then add_mapped_fields row rest (dict_set doc doc_field (convert value))
          else add_mapped_fields row rest doc
      | None => add_mapped_fields row rest doc
      end
  end.

Definition _create_option_document (row : Row)
    (column_mapping : list (string * string)) (symbol option_type : string)
    (strike_price : Value) (fetched_at : Z) : option Document :=
  let doc :=
    [("symbol", Str symbol); ("type", Str option_type);
     ("strike_price", strike_price); ("fetched_at", Time fetched_at)] in
  let doc := add_mapped_fields row column_mapping doc in
  if (4 <? List.length doc)%nat then Some doc else None.

(** The loop of [_transform_to_documents] over the rows of the frame;
    [row["STRIKE"]] raises [KeyError] when the column is not there. *)
Fixpoint transform_rows (rows : list Row) (symbol : string) (fetched_at : Z)
    (call_docs put_docs : list Document)
  : result (list Document * list Document) :=
  match rows with
  | [] => Ok (call_docs, put_docs)
  | row :: rest =>
      match assoc "STRIKE" row with
      | None => Raised (Exn "KeyError" "'STRIKE'")
      | Some strike_price =>
          let call_docs' :=
            match _create_option_document row call_columns symbol "CALL"
                    strike_price fetched_at with
            | Some call_doc => (call_docs ++ [call_doc])%list
            | None => call_docs
            end in
          let put_docs' :=
            match _create_option_document row put_columns symbol "PUT"
                    strike_price fetched_at with
            | Some put_doc => (put_docs ++ [put_doc])%list
            | None => put_docs
            end in
          transform_rows rest symbol fetched_at call_docs' put_docs'
      end
  end.

Definition _transform_to_documents (df : list Row) (symbol : string)
    (fetched_at : Z) : result (list Document * list Document) :=
  transform_rows df symbol fetched_at [] [].

(** [df.dropna(subset=["STRIKE"])] on a frame given as the list of its
    rows, each of which holds a cell for every column of the frame:
    [KeyError] when the frame has no such column. *)
Fixpoint dropna_STRIKE (df : list Row) : result (list Row) :=
  match df with
  | [] => Ok []
  | row :: rest =>
      match assoc "STRIKE" row with
      | None => Raised (Exn "KeyError" "['STRIKE']")
      | Some cell =>
          kept <- dropna_STRIKE rest ;;
          Ok match cell with
             | NaN => kept
             | _ => row :: kept
             end
      end
  end.

(** [df[df["STRIKE"] != ""]] *)
Definition nonempty_STRIKE (df : list Row) : list Row :=
  filter (fun row => match assoc "STRIKE" row with
                     | Some (Str s) => negb (String.eqb s "")
                     | _ => true
                     end) df.

(** [pd.to_numeric(cell.astype(str).str.replace(",", ""),
    errors="coerce")] on one cell of the column: a number goes through
    its text and back, the text of a string cell is read by [to_numeric]
    once its commas are dropped, and what cannot be read becomes NaN. *)
Definition numeric_STRIKE (to_numeric : string -> option Q) (cell : Value)
  : Value :=
  match cell with
  | Num x => Num x
  | Str s =>
      match to_numeric (remove_char ","%char s) with
      | Some x => Num x
      | None => NaN
      end
  | NaN | Time _ => NaN
  end.

(** [df["STRIKE"] = ...]: the cell of every row is replaced. *)
Definition assign_STRIKE (to_numeric : string -> option Q) (df : list Row)
  : list Row :=
  map (fun row =>
         match assoc "STRIKE" row with
         | Some cell => dict_set row "STRIKE" (numeric_STRIKE to_numeric cell)
         | None => row
         end) df.

(** [parse_csv_to_documents], from the frame that [pd.read_csv] returned
    and whose column names have been stripped: [columns] are its labels
    and [df] its rows. [dropna] looks its subset up in the labels before
    it looks at any row, so that a frame without the label STRIKE raises
    [KeyError] even when it has no row. [to_numeric] is how
    [pd.to_numeric] reads a string ([None] when it cannot). The [except]
    branch logs and raises again. *)
Definition parse_csv_to_documents (to_numeric : string -> option Q)
    (columns : list string) (df : list Row) (symbol : string)
    (fetched_at : Z)
  : result (list Document * list Document) :=
  _ <- (if existsb (String.eqb "STRIKE") columns then Ok tt
        else Raised (Exn "KeyError" "['STRIKE']")) ;;
  df <- dropna_STRIKE df ;;
  let df := nonempty_STRIKE df in
  let df := assign_STRIKE to_numeric df in
  df <- dropna_STRIKE df ;;
  _transform_to_documents df symbol fetched_at.

End WithRuntime.

(** The minimal CSV structure that [_get_fallback_csv_data] returns when
    the local file [option-chain.csv] cannot be read. *)
Definition newline : string := String (ascii_of_nat 10) EmptyString.

Definition minimal_csv : string :=
  "CALLS,,PUTS" ++ newline
  ++ ",OI,CHNG IN OI,VOLUME,IV,LTP,CHNG,BID QTY,BID,ASK,ASK QTY,STRIKE,"
  ++ "BID QTY,BID,ASK,ASK QTY,CHNG,LTP,IV,VOLUME,CHNG IN OI,OI," ++ newline.

(** [local_file] is the content of [option-chain.csv], when it can be
    read. *)
Definition _get_fallback_csv_data (local_file : option string) : string :=
  match local_file with
  | Some content => content
  | None => minimal_csv
  end.

(** The retry loop of [fetch_option_chain_csv]: [attempts k] is what the
    body of the [try] of attempt [k] comes to (the CSV text of one of the
    two endpoints, or the exception it raises). *)
Fixpoint fetch_csv_loop (MAX_RETRIES : nat) (attempts : nat -> result string)
    (local_file : option string) (attempt remaining : nat) : result string :=
  match remaining with
  | O => Raised (RuntimeError "Unexpected error in fetch_option_chain_csv")
  | S remaining' =>
      match attempts attempt with
      | Ok csv_data => Ok csv_data
      | Raised _ =>
          if (attempt =? MAX_RETRIES - 1)%nat
          then Ok (_get_fallback_csv_data local_file)
          else fetch_csv_loop MAX_RETRIES attempts local_file (S attempt)
                 remaining'
      end
  end.

Definition fetch_option_chain_csv (MAX_RETRIES : nat)
    (attempts : nat -> result string) (local_file : option string)
  : result string :=
  fetch_csv_loop MAX_RETRIES attempts local_file 0 MAX_RETRIES.

End CsvPipeline.

(** ** database_service.py *)

Module Database.

(** The collection: its documents in insertion order, the condition of the
    server ([Some e] when every operation on it raises [e]) and the number
    of [insert_many] commands it has been sent. The unique index
    [dedup_index] is over [(identifier, fetched_at)]. *)
Record Collection : Type := {
  documents : list OptionChainEntry;
  server_error : option exn;
  insert_many_calls : nat
}.

Definition dedup_key (d : OptionChainEntry) : string * Z :=
  (identifier d, fetched_at d).

Definition key_eqb (a b : string * Z) : bool :=
  String.eqb (fst a) (fst b) && (snd a =? snd b)%Z.

Definition has_key (stored : list OptionChainEntry) (k : string * Z) : bool :=
  existsb (fun d => key_eqb (dedup_key d) k) stored.

(** An unordered bulk insert under the unique index: every document is
    tried; one whose key is already there (stored before, or earlier in the
    batch) is a write error and the others go in. Returns the documents
    after the insert and the number inserted. The batch is made of the
    fresh dicts of [option.dict()], to each of which the driver gives a new
    [_id], so that the index on [_id] rejects nothing. *)
Fixpoint insert_unordered (stored batch : list OptionChainEntry)
  : list OptionChainEntry * nat :=
  match batch with
  | [] => (stored, 0)
  | d :: rest =>
      if has_key stored (dedup_key d) then insert_unordered stored rest
      else
        let (stored', n) := insert_unordered (stored ++ [d])%list rest in
        (stored', S n)
  end.

Inductive InsertOutcome : Type :=
| InsertManyResult (inserted_ids : list nat)
| BulkWriteError (nInserted : nat)
| OtherError (e : exn).

(** [collection.insert_many(documents, ordered=False)] *)
Definition insert_many (c : Collection) (batch : list OptionChainEntry)
  : InsertOutcome * Collection :=
  let sent := {| documents := documents c; server_error := server_error c;
                 insert_many_calls := S (insert_many_calls c) |} in
  match batch with
  | [] => (OtherError (TypeError "documents must be a non-empty list"), c)
  | _ =>
      match server_error c with
      | Some e => (OtherError e, sent)
      | None =>
          let (stored', n) := insert_unordered (documents c) batch in
          let c' := {| documents := stored'; server_error := None;
                       insert_many_calls := S (insert_many_calls c) |} in
          if (n =? List.length batch)%nat
          then (InsertManyResult (seq (List.length (documents c)) n), c')
          else (BulkWriteError n, c')
      end
  end.

Record BulkStats : Type := { inserted : Z; skipped : Z }.

Definition len {A : Type} (l : list A) : Z := Z.of_nat (List.length l).

(** [_bulk_insert_with_dedup] *)
Definition _bulk_insert_with_dedup (c : Collection)
    (options : list OptionChainEntry) (option_type : string)
  : result BulkStats * Collection :=
  match options with
  | [] => (Ok {| inserted := 0; skipped := 0 |}, c)
  | _ =>
      let documents := options in
      match insert_many c documents with
      | (InsertManyResult inserted_ids, c') =>
          (Ok {| inserted := len inserted_ids; skipped := 0 |}, c')
      | (BulkWriteError nInserted, c') =>
          let inserted_count := Z.of_nat nInserted in
          (Ok {| inserted := inserted_count;
                 skipped := len documents - inserted_count |}, c')
      | (OtherError e, c') => (Raised e, c')
      end
  end.

Record StorageStats : Type := {
  calls_inserted : Z;
  puts_inserted : Z;
  calls_skipped : Z;
  puts_skipped : Z;
  total_processed : Z
}.

(** [store_option_data] *)
Definition store_option_data (c : Collection)
    (call_options put_options : list OptionChainEntry)
  : result StorageStats * Collection :=
  let (call_stats, c1) :=
    match call_options with
    | [] => (Ok {| inserted := 0; skipped := 0 |}, c)
    | _ => _bulk_insert_with_dedup c call_options "CALL"
    end in
  match call_stats with
  | Raised e => (Raised e, c1)
  | Ok call_stats =>
      let (put_stats, c2) :=
        match put_options with
        | [] => (Ok {| inserted := 0; skipped := 0 |}, c1)
        | _ => _bulk_insert_with_dedup c1 put_options "PUT"
        end in
      match put_stats with
      | Raised e => (Raised e, c2)
      | Ok put_stats =>
          (Ok {| calls_inserted := inserted call_stats;
                 puts_inserted := inserted put_stats;
                 calls_skipped := skipped call_stats;
                 puts_skipped := skipped put_stats;
                 total_processed := len call_options + len put_options |},
           c2)
      end
  end.

(** [find_one({"symbol": symbol}, sort=[("fetched_at", -1)])]: a document
    of the symbol with the greatest [fetched_at]. *)
Fixpoint find_latest (docs : list OptionChainEntry) (symbol : string)
    (best : option OptionChainEntry) : option OptionChainEntry :=
  match docs with
  | [] => best
  | d :: rest =>
      if String.eqb (Models.symbol d) symbol then
        match best with
        | None => find_latest rest symbol (Some d)
        | Some b =>
            if (fetched_at b <? fetched_at d)%Z
            then find_latest rest symbol (Some d)
            else find_latest rest symbol best
        end
      else find_latest rest symbol best
  end.

(** [find({"symbol": ..., "type": ..., "fetched_at": ...})] *)
Definition find (docs : list OptionChainEntry) (symbol : string)
    (type : OptionType) (fetched_at : Z) : list OptionChainEntry :=
  filter (fun d => String.eqb (Models.symbol d) symbol
                   && OptionType_eqb (Models.type d) type
                   && (Models.fetched_at d =? fetched_at)%Z) docs.

(** [.sort("strike_price", 1)]: ascending; documents of equal strike keep
    the order they had. *)
Fixpoint insert_by_strike (d : OptionChainEntry) (l : list OptionChainEntry)
  : list OptionChainEntry :=
  match l with
  | [] => [d]
  | x :: rest =>
      if Qle_bool (strike_price d) (strike_price x) then d :: l
      else x :: insert_by_strike d rest
  end.

Definition sort_by_strike (l : list OptionChainEntry) : list OptionChainEntry :=
  fold_right insert_by_strike [] l.

(** The documents of the first batch of a [find] that names no batch
    size, at most. *)
Definition first_batch : nat := 101.

(** [.limit(n)] on a cursor that is then read to its end: zero is no
    limit, and a positive [n] keeps the first [n] documents. For a
    negative [n] the driver asks for [|n|] documents in a single batch, so
    that no more than the first batch of the server comes back (the bound
    of the server on the size of a batch in bytes is outside the
    model). *)
Definition cursor_limit {A : Type} (n : Z) (l : list A) : list A :=
  if (n =? 0)%Z then l
  else if (0 <? n)%Z then firstn (Z.to_nat n) l
  else firstn (Nat.min (Z.abs_nat n) first_batch) l.

(** [get_latest_option_data] *)
Definition get_latest_option_data (c : Collection) (symbol : string)
    (limit : Z) : result (list OptionChainEntry * list OptionChainEntry) :=
  match server_error c with
  | Some e => Raised e
  | None =>
      match find_latest (documents c) symbol None with
      | None => Ok ([], [])
      | Some latest_doc =>
          let latest_time := fetched_at latest_doc in
          let calls :=
            cursor_limit limit
              (sort_by_strike (find (documents c) symbol CALL latest_time)) in
          let puts :=
            cursor_limit limit
              (sort_by_strike (find (documents c) symbol PUT latest_time)) in
          Ok (calls, puts)
      end
  end.

Definition default_limit : Z := 100.

End Database.

Export Database.

(** ** data_pipeline.py *)

Module Pipeline.

Record Statistics : Type := {
  total_calls_inserted : Z;
  total_puts_inserted : Z;
  total_calls_skipped : Z;
  total_puts_skipped : Z
}.

Record DataPipeline : Type := {
  symbols : list string;
  running : bool;
  db_service : Collection;
  total_cycles : Z;
  successful_cycles : Z;
  failed_cycles : Z;
  last_successful_fetch : option Z;
  stats : Statistics
}.

(** What the world supplies while one cycle runs: the answers to the data
    requests, the two readings of the clock (in [parse_option_chain] and
    after the store), and whether a termination signal arrives. *)
Record CycleEnv : Type := {
  responses : nat -> Response;
  clock_at_parse : Z;
  clock_at_end : Z;
  signal : bool
}.

(** The dictionary that [run_single_cycle] returns, without [cycle_time]. *)
Record CycleResult : Type := {
  result_symbol : string;
  success : bool;
  calls_processed : option Z;
  puts_processed : option Z;
  storage : option StorageStats;
  error : option string
}.

Definition with_db (self : DataPipeline) (db : Collection) : DataPipeline :=
  {| symbols := symbols self; running := running self; db_service := db;
     total_cycles := total_cycles self;
     successful_cycles := successful_cycles self;
     failed_cycles := failed_cycles self;
     last_successful_fetch := last_successful_fetch self;
     stats := stats self |}.

Section WithRuntime.
Context {RT : Runtime}.

(** The [try] block of [run_single_cycle]. *)
Definition cycle_body (self : DataPipeline) (symbol : string) (env : CycleEnv)
  : result CycleResult * DataPipeline :=
  match fst (fetch_and_parse (responses env) symbol (clock_at_parse env)) with
  | Raised e => (Raised e, self)
  | Ok (call_options, put_options) =>
      match store_option_data (db_service self) call_options put_options with
      | (Raised e, db) => (Raised e, with_db self db)
      | (Ok storage_stats, db) =>
          let stats' :=
            {| total_calls_inserted :=
                 total_calls_inserted (stats self) + calls_inserted storage_stats;
               total_puts_inserted :=
                 total_puts_inserted (stats self) + puts_inserted storage_stats;
               total_calls_skipped :=
                 total_calls_skipped (stats self) + calls_skipped storage_stats;
               total_puts_skipped :=
                 total_puts_skipped (stats self) + puts_skipped storage_stats
            |} in
          (Ok {| result_symbol := symbol; success := true;
                 calls_processed := Some (len call_options);
                 puts_processed := Some (len put_options);
                 storage := Some storage_stats; error := None |},
           {| symbols := symbols self; running := running self;
              db_service := db; total_cycles := total_cycles self;
              successful_cycles := successful_cycles self;
              failed_cycles := failed_cycles self;
              last_successful_fetch := Some (clock_at_end env);
              stats := stats' |})
      end
  end.

(** [run_single_cycle]: the [try] block under its [except Exception]. *)
Definition run_single_cycle (self : DataPipeline) (symbol : string)
    (env : CycleEnv) : result CycleResult * DataPipeline :=
  let (outcome, self') := cycle_body self symbol env in
  (try_except outcome
     (fun e => Ok {| result_symbol := symbol; success := false;
                     calls_processed := None; puts_processed := None;
                     storage := None; error := Some (exn_msg e) |}),
   self').

(** The handler of the termination signals: [self.running = False]. *)
Definition _signal_handler (self : DataPipeline) : DataPipeline :=
  {| symbols := symbols self; running := false;
     db_service := db_service self; total_cycles := total_cycles self;
     successful_cycles := successful_cycles self;
     failed_cycles := failed_cycles self;
     last_successful_fetch := last_successful_fetch self;
     stats := stats self |}.

(** The loop [for symbol in self.symbols] of one tick of
    [run_continuous]; [envs k] is the world during the cycle of the symbol
    at position [k] of what is left. Returns the pipeline, [cycle_success]
    and what the calls of [run_single_cycle] returned, in order. *)
Fixpoint for_symbols (self : DataPipeline) (todo : list string)
    (envs : nat -> CycleEnv) (cycle_success : bool)
  : DataPipeline * bool * list (result CycleResult) :=
  match todo with
  | [] => (self, cycle_success, [])
  | symbol :: rest =>
      if negb (running self) then (self, cycle_success, [])
      else
        let (outcome, self1) := run_single_cycle self symbol (envs 0) in
        let self2 := if signal (envs 0) then _signal_handler self1 else self1 in
        let cycle_success' :=
          match outcome with
          | Ok result => if success result then cycle_success else false
          | Raised _ => false
          end in
        let '(self3, ok, outcomes) :=
          for_symbols self2 rest (fun k => envs (S k)) cycle_success' in
        (self3, ok, outcome :: outcomes)
  end.

(** One round of the [while self.running] loop, up to the summary and the
    sleep. *)
Definition run_tick (self : DataPipeline) (envs : nat -> CycleEnv)
  : DataPipeline * list (result CycleResult) :=
  let counted :=
    {| symbols := symbols self; running := running self;
       db_service := db_service self; total_cycles := total_cycles self + 1;
       successful_cycles := successful_cycles self;
       failed_cycles := failed_cycles self;
       last_successful_fetch := last_successful_fetch self;
       stats := stats self |} in
  let '(self', cycle_success, outcomes) :=
    for_symbols counted (symbols counted) envs true in
  ({| symbols := symbols self'; running := running self';
      db_service := db_service self'; total_cycles := total_cycles self';
      successful_cycles :=
        if cycle_success then successful_cycles self' + 1
        else successful_cycles self';
      failed_cycles :=
        if cycle_success then failed_cycles self'
        else failed_cycles self' + 1;
      last_successful_fetch := last_successful_fetch self';
      stats := stats self' |},
   outcomes).

(** [run_continuous] over the ticks that the world lets happen: the loop
    stops when [running] is off; [ticks] bounds the observation. *)
Fixpoint while_running (self : DataPipeline) (ticks : list (nat -> CycleEnv))
  : DataPipeline * list (list (result CycleResult)) :=
  match ticks with
  | [] => (self, [])
  | envs :: later =>
      if running self then
        let (self', outcomes) := run_tick self envs in
        let (self'', more) := while_running self' later in
        (self'', outcomes :: more)
      else (self, [])
  end.

Definition run_continuous (self : DataPipeline)
    (ticks : list (nat -> CycleEnv))
  : DataPipeline * list (list (result CycleResult)) :=
  while_running
    {| symbols := symbols self; running := true;
       db_service := db_service self; total_cycles := total_cycles self;
       successful_cycles := successful_cycles self;
       failed_cycles := failed_cycles self;
       last_successful_fetch := last_successful_fetch self;
       stats := stats self |} ticks.

End WithRuntime.

End Pipeline.

Export Pipeline.

(** ** Vocabulary of the statements *)

Module Spec.

(** [d.get(k, default)] on the items of a dict. *)
Definition get_or {V : Type} (kv : list (string * V)) (k : string)
    (default : V) : V :=
  match assoc k kv with
  | Some v => v
  | None => default
  end.

(** The raw value of a numeric field counts as blank or unparseable: the
    key is missing, or the value is [None], the empty string, a dash, or a
    string that [float] rejects. *)
Definition blank_or_unparseable {RT : Runtime} (raw : option pyval) : Prop :=
  raw = None \/ raw = Some PNone \/ raw = Some (PStr EmptyString)
  \/ raw = Some (PStr "-")
  \/ exists s, raw = Some (PStr s) /\ float_of_str s = None.

(** The rows of a payload: [records.data], when the payload has the shape
    that the parser walks without raising. *)
Definition rows_of (raw_data : pyval) : result (list pyval) :=
  records <- py_get raw_data "records" (PDict []) ;;
  data_list <- py_get records "data" (PList []) ;;
  _ <- py_get records "underlyingValue" PNone ;;
  py_iter data_list.

Definition underlying_of (raw_data : pyval) : result pyval :=
  records <- py_get raw_data "records" (PDict []) ;;
  py_get records "underlyingValue" PNone.

(** Record [e] was emitted for side [option_type] of row [row] of [rows]:
    the row has a truthy strike, carries the side, and the entry built
    from that side is [e]. *)
Definition emitted_from {RT : Runtime} (rows : list pyval) (symbol : string)
    (option_type : OptionType) (underlying_value : pyval) (now : Z)
    (row : list (string * pyval)) (side : pyval) (e : OptionChainEntry)
  : Prop :=
  In (PDict row) rows
  /\ truthy (get_or row "strikePrice" PNone) = true
  /\ assoc (value option_type) row = Some side
  /\ _create_option_entry side symbol option_type
       (get_or row "strikePrice" PNone)
       (get_or row "expiryDate" (PStr EmptyString))
       underlying_value now = Some e.

(** The test of [_create_option_entry] on a raw value. *)
Definition kept (v : pyval) : bool :=
  negb (is_none v) && negb (eq_str v EmptyString) && negb (eq_str v "-").

(** One round of the loop that fills [mapped_data], on the items [kv] of
    the side. *)
Definition fill (kv : list (string * pyval)) (m : list (string * pyval))
    (f : MarketField) : list (string * pyval) :=
  let v := get_or kv (nse_name f) PNone in
  if kept v then dict_set m (field_name f) v else m.

(** The document of the CSV parser before the mapped fields are added. *)
Definition identity_doc (symbol option_type : string)
    (strike_price : CsvPipeline.Value) (now : Z) : CsvPipeline.Document :=
  [("symbol", CsvPipeline.Str symbol); ("type", CsvPipeline.Str option_type);
   ("strike_price", strike_price); ("fetched_at", CsvPipeline.Time now)].

(** A cell of the frame counts as blank: the column is missing, or the
    cell is NaN, the empty string or a dash. *)
Definition blank_cell (cell : option CsvPipeline.Value) : Prop :=
  cell = None \/ cell = Some CsvPipeline.NaN
  \/ cell = Some (CsvPipeline.Str EmptyString)
  \/ cell = Some (CsvPipeline.Str "-").

(** Ascending order of strike. *)
Definition strike_le (a b : OptionChainEntry) : Prop :=
  (strike_price a <= strike_price b)%Q.

(** The store of a cycle succeeded: the fetcher and parser returned two
    lists and [store_option_data] returned its counters on them. *)
Definition store_succeeded {RT : Runtime} (self : DataPipeline)
    (symbol : string) (env : CycleEnv) : Prop :=
  exists call_options put_options storage_stats db,
    fst (fetch_and_parse (responses env) symbol (clock_at_parse env))
    = Ok (call_options, put_options)
    /\ store_option_data (db_service self) call_options put_options
       = (Ok storage_stats, db).

(** The store that the cycles of the symbols [done] of a tick hand on to
    the cycle that follows them: a cycle leaves the store as its call of
    [store_option_data] left it, and as it found it when its fetcher or
    parser raised; [envs k] is the world during the cycle at position
    [k]. *)
Fixpoint store_after {RT : Runtime} (db : Collection) (done : list string)
    (envs : nat -> CycleEnv) : Collection :=
  match done with
  | [] => db
  | symbol :: rest =>
      let db' :=
        match fst (fetch_and_parse (responses (envs 0)) symbol
                     (clock_at_parse (envs 0))) with
        | Raised _ => db
        | Ok (call_options, put_options) =>
            snd (store_option_data db call_options put_options)
        end in
      store_after db' rest (fun k => envs (S k))
  end.

(** The call of [run_single_cycle] for [symbol] returned a result. *)
Definition cycle_ran (symbol : string) (outcome : result CycleResult) : Prop :=
  exists r, outcome = Ok r /\ result_symbol r = symbol.

(** A JSON number. *)
Definition is_number (v : pyval) : bool :=
  match v with
  | PInt _ | PFloat _ => true
  | _ => false
  end.

(** The strike that the CSV parser reads in a cell of the column STRIKE:
    the number itself, or what [to_numeric] reads in a text that is not
    empty once its commas are dropped; nothing in NaN, in the empty text
    and in a text that is no number. *)
Definition strike_number (to_numeric : string -> option Q)
    (cell : CsvPipeline.Value) : option Q :=
  match cell with
  | CsvPipeline.Num x => Some x
  | CsvPipeline.Str s =>
      if String.eqb s EmptyString then None
      else to_numeric (CsvPipeline.remove_char ","%char s)
  | CsvPipeline.NaN | CsvPipeline.Time _ => None
  end.

(** The rows of a frame in which a strike can be read, each with that
    number in its STRIKE cell. *)
Fixpoint numeric_rows (to_numeric : string -> option Q)
    (df : list CsvPipeline.Row) : list CsvPipeline.Row :=
  match df with
  | [] => []
  | row :: rest =>
      match assoc "STRIKE" row with
      | Some cell =>
          match strike_number to_numeric cell with
          | Some x =>
              dict_set row "STRIKE" (CsvPipeline.Num x)
              :: numeric_rows to_numeric rest
          | None => numeric_rows to_numeric rest
          end
      | None => numeric_rows to_numeric rest
      end
  end.

(** A side of a row of the frame has a populated column. *)
Definition populated_side (mapping : list (string * string))
    (row : CsvPipeline.Row) : Prop :=
  exists csv_col doc_field v,
    In (csv_col, doc_field) mapping
    /\ assoc csv_col row = Some v
    /\ CsvPipeline.populated v = true.

(** The names of the fields that a document of the CSV parser can
    hold. *)
Definition document_fields : list string :=
  (["symbol"; "type"; "strike_price"; "fetched_at"]
   ++ map snd CsvPipeline.call_columns
   ++ map snd CsvPipeline.put_columns)%list.

End Spec.

Export Spec.

(** ** Concrete inputs *)

Module Examples.

(** The payload of the end-to-end scenario: one row, both sides. *)
Definition scenario_payload : pyval :=
  PDict
    [("records",
      PDict
        [("data",
          PList
            [PDict
               [("strikePrice", PInt 25000);
                ("expiryDate", PStr "30-Jan-2025");
                ("CE", PDict [("lastPrice", PFloat 125.75%Q)]);
                ("PE", PDict [("lastPrice", PFloat 75.50%Q)])]])])].

(** A server that answers every data request with an HTML error page. *)
Definition html_page : Response :=
  {| session_issue := None; transport_error := None;
     text := "<html><body>Access Denied</body></html>";
     json := Raised (ValueError "Expecting value: line 1 column 1 (char 0)") |}.

Definition always_html (attempt : nat) : Response := html_page.

(** A server that answers every data request with a given payload. *)
Definition answering (payload : pyval) (attempt : nat) : Response :=
  {| session_issue := None; transport_error := None; text := "{...}";
     json := Ok payload |}.

(** A row of the frame whose LTP cell is text that is no number. *)
Definition unparseable_row : CsvPipeline.Row :=
  [("OI", CsvPipeline.Num 76%Q); ("LTP", CsvPipeline.Str "n.a.");
   ("STRIKE", CsvPipeline.Num 22950%Q)].

(** A payload whose single row carries an empty CE side. *)
Definition sparse_payload : pyval :=
  PDict
    [("records",
      PDict
        [("data",
          PList
            [PDict
               [("strikePrice", PInt 25000);
                ("expiryDate", PStr "30-Jan-2025");
                ("CE", PDict [])]])])].

(** A payload whose single row has a negative strike and no expiry. *)
Definition negative_strike_payload : pyval :=
  PDict
    [("records",
      PDict
        [("data",
          PList
            [PDict
               [("strikePrice", PInt (-100));
                ("CE", PDict [("lastPrice", PFloat 1.5%Q)])]])])].

(** An entry with no market data. *)
Definition bare_entry (symbol : string) (type : OptionType) (strike : Z)
    (expiry : string) (now : Z) : OptionChainEntry :=
  {| symbol := symbol; type := type; strike_price := inject_Z strike;
     expiry_date := expiry;
     identifier := symbol ++ "_" ++ value type ++ "_"
                   ++ NilZero.string_of_int (Z.to_int strike) ++ "_" ++ expiry;
     fetched_at := now;
     open_interest := None; change_in_oi := None; pchange_in_oi := None;
     last_price := None; change := None; pchange := None;
     total_traded_volume := None; implied_volatility := None;
     bid_qty := None; bid_price := None; ask_price := None; ask_qty := None;
     underlying_value := None |}.

Definition call_25000 : OptionChainEntry :=
  bare_entry "NIFTY" CALL 25000 "30-Jan-2025" 1000.

Definition put_25000 : OptionChainEntry :=
  bare_entry "NIFTY" PUT 25000 "30-Jan-2025" 1000.

Definition empty_collection : Collection :=
  {| documents := []; server_error := None; insert_many_calls := 0 |}.

(** A collection whose server cannot be reached. *)
Definition unreachable_collection : Collection :=
  {| documents := [];
     server_error :=
       Some (Exn "ServerSelectionTimeoutError" "No servers found yet");
     insert_many_calls := 0 |}.

(** A collection that holds one snapshot of 101 calls, of strikes 50, 100,
    ..., 5050, and an older snapshot of one call. *)
Definition crowded_collection : Collection :=
  {| documents :=
       bare_entry "NIFTY" CALL 25000 "30-Jan-2025" 900
       :: map (fun k => bare_entry "NIFTY" CALL (Z.of_nat k * 50)
                          "30-Jan-2025" 1000)
            (seq 1 101);
     server_error := None;
     insert_many_calls := 2 |}.

(** A frame of three rows: a negative strike with an open interest of the
    call, a strike that is no number, and a strike that is missing. *)
Definition negative_strike_columns : list string := ["OI"; "STRIKE"].

Definition negative_strike_frame : list CsvPipeline.Row :=
  [[("OI", CsvPipeline.Num 76%Q); ("STRIKE", CsvPipeline.Str "-100")];
   [("OI", CsvPipeline.Num 12%Q); ("STRIKE", CsvPipeline.Str "n.a.")];
   [("OI", CsvPipeline.Num 5%Q); ("STRIKE", CsvPipeline.NaN)]].

(** A payload with no row. *)
Definition empty_snapshot_payload : pyval :=
  PDict [("records", PDict [("data", PList [])])].

(** A payload whose [records] is a list: the parser raises on it. *)
Definition malformed_payload : pyval := PDict [("records", PList [])].

Definition quiet (payload : pyval) : CycleEnv :=
  {| responses := answering payload; clock_at_parse := 2000;
     clock_at_end := 2001; signal := false |}.

(** The world of a tick in which the first symbol is answered with the
    malformed payload and the others with the payload of the scenario. *)
Definition first_fails (position : nat) : CycleEnv :=
  match position with
  | O => quiet malformed_payload
  | S _ => quiet scenario_payload
  end.

Definition two_symbols : DataPipeline :=
  {| symbols := ["NIFTY"; "BANKNIFTY"]; running := true;
     db_service := empty_collection; total_cycles := 0;
     successful_cycles := 0; failed_cycles := 0;
     last_successful_fetch := Some 1000%Z;
     stats := {| total_calls_inserted := 0; total_puts_inserted := 0;
                 total_calls_skipped := 0; total_puts_skipped := 0 |} |}.

(** A pipeline for one symbol whose database server cannot be reached. *)
Definition out_of_reach : DataPipeline :=
  {| symbols := ["NIFTY"]; running := true;
     db_service := unreachable_collection; total_cycles := 0;
     successful_cycles := 0; failed_cycles := 0;
     last_successful_fetch := Some 1000%Z;
     stats := stats two_symbols |}.

End Examples.

(** ** database_service.py: connection, filtered queries, statistics *)

Module DatabaseQueries.

(** [_connect]: the client is built, then the server is pinged at most
    three times; [pings k] is the exception of ping [k], if it raises. The
    second component counts the [time.sleep(2)] between attempts. *)
Fixpoint ping_loop (pings : nat -> option exn) (max_retries : nat)
    (attempt remaining : nat) (sleeps : nat) : result unit * nat :=
  match remaining with
  | O => (Ok tt, sleeps)
  | S remaining' =>
      match pings attempt with
      | None => (Ok tt, sleeps)
      | Some e =>
          if (attempt =? max_retries - 1)%nat then (Raised e, sleeps)
          else ping_loop pings max_retries (S attempt) remaining' (S sleeps)
      end
  end.

Definition _connect (pings : nat -> option exn) : result unit * nat :=
  let max_retries := 3 in
  ping_loop pings max_retries 0 max_retries 0.

(** [health_check] *)
Definition health_check (ping : option exn) : bool :=
  match ping with
  | None => true
  | Some _ => false
  end.

(** [OptionChainFilter], after the validation of pydantic. *)
Record OptionChainFilter : Type := {
  symbol : option string;
  option_type : option OptionType;
  strike_price_min : option Q;
  strike_price_max : option Q;
  expiry_date : option string;
  limit : Z;
  offset : Z
}.

(** The constraints of the model on its fields: [limit <= 1000] and
    [offset >= 0]. *)
Definition valid_filter (f : OptionChainFilter) : bool :=
  (limit f <=? 1000)%Z && (0 <=? offset f)%Z.

(** One entry of the query document. *)
Inductive Condition : Type :=
| SymbolIs (s : string)
| TypeIs (t : string)
| StrikePrice (gte lte : option Q)
| ExpiryDateIs (s : string).

Definition nonempty (s : option string) : bool :=
  match s with
  | Some s => negb (String.eqb s EmptyString)
  | None => false
  end.

(** The query that [get_filtered_data] builds: a field enters it when the
    parameter is truthy (a string that is not empty, an option type) or,
    for the two strike bounds, when it is not [None]. *)
Definition build_query (f : OptionChainFilter) : list Condition :=
  ((match symbol f with
    | Some s => if nonempty (Some s) then [SymbolIs s] else []
    | None => []
    end)
   ++ (match option_type f with
       | Some t => [TypeIs (value t)]
       | None => []
       end)
   ++ (match strike_price_min f, strike_price_max f with
       | None, None => []
       | lo, hi => [StrikePrice lo hi]
       end)
   ++ (match expiry_date f with
       | Some s => if nonempty (Some s) then [ExpiryDateIs s] else []
       | None => []
       end))%list.

Definition holds (c : Condition) (d : OptionChainEntry) : bool :=
  match c with
  | SymbolIs s => String.eqb (Models.symbol d) s
  | TypeIs t => String.eqb (value (Models.type d)) t
  | StrikePrice gte lte =>
      (match gte with
       | Some lo => Qle_bool lo (strike_price d)
       | None => true
       end)
      && (match lte with
          | Some hi => Qle_bool (strike_price d) hi
          | None => true
          end)
  | ExpiryDateIs s => String.eqb (Models.expiry_date d) s
  end.

(** [collection.find(query)] *)
Definition find_query (docs : list OptionChainEntry) (query : list Condition)
  : list OptionChainEntry :=
  filter (fun d => forallb (fun c => holds c d) query) docs.

(** [.sort("fetched_at", -1)]: latest first; documents of equal time keep
    the order they had. *)
Fixpoint insert_by_time (d : OptionChainEntry) (l : list OptionChainEntry)
  : list OptionChainEntry :=
  match l with
  | [] => [d]
  | x :: rest =>
      if (fetched_at x <=? fetched_at d)%Z then d :: l
      else x :: insert_by_time d rest
  end.

Definition sort_latest_first (l : list OptionChainEntry)
  : list OptionChainEntry :=
  fold_right insert_by_time [] l.

(** [get_filtered_data]: the driver refuses a negative [skip] before
    anything is sent to the server. *)
Definition get_filtered_data (c : Collection) (filter_params : OptionChainFilter)
  : result (list OptionChainEntry) :=
  let query := build_query filter_params in
  if (offset filter_params <? 0)%Z then
    Raised (ValueError "skip must be >= 0")
  else
    match server_error c with
    | Some e => Raised e
    | None =>
        Ok (cursor_limit (limit filter_params)
              (skipn (Z.to_nat (offset filter_params))
                 (sort_latest_first (find_query (documents c) query))))
    end.

(** The stage [$group] of an aggregation with [{"$sum": 1}]: one counter
    per value of the key, in the order of first occurrence. *)
Fixpoint group_count (keys : list string) (groups : list (string * Z))
  : list (string * Z) :=
  match keys with
  | [] => groups
  | k :: rest => group_count rest (dict_set groups k (get_or groups k 0%Z + 1)%Z)
  end.

(** The stage [{"$sort": {"count": -1}}]. *)
Fixpoint insert_by_count (g : string * Z) (l : list (string * Z))
  : list (string * Z) :=
  match l with
  | [] => [g]
  | x :: rest =>
      if (snd x <=? snd g)%Z then g :: l else x :: insert_by_count g rest
  end.

Definition sort_by_count (l : list (string * Z)) : list (string * Z) :=
  fold_right insert_by_count [] l.

(** [find_one({}, sort=[("fetched_at", -1)])] *)
Fixpoint find_latest_any (docs : list OptionChainEntry)
    (best : option OptionChainEntry) : option OptionChainEntry :=
  match docs with
  | [] => best
  | d :: rest =>
      match best with
      | None => find_latest_any rest (Some d)
      | Some b =>
          if (fetched_at b <? fetched_at d)%Z
          then find_latest_any rest (Some d)
          else find_latest_any rest best
      end
  end.

Record Statistics : Type := {
  total_records : Z;
  records_by_symbol : list (string * Z);
  records_by_type : list (string * Z);
  latest_fetch_time : option Z;
  data_freshness_seconds : option Z
}.

(** [get_statistics]; [seconds_since t] is what
    [(datetime.now(timezone.utc) - t).total_seconds()] comes to for the
    stored time stamp [t]: the subtraction of Python raises [TypeError]
    when one of the two datetimes carries a time zone and the other does
    not. *)
Definition get_statistics (c : Collection) (seconds_since : Z -> result Z)
  : result Statistics :=
  match server_error c with
  | Some e => Raised e
  | None =>
      let total_records := len (documents c) in
      let symbol_stats :=
        sort_by_count (group_count (map Models.symbol (documents c)) []) in
      let type_stats :=
        group_count (map (fun d => value (Models.type d)) (documents c)) [] in
      let latest_fetch :=
        match find_latest_any (documents c) None with
        | Some latest_doc => Some (fetched_at latest_doc)
        | None => None
        end in
      match latest_fetch with
      | Some t =>
          match seconds_since t with
          | Raised e => Raised e
          | Ok freshness =>
              Ok {| total_records := total_records;
                    records_by_symbol := symbol_stats;
                    records_by_type := type_stats;
                    latest_fetch_time := latest_fetch;
                    data_freshness_seconds := Some freshness |}
          end
      | None =>
          Ok {| total_records := total_records;
                records_by_symbol := symbol_stats;
                records_by_type := type_stats;
                latest_fetch_time := latest_fetch;
                data_freshness_seconds := None |}
      end
  end.

End DatabaseQueries.

(** ** data_pipeline.py: construction and status *)

Module PipelineStatus.

(** [DataPipeline.__init__] followed by [initialize]: [symbols or
    ["NIFTY"]], the counters at zero, the database service connected. *)
Definition new_DataPipeline (db : Collection) (symbols : option (list string))
  : DataPipeline :=
  {| Pipeline.symbols :=
       match symbols with
       | Some (s :: rest) => s :: rest
       | Some [] | None => ["NIFTY"]
       end;
     running := false;
     db_service := db;
     total_cycles := 0;
     successful_cycles := 0;
     failed_cycles := 0;
     last_successful_fetch := None;
     stats := {| total_calls_inserted := 0; total_puts_inserted := 0;
                 total_calls_skipped := 0; total_puts_skipped := 0 |} |}.

Record Status : Type := {
  status_running : bool;
  status_total_cycles : Z;
  status_successful_cycles : Z;
  status_failed_cycles : Z;
  success_rate : Q;
  status_last_successful_fetch : option Z;
  status_symbols : list string;
  statistics : Statistics
}.

(** [get_status]; the rate is [successful / total * 100] in true
    division. *)
Definition get_status (self : DataPipeline) : Status :=
  {| status_running := running self;
     status_total_cycles := total_cycles self;
     status_successful_cycles := successful_cycles self;
     status_failed_cycles := failed_cycles self;
     success_rate :=
       if (0 <? total_cycles self)%Z
       then (inject_Z (successful_cycles self) / inject_Z (total_cycles self)
             * 100)%Q
       else 0%Q;
     status_last_successful_fetch := last_successful_fetch self;
     status_symbols := symbols self;
     statistics := stats self |}.

End PipelineStatus.

(** ** nse_backend_app.py: the endpoint of the latest option chain *)

Module BackendApp.

Inductive Outcome (A : Type) : Type :=
| Returned (body : A)
| HTTPException (status_code : nat) (detail : string).

Arguments Returned {A} body.
Arguments HTTPException {A} status_code detail.

Record OptionChainResponse : Type := {
  symbol : string;
  underlying_value : option Q;
  timestamp : Z;
  total_calls : Z;
  total_puts : Z;
  calls : list OptionChainEntry;
  puts : list OptionChainEntry
}.

(** [get_db_service]: the dependency of the endpoints. *)
Definition get_db_service (db_service : option Collection)
  : Outcome Collection :=
  match db_service with
  | Some db => Returned db
  | None => HTTPException 503 "Database service not available"
  end.

Section WithUpper.
(** [str.upper], which Python provides. *)
Variable upper : string -> string.

(** The body of [get_option_chain], the query parameter [limit] having
    passed the validation of the framework; [now] is the reading of the
    clock that stands in for a missing time stamp. *)
Definition get_option_chain (db : Collection) (symbol : string) (limit : Z)
    (now : Z) : Outcome OptionChainResponse :=
  let symbol := upper symbol in
  match get_latest_option_data db symbol limit with
  | Raised e =>
      HTTPException 500 ("Failed to get option chain: " ++ exn_msg e)
  | Ok (calls, puts) =>
      match calls, puts with
      | [], [] => HTTPException 404 ("No data found for symbol " ++ symbol)
      | _, _ =>
          let first :=
            match calls with
            | c :: _ => Some c
            | [] => match puts with
                    | p :: _ => Some p
                    | [] => None
                    end
            end in
          Returned
            {| symbol := symbol;
               underlying_value :=
                 match first with
                 | Some d => Models.underlying_value d
                 | None => None
                 end;
               timestamp :=
                 match first with
                 | Some d => fetched_at d
                 | None => now
                 end;
               total_calls := len calls;
               total_puts := len puts;
               calls := calls;
               puts := puts |}
      end
  end.

End WithUpper.

End BackendApp.

(** ** nse_option_chain_pipeline.py: the storage on the mock collection *)

Module MockStorage.

(** [MockCollection]: the list [data]. *)
Definition MockCollection : Type := list CsvPipeline.Document.

(** [insert_many] of the mock: [data.extend(documents)], and a result
    with one identifier per document. *)
Definition insert_many (data : MockCollection)
    (documents : list CsvPipeline.Document) : list nat * MockCollection :=
  (seq 0 (List.length documents), (data ++ documents)%list).

(** [_bulk_insert_with_dedup] of [MongoDBStorage], on the mock. *)
Definition _bulk_insert_with_dedup (data : MockCollection)
    (documents : list CsvPipeline.Document) (option_type : string)
  : BulkStats * MockCollection :=
  match documents with
  | [] => ({| inserted := 0; skipped := 0 |}, data)
  | _ =>
      let (inserted_ids, data') := insert_many data documents in
      ({| inserted := len inserted_ids; skipped := 0 |}, data')
  end.

Record Stats : Type := {
  calls_inserted : Z;
  puts_inserted : Z;
  calls_skipped : Z;
  puts_skipped : Z
}.

(** [store_option_data] of [MongoDBStorage], on the mock. *)
Definition store_option_data (data : MockCollection)
    (call_docs put_docs : list CsvPipeline.Document) : Stats * MockCollection :=
  let (call_stats, data1) :=
    match call_docs with
    | [] => ({| inserted := 0; skipped := 0 |}, data)
    | _ => _bulk_insert_with_dedup data call_docs "CALL"
    end in
  let (put_stats, data2) :=
    match put_docs with
    | [] => ({| inserted := 0; skipped := 0 |}, data1)
    | _ => _bulk_insert_with_dedup data1 put_docs "PUT"
    end in
  ({| calls_inserted := inserted call_stats;
      puts_inserted := inserted put_stats;
      calls_skipped := skipped call_stats;
      puts_skipped := skipped put_stats |}, data2).

(** [count_documents] of the mock: the filter arrives as a positional
    argument, so that [kwargs.get("type", "CALL")] is always ["CALL"]. *)
Definition count_documents (data : MockCollection) : Z :=
  len (filter (fun d => match assoc "type" d with
                        | Some (CsvPipeline.Str t) => String.eqb t "CALL"
                        | _ => false
                        end) data).

(** [get_latest_data_count] on the mock: [find_one] is the last document
    of [data]; the [except] branch answers zeros when that document has no
    [fetched_at]. *)
Definition get_latest_data_count (data : MockCollection) (symbol : string)
  : Z * Z :=
  match rev data with
  | [] => (0%Z, 0%Z)
  | latest_doc :: _ =>
      match assoc "fetched_at" latest_doc with
      | None => (0%Z, 0%Z)
      | Some latest_time => (count_documents data, count_documents data)
      end
  end.

End MockStorage.

(** ** More vocabulary and inputs *)

Module SpecMore.

(** The warning of the [except] branch of attempt [attempt] of
    [fetch_option_chain]. *)
Definition attempt_failed (attempt : nat) (symbol : string) (e : exn)
  : Level * string :=
  (WARNING, "Attempt " ++ decimal (attempt + 1) ++ " failed for " ++ symbol
            ++ ": " ++ exn_msg e).

(** The number of the warnings that [count] attempts, from attempt
    [first] on, log before their [except] branch. *)
Definition warnings_before_except (responses : nat -> Response)
    (first count : nat) : nat :=
  list_sum (map (fun j => List.length (attempt_warnings j (responses j)))
              (seq first count)).

Definition is_dict (v : pyval) : bool :=
  match v with
  | PDict _ => true
  | _ => false
  end.

(** The same entry with another time stamp. *)
Definition restamp (t : Z) (e : OptionChainEntry) : OptionChainEntry :=
  {| Models.symbol := Models.symbol e; type := type e;
     strike_price := strike_price e; expiry_date := expiry_date e;
     identifier := identifier e; fetched_at := t;
     open_interest := open_interest e; change_in_oi := change_in_oi e;
     pchange_in_oi := pchange_in_oi e; last_price := last_price e;
     change := change e; pchange := pchange e;
     total_traded_volume := total_traded_volume e;
     implied_volatility := implied_volatility e; bid_qty := bid_qty e;
     bid_price := bid_price e; ask_price := ask_price e;
     ask_qty := ask_qty e; underlying_value := Models.underlying_value e |}.

(** The row is an object with a truthy strike that carries the side. *)
Definition has_side (key : string) (row : pyval) : bool :=
  match row with
  | PDict kv =>
      truthy (get_or kv "strikePrice" PNone)
      && match assoc key kv with
         | Some _ => true
         | None => false
         end
  | _ => false
  end.

(** The sum of the counters of a grouping. *)
Definition total_count (groups : list (string * Z)) : Z :=
  fold_right (fun g acc => (snd g + acc)%Z) 0%Z groups.

(** The number of the keys equal to [k]. *)
Definition occurrences (k : string) (keys : list string) : Z :=
  len (filter (String.eqb k) keys).

(** Latest first. *)
Definition later_or_equal (a b : OptionChainEntry) : Prop :=
  (fetched_at b <= fetched_at a)%Z.

(** The counters of a pipeline add up. *)
Definition counters_consistent (self : DataPipeline) : Prop :=
  (0 <= successful_cycles self)%Z /\ (0 <= failed_cycles self)%Z
  /\ (successful_cycles self + failed_cycles self = total_cycles self)%Z.

(** The number of the documents that satisfy a test. *)
Definition count_if (test : OptionChainEntry -> bool)
    (docs : list OptionChainEntry) : Z :=
  len (filter test docs).

(** ASCII upper case, for inputs of ASCII letters. *)
Definition upper_ascii (c : ascii) : ascii :=
  let n := nat_of_ascii c in
  if ((97 <=? n)%nat && (n <=? 122)%nat)%bool then ascii_of_nat (n - 32) else c.

Fixpoint upper (s : string) : string :=
  match s with
  | EmptyString => EmptyString
  | String c rest => String (upper_ascii c) (upper rest)
  end.

(** Every call of [run_single_cycle] in the tick returned a success. *)
Definition all_succeeded (outcomes : list (result CycleResult)) : bool :=
  forallb (fun o => match o with
                    | Ok r => success r
                    | Raised _ => false
                    end) outcomes.

(** The sum of a counter of the store over the results of a tick. *)
Definition tally (counter : StorageStats -> Z)
    (outcomes : list (result CycleResult)) : Z :=
  fold_right (fun o acc =>
                match o with
                | Ok r => match storage r with
                          | Some s => (counter s + acc)%Z
                          | None => acc
                          end
                | Raised _ => acc
                end) 0%Z outcomes.

(** The sum of the records that the results of a tick report for a
    side. *)
Definition processed (side : CycleResult -> option Z)
    (outcomes : list (result CycleResult)) : Z :=
  fold_right (fun o acc =>
                match o with
                | Ok r => match side r with
                          | Some n => (n + acc)%Z
                          | None => acc
                          end
                | Raised _ => acc
                end) 0%Z outcomes.

(** A document of the CSV parser carries its identity: the symbol, the
    side and the time stamp of the run, the strike of one of the rows, and
    something more than these four fields. *)
Definition carries_identity (symbol option_type : string) (fetched_at : Z)
    (rows : list CsvPipeline.Row) (doc : CsvPipeline.Document) : Prop :=
  assoc "symbol" doc = Some (CsvPipeline.Str symbol)
  /\ assoc "type" doc = Some (CsvPipeline.Str option_type)
  /\ assoc "fetched_at" doc = Some (CsvPipeline.Time fetched_at)
  /\ (exists row strike,
         In row rows /\ assoc "STRIKE" row = Some strike
         /\ assoc "strike_price" doc = Some strike)
  /\ 4 < List.length doc.

End SpecMore.

Export SpecMore.

Module ExamplesMore.

(** A row of the frame with an open interest on both sides, the one of
    the call written with a thousands separator. *)
Definition two_sided_row : CsvPipeline.Row :=
  [("OI", CsvPipeline.Str "1,234"); ("STRIKE", CsvPipeline.Num 25000%Q);
   ("OI.1", CsvPipeline.Num 88%Q)].

End ExamplesMore.

(** * Properties *)

(** ** The fetcher *)

Lemma fetch_loop_exhausted (responses : nat -> Response) (symbol : string) :
  forall remaining attempt log,
    attempt + remaining = 3 ->
    0 < remaining ->
    (forall k, attempt <= k < 3 ->
               exists e, check_response (responses k) = Raised e) ->
    exists log',
      fetch_loop responses symbol attempt remaining log
      = (Ok (fst (_get_fallback_data symbol)),
         emit log' WARNING ("Using fallback data for " ++ symbol)).
Proof.
  induction remaining as [|remaining IH]; intros attempt log Hsum Hpos Hfail.
  - lia.
  - destruct (Hfail attempt ltac:(lia)) as [e He].
    cbn [fetch_loop]. rewrite He.
    destruct (Nat.eqb_spec attempt 2) as [->|Hne].
    + cbn. eexists. reflexivity.
    + apply IH; [lia | lia |].
      intros k Hk. apply Hfail. lia.
Qed.

Lemma fetch_csv_loop_exhausted (MAX_RETRIES : nat)
    (attempts : nat -> result string) (local_file : option string) :
  forall remaining attempt,
    attempt + remaining = MAX_RETRIES ->
    0 < remaining ->
    (forall k, attempt <= k < MAX_RETRIES -> exists e, attempts k = Raised e) ->
    CsvPipeline.fetch_csv_loop MAX_RETRIES attempts local_file attempt remaining
    = Ok (CsvPipeline._get_fallback_csv_data local_file).
Proof.
  induction remaining as [|remaining IH]; intros attempt Hsum Hpos Hfail.
  - lia.
  - destruct (Hfail attempt ltac:(lia)) as [e He].
    cbn [CsvPipeline.fetch_csv_loop]. rewrite He.
    destruct (Nat.eqb_spec attempt (MAX_RETRIES - 1)) as [Heq|Hne].
    + reflexivity.
    + apply IH; [lia | lia |].
      intros k Hk. apply Hfail. lia.
Qed.

(** C2, as the code has it: when each of the three attempts of
    [fetch_option_chain] fails, the call returns the static fallback
    payload as an ordinary result, after a warning in the log; it raises
    nothing, and it has no configuration flag among its inputs. The CSV
    fetcher does the same after [MAX_RETRIES] failed attempts. *)
Theorem C2_exhausted_retries_return_fallback :
  forall (responses : nat -> Response) (symbol : string)
         (MAX_RETRIES : nat) (attempts : nat -> result string)
         (local_file : option string),
    (forall k, k < 3 -> exists e, check_response (responses k) = Raised e) ->
    0 < MAX_RETRIES ->
    (forall k, k < MAX_RETRIES -> exists e, attempts k = Raised e) ->
    fst (fetch_option_chain responses symbol)
      = Ok (fst (_get_fallback_data symbol))
    /\ In (WARNING, "Using fallback data for " ++ symbol)
          (snd (fetch_option_chain responses symbol))
    /\ CsvPipeline.fetch_option_chain_csv MAX_RETRIES attempts local_file
       = Ok (CsvPipeline._get_fallback_csv_data local_file).
Proof.
  intros responses symbol MAX_RETRIES attempts local_file Hfail Hpos Hcsv.
  destruct (fetch_loop_exhausted responses symbol 3 0 [] eq_refl
              ltac:(lia)) as [log' Hrun].
  { intros k Hk. apply Hfail. lia. }
  unfold fetch_option_chain. rewrite Hrun. cbn [fst snd].
  repeat split.
  - unfold emit. apply in_or_app. right. left. reflexivity.
  - apply fetch_csv_loop_exhausted; [lia | lia |].
    intros k Hk. apply Hcsv. lia.
Qed.

(** Three HTML error pages in a row, and three empty CSV answers with no
    local file. *)
Lemma C2_exhausted_retries_return_fallback_witness :
  fst (fetch_option_chain Examples.always_html "NIFTY")
    = Ok (fst (_get_fallback_data "NIFTY"))
  /\ In (WARNING, "Using fallback data for " ++ "NIFTY")
        (snd (fetch_option_chain Examples.always_html "NIFTY"))
  /\ CsvPipeline.fetch_option_chain_csv 3
       (fun _ => Raised (ValueError "Empty response received")) None
     = Ok (CsvPipeline._get_fallback_csv_data None).
Proof.
  apply (C2_exhausted_retries_return_fallback Examples.always_html "NIFTY" 3
           (fun _ => Raised (ValueError "Empty response received")) None).
  - intros k _. eexists. reflexivity.
  - lia.
  - intros k _. eexists. reflexivity.
Defined.

(** C2, as the specification states it, fails: with every attempt answered
    by an HTML error page the fetcher raises no error at all and hands the
    fallback payload to its caller. *)
Lemma C2_counterexample :
  (forall e, fst (fetch_option_chain Examples.always_html "NIFTY") <> Raised e)
  /\ fst (fetch_option_chain Examples.always_html "NIFTY")
     = Ok (fst (_get_fallback_data "NIFTY")).
Proof.
  split.
  - intros e H. vm_compute in H. discriminate H.
  - vm_compute. reflexivity.
Qed.

(** ** The JSON parser *)

(** C9: the end-to-end scenario. The payload with the single row
    (strikePrice 25000, expiryDate 30-Jan-2025, CE.lastPrice 125.75,
    PE.lastPrice 75.50) parses for NIFTY into exactly one CALL record and
    one PUT record, with these last prices, the same [fetched_at] and the
    identifiers NIFTY_CE_25000_30-Jan-2025 and NIFTY_PE_25000_30-Jan-2025. *)
Theorem C9_end_to_end_scenario :
  forall (RT : Runtime) (now : Z),
  exists call put,
    parse_option_chain Examples.scenario_payload "NIFTY" now
      = Ok ([call], [put])
    /\ type call = CALL /\ type put = PUT
    /\ last_price call = Some 125.75%Q
    /\ last_price put = Some 75.50%Q
    /\ fetched_at call = now /\ fetched_at put = now
    /\ identifier call = "NIFTY_CE_25000_30-Jan-2025"
    /\ identifier put = "NIFTY_PE_25000_30-Jan-2025"
    /\ symbol call = "NIFTY" /\ symbol put = "NIFTY"
    /\ strike_price call = 25000%Q /\ strike_price put = 25000%Q
    /\ expiry_date call = "30-Jan-2025" /\ expiry_date put = "30-Jan-2025".
Proof.
  intros RT now. eexists. eexists.
  split; [reflexivity|].
  cbn. repeat split; reflexivity.
Qed.

Section ParserFacts.
Context {RT : Runtime}.

Lemma assoc_dict_set {V : Type} (m : list (string * V)) (k k' : string) (v : V) :
  assoc k (dict_set m k' v) = if String.eqb k k' then Some v else assoc k m.
Proof.
  induction m as [|[k0 v0] m IH]; cbn.
  - reflexivity.
  - destruct (String.eqb_spec k' k0) as [->|Hne]; cbn.
    + destruct (String.eqb_spec k k0); reflexivity.
    + destruct (String.eqb_spec k k0) as [->|Hne'].
      * destruct (String.eqb_spec k0 k'); [congruence | reflexivity].
      * exact IH.
Qed.

Lemma map_fields_dict (kv : list (string * pyval)) :
  forall (fs : list MarketField) (m : list (string * pyval)),
    map_fields (PDict kv) (map (fun f => (nse_name f, field_name f)) fs) m
    = Ok (fold_left (fill kv) fs m).
Proof.
  induction fs as [|f fs IH]; intros m; cbn [map map_fields fold_left].
  - reflexivity.
  - unfold py_get, bind, fill, get_or, kept.
    destruct (assoc (nse_name f) kv) as [v|]; cbn [is_none eq_str negb andb].
    + destruct (negb (is_none v) && negb (eq_str v "") && negb (eq_str v "-"));
        apply IH.
    + apply IH.
Qed.

Lemma map_fields_not_dict (v : pyval) (fs : list (string * string))
    (m : list (string * pyval)) :
  (forall kv, v <> PDict kv) -> fs <> [] -> exists e, map_fields v fs m = Raised e.
Proof.
  intros Hv Hfs. destruct fs as [|[a b] fs]; [congruence|].
  cbn [map_fields]. destruct v; cbn; try (eexists; reflexivity).
  exfalso. eapply Hv. reflexivity.
Qed.

Lemma field_name_inj (f g : MarketField) : field_name f = field_name g -> f = g.
Proof. destruct f, g; cbn; intros H; try reflexivity; discriminate H. Qed.

Lemma fold_fill_other (kv : list (string * pyval)) (f : MarketField) :
  forall (fs : list MarketField) (m : list (string * pyval)),
    ~ In f fs ->
    assoc (field_name f) (fold_left (fill kv) fs m) = assoc (field_name f) m.
Proof.
  induction fs as [|g fs IH]; intros m Hnot; cbn [fold_left].
  - reflexivity.
  - rewrite IH by (intros H; apply Hnot; right; exact H).
    unfold fill. destruct (kept _); [|reflexivity].
    rewrite assoc_dict_set.
    destruct (String.eqb_spec (field_name f) (field_name g)) as [Heq|Hne];
      [|reflexivity].
    exfalso. apply Hnot. left. symmetry. apply field_name_inj. exact Heq.
Qed.

Lemma fold_fill_here (kv : list (string * pyval)) (f : MarketField) :
  forall (fs : list MarketField) (m : list (string * pyval)),
    NoDup fs -> In f fs ->
    assoc (field_name f) (fold_left (fill kv) fs m)
    = if kept (get_or kv (nse_name f) PNone)
      then Some (get_or kv (nse_name f) PNone)
      else assoc (field_name f) m.
Proof.
  induction fs as [|g fs IH]; intros m Hnd Hin; [destruct Hin|].
  inversion Hnd as [|? ? Hnotin Hnd']; subst.
  cbn [fold_left]. destruct Hin as [->|Hin].
  - rewrite fold_fill_other by exact Hnotin.
    unfold fill. destruct (kept _); [|reflexivity].
    rewrite assoc_dict_set, String.eqb_refl. reflexivity.
  - rewrite IH by assumption.
    destruct (kept (get_or kv (nse_name f) PNone)); [reflexivity|].
    unfold fill. destruct (kept (get_or kv (nse_name g) PNone)); [|reflexivity].
    rewrite assoc_dict_set.
    destruct (String.eqb_spec (field_name f) (field_name g)) as [Heq|Hne];
      [|reflexivity].
    apply field_name_inj in Heq. subst g. contradiction.
Qed.

Lemma all_fields_NoDup : NoDup all_fields.
Proof.
  unfold all_fields.
  repeat (constructor; [cbn; intuition discriminate|]). constructor.
Qed.

Lemma all_fields_complete (f : MarketField) : In f all_fields.
Proof. destruct f; cbn; tauto. Qed.

(** What the keyword arguments built from a side hold for a field. *)
Lemma mapped_data_lookup (kv : list (string * pyval)) (f : MarketField) :
  assoc (field_name f) (fold_left (fill kv) all_fields [])
  = if kept (get_or kv (nse_name f) PNone)
    then Some (get_or kv (nse_name f) PNone)
    else None.
Proof.
  rewrite fold_fill_here; [reflexivity | apply all_fields_NoDup
                          | apply all_fields_complete].
Qed.

Lemma validator_of_eq (f : MarketField) (v : pyval) :
  validator_of f v
  = if is_none v || eq_str v "" || eq_str v "-" then Ok None
    else if float_overflows v then
      Raised (OverflowError "int too large to convert to float")
    else Ok (py_float v).
Proof. destruct f; reflexivity. Qed.

(** A float passes the validator as it is. *)
Lemma validate_prices_float (q : Q) : validate_prices (PFloat q) = Ok (Some q).
Proof. reflexivity. Qed.

(** What [new_OptionChainEntry] needs in order to return, and what it
    returns then. *)
Lemma new_OptionChainEntry_inv (symbol : string) (type : OptionType)
    (strike : Q) (expiry_date : pyval) (identifier : string) (now : Z)
    (underlying : pyval) (mapped_data : list (string * pyval))
    (e : OptionChainEntry) :
  new_OptionChainEntry symbol type (PFloat strike) expiry_date identifier now
    underlying mapped_data = Some e ->
  Models.strike_price e = strike
  /\ str_field expiry_date = Some (Models.expiry_date e)
  /\ optional_float_field underlying = Some (underlying_value e)
  /\ Models.symbol e = symbol
  /\ Models.type e = type
  /\ fetched_at e = now
  /\ Models.identifier e = identifier
  /\ forall f, optional_field mapped_data f = Ok (get_field e f).
Proof.
  unfold new_OptionChainEntry. rewrite validate_prices_float.
  destruct (str_field expiry_date) as [expiry|]; [|discriminate].
  destruct (optional_float_field underlying) as [u|]; [|discriminate].
  destruct (optional_field mapped_data Fopen_interest) eqn:H1; [|discriminate].
  destruct (optional_field mapped_data Fchange_in_oi) eqn:H2; [|discriminate].
  destruct (optional_field mapped_data Fpchange_in_oi) eqn:H3; [|discriminate].
  destruct (optional_field mapped_data Flast_price) eqn:H4; [|discriminate].
  destruct (optional_field mapped_data Fchange) eqn:H5; [|discriminate].
  destruct (optional_field mapped_data Fpchange) eqn:H6; [|discriminate].
  destruct (optional_field mapped_data Ftotal_traded_volume) eqn:H7;
    [|discriminate].
  destruct (optional_field mapped_data Fimplied_volatility) eqn:H8;
    [|discriminate].
  destruct (optional_field mapped_data Fbid_qty) eqn:H9; [|discriminate].
  destruct (optional_field mapped_data Fbid_price) eqn:H10; [|discriminate].
  destruct (optional_field mapped_data Fask_price) eqn:H11; [|discriminate].
  destruct (optional_field mapped_data Fask_qty) eqn:H12; [|discriminate].
  cbn [bind]. intros H. injection H as <-. cbn.
  repeat split; try reflexivity.
  intros f. destruct f; assumption.
Qed.


(** Inversion of [_create_option_entry]. *)
Lemma create_option_entry_inv (side : pyval) (symbol : string)
    (option_type : OptionType) (strike_price expiry_date underlying : pyval)
    (now : Z) (e : OptionChainEntry) :
  _create_option_entry side symbol option_type strike_price expiry_date
    underlying now = Some e ->
  exists kv,
    side = PDict kv
    /\ py_float strike_price = Some (Models.strike_price e)
    /\ str_field expiry_date = Some (Models.expiry_date e)
    /\ optional_float_field underlying = Some (underlying_value e)
    /\ Models.symbol e = symbol
    /\ type e = option_type
    /\ fetched_at e = now
    /\ identifier e
       = symbol ++ "_" ++ value option_type ++ "_" ++ py_str strike_price
                ++ "_" ++ py_str expiry_date
    /\ forall f, optional_field (fold_left (fill kv) all_fields []) f
                 = Ok (get_field e f).
Proof.
  unfold _create_option_entry, NSE_FIELD_MAPPING. intros H.
  destruct side as [| | | | | |kv]; try (cbn in H; discriminate H).
  exists kv. rewrite map_fields_dict in H.
  destruct (py_float strike_price) as [strike|]; [|discriminate H].
  apply new_OptionChainEntry_inv in H.
  destruct H as (Hstrike & Hexpiry & Hu & Hsym & Hty & Hnow & Hid & Hfields).
  rewrite Hstrike. repeat split; assumption.
Qed.

End ParserFacts.

Section ParseRecords.
Context {RT : Runtime}.

Lemma py_get_dict (kv : list (string * pyval)) (k : string) (d : pyval) :
  py_get (PDict kv) k d = Ok (get_or kv k d).
Proof. unfold py_get, get_or. destruct (assoc k kv); reflexivity. Qed.

Lemma parse_side_dict (kv : list (string * pyval)) (key symbol : string)
    (option_type : OptionType) (strike expiry underlying : pyval) (now : Z)
    (options : list OptionChainEntry) :
  parse_side (PDict kv) key symbol option_type strike expiry underlying now
    options
  = Ok match assoc key kv with
       | Some side =>
           match _create_option_entry side symbol option_type strike expiry
                   underlying now with
           | Some entry => (options ++ [entry])%list
           | None => options
           end
       | None => options
       end.
Proof.
  unfold parse_side, str_in, py_getitem, bind.
  destruct (assoc key kv) as [side|]; [|reflexivity].
  destruct (_create_option_entry _ _ _ _ _ _ _); reflexivity.
Qed.

Lemma emitted_from_cons (r : pyval) (rows : list pyval) (symbol : string)
    (option_type : OptionType) (underlying : pyval) (now : Z)
    (row : list (string * pyval)) (side : pyval) (e : OptionChainEntry) :
  emitted_from rows symbol option_type underlying now row side e ->
  emitted_from (r :: rows) symbol option_type underlying now row side e.
Proof.
  unfold emitted_from. intros (Hin & H). split; [right; exact Hin | exact H].
Qed.

(** Provenance: every record that the loop adds was built from one side of
    a row with a truthy strike. *)
Lemma parse_records_provenance (symbol : string) (underlying : pyval)
    (now : Z) :
  forall (rows : list pyval) (calls0 puts0 calls puts : list OptionChainEntry),
    parse_records rows symbol underlying now calls0 puts0 = Ok (calls, puts) ->
    exists new_calls new_puts,
      calls = (calls0 ++ new_calls)%list
      /\ puts = (puts0 ++ new_puts)%list
      /\ Forall (fun e => exists row side,
                     emitted_from rows symbol CALL underlying now row side e)
           new_calls
      /\ Forall (fun e => exists row side,
                     emitted_from rows symbol PUT underlying now row side e)
           new_puts.
Proof.
  induction rows as [|record rows IH]; intros calls0 puts0 calls puts H.
  - cbn in H. injection H as <- <-. exists [], [].
    rewrite !app_nil_r. repeat split; constructor.
  - cbn [parse_records] in H.
    destruct record as [| | | | | |kv]; try (cbn in H; discriminate H).
    rewrite !py_get_dict in H.
    destruct (truthy (get_or kv "strikePrice" PNone)) eqn:Htruthy;
      cbn [negb] in H.
    + rewrite !parse_side_dict in H.
      apply IH in H. destruct H as (nc & np & -> & -> & Hc & Hp).
      assert (Hweak : forall ty l,
                 Forall (fun e => exists row side,
                             emitted_from rows symbol ty underlying now
                               row side e) l ->
                 Forall (fun e => exists row side,
                             emitted_from (PDict kv :: rows) symbol ty
                               underlying now row side e) l).
      { intros ty l. apply Forall_impl. intros e (row & side & He).
        exists row, side. apply emitted_from_cons. exact He. }
      apply Hweak in Hc. apply Hweak in Hp.
      assert (Hside : forall ty side e,
                 assoc (value ty) kv = Some side ->
                 _create_option_entry side symbol ty
                   (get_or kv "strikePrice" PNone)
                   (get_or kv "expiryDate" (PStr "")) underlying now = Some e ->
                 exists row side',
                   emitted_from (PDict kv :: rows) symbol ty underlying now
                     row side' e).
      { intros ty side e Hs He. exists kv, side.
        repeat split; [left; reflexivity | exact Htruthy | exact Hs | exact He]. }
      change "CE" with (value CALL) in *. change "PE" with (value PUT) in *.
      destruct (assoc (value CALL) kv) as [ce|] eqn:Hce;
        destruct (assoc (value PUT) kv) as [pe|] eqn:Hpe.
      * destruct (_create_option_entry ce _ _ _ _ _ _) as [c|] eqn:Hc1;
          destruct (_create_option_entry pe _ _ _ _ _ _) as [p|] eqn:Hp1.
        -- exists (c :: nc), (p :: np). rewrite <- !app_assoc.
           repeat split; constructor; eauto.
        -- exists (c :: nc), np. rewrite <- !app_assoc.
           repeat split; try constructor; eauto.
        -- exists nc, (p :: np). rewrite <- !app_assoc.
           repeat split; try constructor; eauto.
        -- exists nc, np. repeat split; assumption.
      * destruct (_create_option_entry ce _ _ _ _ _ _) as [c|] eqn:Hc1.
        -- exists (c :: nc), np. rewrite <- !app_assoc.
           repeat split; try constructor; eauto.
        -- exists nc, np. repeat split; assumption.
      * destruct (_create_option_entry pe _ _ _ _ _ _) as [p|] eqn:Hp1.
        -- exists nc, (p :: np). rewrite <- !app_assoc.
           repeat split; try constructor; eauto.
        -- exists nc, np. repeat split; assumption.
      * exists nc, np. repeat split; assumption.
    + apply IH in H. destruct H as (nc & np & -> & -> & Hc & Hp).
      exists nc, np. repeat split; try reflexivity.
      * revert Hc. apply Forall_impl. intros e (row & side & He).
        exists row, side. apply emitted_from_cons. exact He.
      * revert Hp. apply Forall_impl. intros e (row & side & He).
        exists row, side. apply emitted_from_cons. exact He.
Qed.

(** The loop raises only on a row that is not a dict. *)
Lemma parse_records_total (symbol : string) (underlying : pyval) (now : Z) :
  forall (rows : list pyval) (calls0 puts0 : list OptionChainEntry),
    (forall r, In r rows -> exists kv, r = PDict kv) ->
    exists calls puts,
      parse_records rows symbol underlying now calls0 puts0 = Ok (calls, puts).
Proof.
  induction rows as [|record rows IH]; intros calls0 puts0 Hdict.
  - eexists. eexists. reflexivity.
  - destruct (Hdict record (or_introl eq_refl)) as [kv ->].
    cbn [parse_records]. rewrite !py_get_dict.
    assert (Hrest : forall r, In r rows -> exists kv', r = PDict kv')
      by (intros r Hr; apply Hdict; right; exact Hr).
    destruct (truthy (get_or kv "strikePrice" PNone)); cbn [negb];
      rewrite ?parse_side_dict; apply IH; exact Hrest.
Qed.


Lemma parse_option_chain_rows (raw : pyval) (symbol : string) (now : Z)
    (rows : list pyval) :
  rows_of raw = Ok rows ->
  exists underlying,
    underlying_of raw = Ok underlying
    /\ parse_option_chain raw symbol now
       = parse_records rows symbol underlying now [] [].
Proof.
  unfold rows_of, underlying_of, parse_option_chain, bind. intros H.
  destruct (py_get raw "records" (PDict [])) as [records|]; [|discriminate H].
  destruct (py_get records "data" (PList [])) as [data|]; [|discriminate H].
  destruct (py_get records "underlyingValue" PNone) as [u|]; [|discriminate H].
  exists u. rewrite H. split; reflexivity.
Qed.

End ParseRecords.

(** ** The CSV parser *)

Section CsvFacts.
Context {RT : Runtime}.
Import CsvPipeline.

Lemma dict_set_length_le {V : Type} (m : list (string * V)) (k : string) (v : V) :
  List.length m <= List.length (dict_set m k v).
Proof.
  induction m as [|[k0 v0] m IH]; cbn.
  - lia.
  - destruct (String.eqb k k0); cbn; lia.
Qed.

Lemma dict_set_keys {V : Type} (m : list (string * V)) (k k' : string) (v : V) :
  In k' (map fst (dict_set m k v)) <-> k' = k \/ In k' (map fst m).
Proof.
  induction m as [|[k0 v0] m IH]; cbn.
  - intuition.
  - destruct (String.eqb_spec k k0) as [->|Hne]; cbn.
    + intuition.
    + rewrite IH. intuition.
Qed.

Lemma add_mapped_fields_keys (row : Row) :
  forall (mapping : list (string * string)) (doc : Document) (k : string),
    In k (map fst doc) -> In k (map fst (add_mapped_fields row mapping doc)).
Proof.
  induction mapping as [|[c f] mapping IH]; intros doc k Hk; cbn.
  - exact Hk.
  - destruct (assoc c row) as [v|]; [|apply IH; exact Hk].
    destruct (populated v); apply IH; [|exact Hk].
    apply dict_set_keys. right. exact Hk.
Qed.

Lemma add_mapped_fields_populated (row : Row) :
  forall (mapping : list (string * string)) (doc : Document)
         (csv_col doc_field : string) (v : Value),
    In (csv_col, doc_field) mapping ->
    assoc csv_col row = Some v ->
    populated v = true ->
    In doc_field (map fst (add_mapped_fields row mapping doc)).
Proof.
  induction mapping as [|[c f] mapping IH];
    intros doc csv_col doc_field v Hin Hrow Hpop; [destruct Hin|].
  cbn. destruct Hin as [Heq|Hin].
  - injection Heq as -> ->. rewrite Hrow, Hpop.
    apply add_mapped_fields_keys. apply dict_set_keys. left. reflexivity.
  - destruct (assoc c row) as [v'|]; [destruct (populated v')|];
      eapply IH; eassumption.
Qed.

Lemma add_mapped_fields_unpopulated (row : Row) :
  forall (mapping : list (string * string)) (doc : Document),
    (exists csv_col doc_field v,
        In (csv_col, doc_field) mapping
        /\ assoc csv_col row = Some v /\ populated v = true)
    \/ add_mapped_fields row mapping doc = doc.
Proof.
  induction mapping as [|[c f] mapping IH]; intros doc.
  - right. reflexivity.
  - cbn [add_mapped_fields].
    destruct (assoc c row) as [v|] eqn:Hrow.
    + destruct (populated v) eqn:Hpop.
      * left. exists c, f, v. repeat split; [left; reflexivity | | ]; assumption.
      * destruct (IH doc) as [(c' & f' & v' & Hin & H)|Hsame].
        -- left. exists c', f', v'. split; [right; exact Hin | exact H].
        -- right. exact Hsame.
    + destruct (IH doc) as [(c' & f' & v' & Hin & H)|Hsame].
      * left. exists c', f', v'. split; [right; exact Hin | exact H].
      * right. exact Hsame.
Qed.

Lemma add_mapped_fields_other (row : Row) (doc_field : string) :
  forall (mapping : list (string * string)) (doc : Document),
    ~ In doc_field (map snd mapping) ->
    assoc doc_field (add_mapped_fields row mapping doc) = assoc doc_field doc.
Proof.
  induction mapping as [|[c f] mapping IH]; intros doc Hnot; cbn.
  - reflexivity.
  - assert (Hrest : ~ In doc_field (map snd mapping))
      by (intros H; apply Hnot; right; exact H).
    destruct (assoc c row) as [v|]; [|apply IH; exact Hrest].
    destruct (populated v); rewrite IH by exact Hrest; [|reflexivity].
    rewrite assoc_dict_set.
    destruct (String.eqb_spec doc_field f) as [->|Hne]; [|reflexivity].
    exfalso. apply Hnot. left. reflexivity.
Qed.

(** What the document holds under a mapped field. *)
Lemma add_mapped_fields_lookup (row : Row) :
  forall (mapping : list (string * string)) (doc : Document)
         (csv_col doc_field : string),
    NoDup (map snd mapping) ->
    In (csv_col, doc_field) mapping ->
    assoc doc_field (add_mapped_fields row mapping doc)
    = match assoc csv_col row with
      | Some v => if populated v then Some (convert v)
                  else assoc doc_field doc
      | None => assoc doc_field doc
      end.
Proof.
  induction mapping as [|[c f] mapping IH];
    intros doc csv_col doc_field Hnd Hin; [destruct Hin|].
  cbn in Hnd. inversion Hnd as [|? ? Hnotin Hnd']; subst.
  cbn [add_mapped_fields]. destruct Hin as [Heq|Hin].
  - injection Heq as -> ->.
    destruct (assoc csv_col row) as [v|];
      [destruct (populated v)|]; rewrite add_mapped_fields_other by exact Hnotin;
      try reflexivity.
    rewrite assoc_dict_set, String.eqb_refl. reflexivity.
  - assert (Hne : doc_field <> f).
    { intros ->. apply Hnotin.
      change f with (snd (csv_col, f)). apply in_map. exact Hin. }
    destruct (assoc c row) as [v|];
      [destruct (populated v)|]; rewrite (IH _ csv_col) by assumption;
      try reflexivity.
    rewrite assoc_dict_set.
    destruct (String.eqb_spec doc_field f); [contradiction | reflexivity].
Qed.

(** The guard [len(doc) > 4], for a mapping that writes none of the four
    identity fields. *)
Lemma create_option_document_guard (row : Row)
    (mapping : list (string * string)) (symbol option_type : string)
    (strike_price : Value) (now : Z) :
  (forall f, In f (map snd mapping) ->
             ~ In f ["symbol"; "type"; "strike_price"; "fetched_at"]) ->
  (exists doc, _create_option_document row mapping symbol option_type
                 strike_price now = Some doc)
  <-> exists csv_col doc_field v,
        In (csv_col, doc_field) mapping
        /\ assoc csv_col row = Some v /\ populated v = true.
Proof.
  intros Hfresh. unfold _create_option_document.
  fold (identity_doc symbol option_type strike_price now).
  set (doc0 := identity_doc symbol option_type strike_price now).
  split.
  - intros [doc H].
    destruct (add_mapped_fields_unpopulated row mapping doc0) as [Hex|Hsame];
      [exact Hex|].
    rewrite Hsame in H. cbn in H. discriminate H.
  - intros (c & f & v & Hin & Hrow & Hpop).
    pose proof (add_mapped_fields_populated row mapping doc0 c f v Hin Hrow Hpop)
      as Hkey.
    assert (Hf : ~ In f ["symbol"; "type"; "strike_price"; "fetched_at"]).
    { apply Hfresh. change f with (snd (c, f)). apply in_map. exact Hin. }
    assert (Hlen : 5 <= List.length (add_mapped_fields row mapping doc0)).
    { rewrite <- (length_map fst).
      change 5 with (List.length [f; "symbol"; "type"; "strike_price";
                                  "fetched_at"]).
      apply NoDup_incl_length.
      - constructor; [exact Hf|].
        repeat (constructor; [cbn; intuition discriminate|]). constructor.
      - intros k [<-|Hk]; [exact Hkey|].
        apply add_mapped_fields_keys. exact Hk. }
    destruct (Nat.ltb_spec 4 (List.length (add_mapped_fields row mapping doc0)));
      [eexists; reflexivity | lia].
Qed.

Lemma columns_fresh (mapping : list (string * string)) :
  mapping = call_columns \/ mapping = put_columns ->
  NoDup (map snd mapping)
  /\ forall f, In f (map snd mapping) ->
               ~ In f ["symbol"; "type"; "strike_price"; "fetched_at"].
Proof.
  intros [-> | ->]; (split;
    [ cbn; repeat (constructor; [cbn; intuition discriminate|]); constructor
    | cbn; intros f Hf Hid;
      repeat (destruct Hf as [<-|Hf];
              [cbn in Hid; intuition discriminate|]); exact Hf ]).
Qed.

Lemma create_option_document_identity (row : Row)
    (mapping : list (string * string)) (symbol option_type : string)
    (strike_price : Value) (now : Z) (doc : Document) :
  mapping = call_columns \/ mapping = put_columns ->
  _create_option_document row mapping symbol option_type strike_price now
  = Some doc ->
  assoc "symbol" doc = Some (Str symbol)
  /\ assoc "type" doc = Some (Str option_type)
  /\ assoc "strike_price" doc = Some strike_price
  /\ assoc "fetched_at" doc = Some (Time now)
  /\ 4 < List.length doc.
Proof.
  intros Hmapping. destruct (columns_fresh mapping Hmapping) as [_ Hfresh].
  unfold _create_option_document.
  match goal with
  | |- context [(4 <? ?n)%nat] => destruct (Nat.ltb_spec 4 n) as [Hlen|Hlen]
  end; [|discriminate].
  intros H. injection H as <-.
  assert (Hkeep : forall f,
             In f ["symbol"; "type"; "strike_price"; "fetched_at"] ->
             ~ In f (map snd mapping)).
  { intros f Hf Hin. exact (Hfresh f Hin Hf). }
  rewrite !add_mapped_fields_other by (apply Hkeep; cbn; tauto).
  repeat split; [reflexivity.. | exact Hlen].
Qed.

Lemma add_mapped_fields_keys_inv (row : Row) :
  forall (mapping : list (string * string)) (doc : Document) (k : string),
    In k (map fst (add_mapped_fields row mapping doc)) ->
    In k (map fst doc) \/ In k (map snd mapping).
Proof.
  induction mapping as [|[c f] mapping IH]; intros doc k Hk; cbn in *.
  - left. exact Hk.
  - destruct (assoc c row) as [v|].
    + destruct (populated v).
      * apply IH in Hk. destruct Hk as [Hk|Hk]; [|right; right; exact Hk].
        apply dict_set_keys in Hk. destruct Hk as [->|Hk];
          [right; left; reflexivity | left; exact Hk].
      * apply IH in Hk. destruct Hk as [Hk|Hk];
          [left; exact Hk | right; right; exact Hk].
    + apply IH in Hk. destruct Hk as [Hk|Hk];
        [left; exact Hk | right; right; exact Hk].
Qed.

Lemma create_option_document_fields (row : Row)
    (mapping : list (string * string)) (symbol option_type : string)
    (strike_price : Value) (now : Z) (doc : Document) :
  mapping = call_columns \/ mapping = put_columns ->
  _create_option_document row mapping symbol option_type strike_price now
  = Some doc ->
  forall k, In k (map fst doc) -> In k document_fields.
Proof.
  intros Hmapping. unfold _create_option_document.
  destruct (4 <? _)%nat; [|discriminate].
  intros H k Hk. injection H as <-.
  apply add_mapped_fields_keys_inv in Hk. unfold document_fields.
  destruct Hk as [Hk|Hk].
  - apply in_or_app. left. exact Hk.
  - apply in_or_app. right. apply in_or_app.
    destruct Hmapping as [-> | ->]; [left | right]; exact Hk.
Qed.

Lemma column_is_not_STRIKE (mapping : list (string * string))
    (c f : string) :
  mapping = call_columns \/ mapping = put_columns ->
  In (c, f) mapping -> c <> "STRIKE".
Proof.
  intros [-> | ->] Hin Heq; subst c; cbn in Hin;
    repeat (destruct Hin as [Hin|Hin]; [discriminate Hin|]); exact Hin.
Qed.

Lemma populated_side_dict_set (mapping : list (string * string)) (row : Row)
    (v : Value) :
  mapping = call_columns \/ mapping = put_columns ->
  populated_side mapping row ->
  populated_side mapping (dict_set row "STRIKE" v).
Proof.
  intros Hmapping (c & f & x & Hin & Hcell & Hpop).
  exists c, f, x. split; [exact Hin|]. split; [|exact Hpop].
  rewrite assoc_dict_set.
  destruct (String.eqb_spec c "STRIKE") as [Heq|_]; [|exact Hcell].
  exfalso. exact (column_is_not_STRIKE mapping c f Hmapping Hin Heq).
Qed.

(** The four steps of [parse_csv_to_documents] on the column STRIKE leave
    the rows in which a strike can be read, in their order. *)
Lemma strike_filter (to_numeric : string -> option Q) :
  forall df : list Row,
    (forall row, In row df -> assoc "STRIKE" row <> None) ->
    exists kept,
      dropna_STRIKE df = Ok kept
      /\ dropna_STRIKE (assign_STRIKE to_numeric (nonempty_STRIKE kept))
         = Ok (numeric_rows to_numeric df).
Proof.
  induction df as [|row df IH]; intros Hcol.
  - exists []. split; reflexivity.
  - destruct IH as (kept & Hdrop & Hrest);
      [intros r Hr; apply Hcol; right; exact Hr|].
    destruct (assoc "STRIKE" row) as [cell|] eqn:Hcell;
      [|exfalso; exact (Hcol row (or_introl eq_refl) Hcell)].
    cbn [dropna_STRIKE numeric_rows]. rewrite Hcell, Hdrop. cbn [bind].
    assert (Hstep : forall x,
               dropna_STRIKE
                 (dict_set row "STRIKE" x
                  :: assign_STRIKE to_numeric (nonempty_STRIKE kept))
               = Ok match x with
                    | NaN => numeric_rows to_numeric df
                    | _ => dict_set row "STRIKE" x
                           :: numeric_rows to_numeric df
                    end).
    { intros x. cbn [dropna_STRIKE].
      rewrite assoc_dict_set, String.eqb_refl, Hrest. reflexivity. }
    destruct cell as [|x|s|t].
    + exists kept. split; [reflexivity | exact Hrest].
    + exists (row :: kept). split; [reflexivity|].
      unfold nonempty_STRIKE, assign_STRIKE. cbn [filter map].
      rewrite Hcell. cbn [map]. rewrite Hcell.
      fold (nonempty_STRIKE kept).
      fold (assign_STRIKE to_numeric (nonempty_STRIKE kept)).
      cbn [numeric_STRIKE strike_number]. apply Hstep.
    + exists (row :: kept). split; [reflexivity|].
      unfold nonempty_STRIKE, assign_STRIKE. cbn [filter map].
      rewrite Hcell. cbn [strike_number].
      destruct (String.eqb s "") eqn:Hempty; cbn [negb map].
      * exact Hrest.
      * rewrite Hcell.
        fold (nonempty_STRIKE kept).
        fold (assign_STRIKE to_numeric (nonempty_STRIKE kept)).
        cbn [numeric_STRIKE]. rewrite Hstep.
        destruct (to_numeric (remove_char ","%char s)); reflexivity.
    + exists (row :: kept). split; [reflexivity|].
      unfold nonempty_STRIKE, assign_STRIKE. cbn [filter map].
      rewrite Hcell. cbn [map]. rewrite Hcell.
      fold (nonempty_STRIKE kept).
      fold (assign_STRIKE to_numeric (nonempty_STRIKE kept)).
      cbn [numeric_STRIKE strike_number]. apply Hstep.
Qed.

Lemma numeric_rows_In (to_numeric : string -> option Q) (row' : Row) :
  forall df : list Row,
    In row' (numeric_rows to_numeric df)
    <-> exists row cell x,
          In row df /\ assoc "STRIKE" row = Some cell
          /\ strike_number to_numeric cell = Some x
          /\ row' = dict_set row "STRIKE" (Num x).
Proof.
  induction df as [|row df IH]; cbn [numeric_rows].
  - split; [intros [] | intros (r & c & x & [] & _)].
  - split.
    + intros Hin.
      assert (Htail : In row' (numeric_rows to_numeric df) ->
                      exists r cell x,
                        In r (row :: df) /\ assoc "STRIKE" r = Some cell
                        /\ strike_number to_numeric cell = Some x
                        /\ row' = dict_set r "STRIKE" (Num x)).
      { intros H. apply IH in H. destruct H as (r & c & x & Hr & H).
        exists r, c, x. split; [right; exact Hr | exact H]. }
      destruct (assoc "STRIKE" row) as [cell|] eqn:Hcell; [|auto].
      destruct (strike_number to_numeric cell) as [x|] eqn:Hx; [|auto].
      destruct Hin as [<-|Hin]; [|auto].
      exists row, cell, x. repeat split; try assumption. left. reflexivity.
    + intros (r & c & x & [->|Hr] & Hcell & Hx & ->).
      * rewrite Hcell, Hx. left. reflexivity.
      * assert (Htail : In (dict_set r "STRIKE" (Num x))
                          (numeric_rows to_numeric df))
          by (apply IH; exists r, c, x; repeat split; assumption).
        destruct (assoc "STRIKE" row) as [cell|]; [|exact Htail].
        destruct (strike_number to_numeric cell); [right|]; exact Htail.
Qed.

Lemma numeric_rows_have_STRIKE (to_numeric : string -> option Q)
    (df : list Row) (row' : Row) :
  In row' (numeric_rows to_numeric df) -> assoc "STRIKE" row' <> None.
Proof.
  intros H. apply numeric_rows_In in H.
  destruct H as (r & c & x & _ & _ & _ & ->).
  rewrite assoc_dict_set, String.eqb_refl. discriminate.
Qed.

(** The loop of [_transform_to_documents] on rows that all hold a strike:
    it returns, and the documents it adds are those that
    [_create_option_document] gives for the rows. *)
Lemma transform_rows_docs (symbol : string) (now : Z) :
  forall (rows : list Row) (calls0 puts0 : list Document),
    (forall row, In row rows -> assoc "STRIKE" row <> None) ->
    exists calls puts,
      transform_rows rows symbol now calls0 puts0
      = Ok ((calls0 ++ calls)%list, (puts0 ++ puts)%list)
      /\ (forall doc,
             In doc calls
             <-> exists row strike,
                   In row rows /\ assoc "STRIKE" row = Some strike
                   /\ _create_option_document row call_columns symbol "CALL"
                        strike now = Some doc)
      /\ (forall doc,
             In doc puts
             <-> exists row strike,
                   In row rows /\ assoc "STRIKE" row = Some strike
                   /\ _create_option_document row put_columns symbol "PUT"
                        strike now = Some doc)
      /\ List.length calls <= List.length rows
      /\ List.length puts <= List.length rows.
Proof.
  induction rows as [|row rows IH]; intros calls0 puts0 Hcol.
  - exists [], []. cbn. rewrite !app_nil_r.
    split; [reflexivity|].
    split; [intros doc; split; [intros [] | intros (r & k & [] & _)]|].
    split; [intros doc; split; [intros [] | intros (r & k & [] & _)]|].
    split; lia.
  - destruct (assoc "STRIKE" row) as [strike|] eqn:Hstrike;
      [|exfalso; exact (Hcol row (or_introl eq_refl) Hstrike)].
    cbn [transform_rows]. rewrite Hstrike.
    assert (Hside : forall mapping ty (docs0 : list Document),
               exists new,
                 match _create_option_document row mapping symbol ty strike
                         now with
                 | Some doc => (docs0 ++ [doc])%list
                 | None => docs0
                 end = (docs0 ++ new)%list
                 /\ (forall doc,
                        In doc new
                        <-> _create_option_document row mapping symbol ty
                              strike now = Some doc)
                 /\ List.length new <= 1).
    { intros mapping ty docs0.
      destruct (_create_option_document row mapping symbol ty strike now)
        as [d|].
      - exists [d]. split; [reflexivity|]. split; [|cbn; lia].
        intros doc. split.
        + intros [<-|[]]. reflexivity.
        + intros H. injection H as <-. left. reflexivity.
      - exists []. rewrite app_nil_r. split; [reflexivity|].
        split; [|cbn; lia].
        intros doc. split; [intros [] | discriminate]. }
    destruct (Hside call_columns "CALL" calls0) as (nc & -> & Hnc & Hlc).
    destruct (Hside put_columns "PUT" puts0) as (np & -> & Hnp & Hlp).
    destruct (IH (calls0 ++ nc)%list (puts0 ++ np)%list)
      as (calls & puts & Hrun & Hcalls & Hputs & Hlen_c & Hlen_p);
      [intros r Hr; apply Hcol; right; exact Hr|].
    exists (nc ++ calls)%list, (np ++ puts)%list.
    rewrite Hrun, <- !app_assoc.
    split; [reflexivity|].
    assert (Hiff : forall mapping ty new docs,
               (forall doc,
                   In doc new
                   <-> _create_option_document row mapping symbol ty strike
                         now = Some doc) ->
               (forall doc,
                   In doc docs
                   <-> exists r k,
                         In r rows /\ assoc "STRIKE" r = Some k
                         /\ _create_option_document r mapping symbol ty k now
                            = Some doc) ->
               forall doc,
                 In doc (new ++ docs)%list
                 <-> exists r k,
                       In r (row :: rows) /\ assoc "STRIKE" r = Some k
                       /\ _create_option_document r mapping symbol ty k now
                          = Some doc).
    { intros mapping ty new docs Hnew Hdocs doc. rewrite in_app_iff. split.
      - intros [H|H].
        + exists row, strike. split; [left; reflexivity|].
          split; [exact Hstrike | apply Hnew; exact H].
        + apply Hdocs in H. destruct H as (r & k & Hr & H).
          exists r, k. split; [right; exact Hr | exact H].
      - intros (r & k & [<-|Hr] & Hk & Hdoc).
        + left. apply Hnew. rewrite Hstrike in Hk. injection Hk as <-.
          exact Hdoc.
        + right. apply Hdocs. exists r, k. repeat split; assumption. }
    split; [apply Hiff; assumption|].
    split; [apply Hiff; assumption|].
    rewrite !length_app. cbn [List.length]. split; lia.
Qed.

(** [parse_csv_to_documents] on a frame that has the column STRIKE. *)
Lemma parse_csv_to_documents_rows (to_numeric : string -> option Q)
    (columns : list string) (df : list Row) (symbol : string) (now : Z) :
  In "STRIKE" columns ->
  (forall row, In row df -> assoc "STRIKE" row <> None) ->
  parse_csv_to_documents to_numeric columns df symbol now
  = _transform_to_documents (numeric_rows to_numeric df) symbol now.
Proof.
  intros Hlabel Hcol. unfold parse_csv_to_documents.
  assert (Hfound : existsb (String.eqb "STRIKE") columns = true).
  { apply existsb_exists. exists "STRIKE".
    split; [exact Hlabel | apply String.eqb_refl]. }
  rewrite Hfound. cbn [bind].
  destruct (strike_filter to_numeric df Hcol) as (kept & -> & Hrest).
  cbn [bind]. rewrite Hrest. reflexivity.
Qed.

(** [parse_csv_to_documents] on a frame without the column STRIKE. *)
Lemma parse_csv_to_documents_no_STRIKE (to_numeric : string -> option Q)
    (columns : list string) (df : list Row) (symbol : string) (now : Z) :
  ~ In "STRIKE" columns ->
  parse_csv_to_documents to_numeric columns df symbol now
  = Raised (Exn "KeyError" "['STRIKE']").
Proof.
  intros Hlabel. unfold parse_csv_to_documents.
  destruct (existsb (String.eqb "STRIKE") columns) eqn:Hfound;
    [|reflexivity].
  apply existsb_exists in Hfound. destruct Hfound as (c & Hc & Heq).
  apply String.eqb_eq in Heq. subst c. contradiction.
Qed.

End CsvFacts.

(** ** Claims on the parsers *)

(** C3, as the code has it. In the JSON parser, a market field whose raw
    value is missing, [None], the empty string, a dash or a string that
    [float] rejects is absent ([None]) in every record emitted. In the CSV
    parser, a field whose cell is missing, NaN, the empty string or a dash
    is absent from the document, while a cell holding any other text that
    [float] rejects is stored as that text without commas and double
    quotes. *)
Theorem C3_blank_fields_absent :
  forall (RT : Runtime),
    (forall (raw : pyval) (symbol : string) (now : Z) (rows : list pyval)
            (calls puts : list OptionChainEntry) (e : OptionChainEntry),
        rows_of raw = Ok rows ->
        parse_option_chain raw symbol now = Ok (calls, puts) ->
        In e (calls ++ puts) ->
        exists row kv,
          In (PDict row) rows
          /\ assoc (value (type e)) row = Some (PDict kv)
          /\ forall f, blank_or_unparseable (assoc (nse_name f) kv) ->
                       get_field e f = None)
    /\ (forall (row : CsvPipeline.Row) (mapping : list (string * string))
               (symbol option_type : string) (strike : CsvPipeline.Value)
               (now : Z) (doc : CsvPipeline.Document)
               (csv_col doc_field : string),
           mapping = CsvPipeline.call_columns
           \/ mapping = CsvPipeline.put_columns ->
           In (csv_col, doc_field) mapping ->
           CsvPipeline._create_option_document row mapping symbol option_type
             strike now = Some doc ->
           (blank_cell (assoc csv_col row) -> assoc doc_field doc = None)
           /\ (forall s, assoc csv_col row = Some (CsvPipeline.Str s) ->
                         s <> EmptyString -> s <> "-" ->
                         float_of_str (CsvPipeline.clean s) = None ->
                         assoc doc_field doc
                         = Some (CsvPipeline.Str (CsvPipeline.clean s)))).
Proof.
  intros RT. split.
  - intros raw symbol now rows calls puts e Hrows Hparse Hin.
    destruct (parse_option_chain_rows raw symbol now rows Hrows)
      as (u & _ & Heq).
    rewrite Heq in Hparse.
    apply parse_records_provenance in Hparse.
    destruct Hparse as (nc & np & -> & -> & Hc & Hp). cbn [app] in Hin.
    assert (Hfrom : exists ty row side,
               emitted_from rows symbol ty u now row side e).
    { apply in_app_or in Hin. destruct Hin as [Hin|Hin].
      - rewrite Forall_forall in Hc. destruct (Hc e Hin) as (row & side & H).
        exists CALL, row, side. exact H.
      - rewrite Forall_forall in Hp. destruct (Hp e Hin) as (row & side & H).
        exists PUT, row, side. exact H. }
    destruct Hfrom as (ty & row & side & Hrow & _ & Hside & Hcreate).
    apply create_option_entry_inv in Hcreate.
    destruct Hcreate as (kv & -> & _ & _ & _ & _ & Hty & _ & _ & Hfields).
    exists row, kv. rewrite Hty. repeat split; [exact Hrow | exact Hside |].
    intros f Hblank.
    assert (Hval : optional_field (fold_left (fill kv) all_fields []) f
                   = Ok None).
    { unfold optional_field.
      rewrite mapped_data_lookup. unfold get_or, kept.
      destruct Hblank as [H|[H|[H|[H|(s & H & Hs)]]]]; rewrite H; cbn;
        try reflexivity.
      destruct (String.eqb s ""), (String.eqb s "-"); cbn; try reflexivity.
      rewrite validator_of_eq. cbn.
      destruct (String.eqb s ""), (String.eqb s "-"); cbn; try reflexivity.
      f_equal. exact Hs. }
    rewrite Hfields in Hval. injection Hval as ->. reflexivity.
  - intros row mapping symbol option_type strike now doc csv_col doc_field
      Hmap Hin Hcreate.
    destruct (columns_fresh mapping Hmap) as [Hnd Hfresh].
    unfold CsvPipeline._create_option_document in Hcreate.
    fold (identity_doc symbol option_type strike now) in Hcreate.
    destruct (4 <? _)%nat; [|discriminate Hcreate].
    injection Hcreate as <-.
    rewrite (add_mapped_fields_lookup row mapping _ csv_col doc_field Hnd Hin).
    assert (Hid : assoc doc_field (identity_doc symbol option_type strike now)
                  = None).
    { assert (Hf : ~ In doc_field ["symbol"; "type"; "strike_price";
                                   "fetched_at"]).
      { apply Hfresh. change doc_field with (snd (csv_col, doc_field)).
        apply in_map. exact Hin. }
      cbn. cbn in Hf.
      repeat match goal with
             | |- context [String.eqb ?a ?b] =>
                 destruct (String.eqb_spec a b); [exfalso; intuition|]
             end.
      reflexivity. }
    split.
    + intros [H|[H|[H|H]]]; rewrite H; cbn; exact Hid.
    + intros s Hs Hne Hdash Hfloat. rewrite Hs. cbn.
      destruct (String.eqb_spec s ""); [contradiction|].
      destruct (String.eqb_spec s "-"); [contradiction|]. cbn.
      rewrite Hfloat. reflexivity.
Qed.

(** The row whose LTP cell is the text [n.a.]. *)
Lemma C3_blank_fields_absent_witness :
  assoc "last_traded_price"
    (identity_doc "NIFTY" "CALL" (CsvPipeline.Num 22950%Q) 0
     ++ [("open_interest", CsvPipeline.Num 76%Q);
         ("last_traded_price", CsvPipeline.Str "n.a.")])%list
  = Some (CsvPipeline.Str (CsvPipeline.clean "n.a.")).
Proof.
  apply (proj2 (C3_blank_fields_absent DecimalRuntime.runtime)
           Examples.unparseable_row CsvPipeline.call_columns "NIFTY" "CALL"
           (CsvPipeline.Num 22950%Q) 0%Z _ "LTP" "last_traded_price").
  - left. reflexivity.
  - cbn. tauto.
  - reflexivity.
  - reflexivity.
  - discriminate.
  - discriminate.
  - reflexivity.
Defined.

(** C3, as the specification states it, fails in the CSV parser: the LTP
    cell [n.a.] is text that [float] rejects, and the document that
    [_create_option_document] returns stores that text under
    [last_traded_price]. *)
Lemma C3_counterexample :
  exists doc,
    CsvPipeline._create_option_document (RT := DecimalRuntime.runtime)
      Examples.unparseable_row CsvPipeline.call_columns "NIFTY" "CALL"
      (CsvPipeline.Num 22950%Q) 0
    = Some doc
    /\ assoc "LTP" Examples.unparseable_row = Some (CsvPipeline.Str "n.a.")
    /\ float_of_str (Runtime := DecimalRuntime.runtime) "n.a." = None
    /\ assoc "last_traded_price" doc = Some (CsvPipeline.Str "n.a.").
Proof.
  eexists. split; [reflexivity|]. repeat split; reflexivity.
Qed.




(** C7, as the code has it. On a payload whose rows are all objects the
    JSON parser returns, and every record it emits comes from a row whose
    strikePrice is truthy and convertible by [float]: rows whose strike is
    missing, [None], zero, empty or not convertible are skipped. The strike
    of the record is that conversion, which is not zero when the raw strike
    is a JSON number but is negative when the raw strike is; the expiry of
    the record is the string of the row's expiryDate, the empty string
    when the row has none. On a frame that has the column STRIKE, each row
    holding a cell for every column, the CSV parser returns what
    [_transform_to_documents] makes of the rows in which a strike can be
    read, and every document it emits carries the strike read in
    the STRIKE cell of a row: rows whose cell is NaN, empty or no number
    once the commas are dropped give nothing, while every other row gives
    a document for each side with a populated column, whatever the sign of
    the strike; a document holds no field for an expiry date. *)
Theorem C7_emitted_strike_and_expiry :
  forall (RT : Runtime),
    (forall (raw : pyval) (symbol : string) (now : Z) (rows : list pyval),
        rows_of raw = Ok rows ->
        (forall r, In r rows -> exists kv, r = PDict kv) ->
        exists calls puts,
          parse_option_chain raw symbol now = Ok (calls, puts)
          /\ forall e, In e (calls ++ puts) ->
               exists row,
                 In (PDict row) rows
                 /\ truthy (get_or row "strikePrice" PNone) = true
                 /\ py_float (get_or row "strikePrice" PNone)
                    = Some (strike_price e)
                 /\ (is_number (get_or row "strikePrice" PNone) = true ->
                     ~ (strike_price e == 0)%Q)
                 /\ str_field (get_or row "expiryDate" (PStr EmptyString))
                    = Some (expiry_date e))
    /\ (forall (to_numeric : string -> option Q) (columns : list string)
               (df : list CsvPipeline.Row) (symbol : string) (now : Z),
           In "STRIKE" columns ->
           (forall row c, In row df -> In c columns -> assoc c row <> None) ->
           exists call_docs put_docs,
             CsvPipeline.parse_csv_to_documents to_numeric columns df symbol
               now
             = Ok (call_docs, put_docs)
             /\ CsvPipeline._transform_to_documents
                  (numeric_rows to_numeric df) symbol now
                = Ok (call_docs, put_docs)
             /\ (forall doc, In doc (call_docs ++ put_docs) ->
                   (exists row cell x,
                       In row df /\ assoc "STRIKE" row = Some cell
                       /\ strike_number to_numeric cell = Some x
                       /\ assoc "strike_price" doc
                          = Some (CsvPipeline.Num x))
                   /\ (forall k, In k (map fst doc) ->
                                 In k document_fields))
             /\ (forall row cell x,
                     In row df -> assoc "STRIKE" row = Some cell ->
                     strike_number to_numeric cell = Some x ->
                     (populated_side CsvPipeline.call_columns row ->
                      exists doc,
                        In doc call_docs
                        /\ assoc "strike_price" doc
                           = Some (CsvPipeline.Num x))
                     /\ (populated_side CsvPipeline.put_columns row ->
                         exists doc,
                           In doc put_docs
                           /\ assoc "strike_price" doc
                              = Some (CsvPipeline.Num x)))
             /\ List.length call_docs
                <= List.length (numeric_rows to_numeric df)
             /\ List.length put_docs
                <= List.length (numeric_rows to_numeric df)).
Proof.
  intros RT. split.
  - intros raw symbol now rows Hrows Hdict.
    destruct (parse_option_chain_rows raw symbol now rows Hrows)
      as (u & _ & Heq).
    destruct (parse_records_total symbol u now rows [] [] Hdict)
      as (calls & puts & Hparse).
    exists calls, puts. rewrite Heq. split; [exact Hparse|].
    intros e Hin.
    apply parse_records_provenance in Hparse.
    destruct Hparse as (nc & np & -> & -> & Hc & Hp). cbn [app] in Hin.
    assert (Hfrom : exists ty row side,
               emitted_from rows symbol ty u now row side e).
    { apply in_app_or in Hin. destruct Hin as [Hin|Hin].
      - rewrite Forall_forall in Hc. destruct (Hc e Hin) as (row & side & H).
        exists CALL, row, side. exact H.
      - rewrite Forall_forall in Hp. destruct (Hp e Hin) as (row & side & H).
        exists PUT, row, side. exact H. }
    destruct Hfrom as (ty & row & side & Hrow & Htruthy & _ & Hcreate).
    apply create_option_entry_inv in Hcreate.
    destruct Hcreate as (kv & _ & Hstrike & Hexpiry & _).
    exists row. repeat split; try assumption.
    intros Hnum Hzero.
    revert Hnum Hstrike Htruthy.
    destruct (get_or row "strikePrice" PNone) as [| |z|q| | |];
      intros Hnum Hstrike Htruthy;
      try discriminate Hnum; cbn [py_float truthy] in Hstrike, Htruthy.
    + destruct (float_overflows (PInt z)); [discriminate Hstrike|].
      injection Hstrike as Hs. rewrite <- Hs in Hzero.
      destruct (Z.eqb_spec z 0) as [->|Hz]; [discriminate Htruthy|].
      apply Hz. unfold Qeq in Hzero. cbn in Hzero. lia.
    + injection Hstrike as Hs. rewrite <- Hs in Hzero.
      apply Qeq_bool_iff in Hzero. rewrite Hzero in Htruthy.
      discriminate Htruthy.
  - intros to_numeric columns df symbol now Hlabel Hcells.
    assert (Hcol : forall row, In row df -> assoc "STRIKE" row <> None)
      by (intros row Hrow; apply (Hcells row "STRIKE" Hrow Hlabel)).
    rewrite (parse_csv_to_documents_rows to_numeric columns df symbol now
               Hlabel Hcol).
    unfold CsvPipeline._transform_to_documents.
    destruct (transform_rows_docs symbol now (numeric_rows to_numeric df)
                [] [] (numeric_rows_have_STRIKE to_numeric df))
      as (calls & puts & Hrun & Hcalls & Hputs & Hlc & Hlp).
    cbn [app] in Hrun. exists calls, puts. split; [exact Hrun|].
    split; [exact Hrun|].
    assert (Hstrike : forall r k,
               In r (numeric_rows to_numeric df) ->
               assoc "STRIKE" r = Some k ->
               exists row cell x,
                 In row df /\ assoc "STRIKE" row = Some cell
                 /\ strike_number to_numeric cell = Some x
                 /\ k = CsvPipeline.Num x).
    { intros r k Hr Hk. apply numeric_rows_In in Hr.
      destruct Hr as (row & cell & x & Hrow & Hcell & Hx & ->).
      rewrite assoc_dict_set, String.eqb_refl in Hk. injection Hk as <-.
      exists row, cell, x. repeat split; assumption. }
    split; [|split; [|split; assumption]].
    + intros doc Hdoc.
      assert (Hfrom : exists mapping ty r k,
                 (mapping = CsvPipeline.call_columns
                  \/ mapping = CsvPipeline.put_columns)
                 /\ In r (numeric_rows to_numeric df)
                 /\ assoc "STRIKE" r = Some k
                 /\ CsvPipeline._create_option_document r mapping symbol ty
                      k now = Some doc).
      { apply in_app_or in Hdoc. destruct Hdoc as [Hdoc|Hdoc].
        - apply Hcalls in Hdoc. destruct Hdoc as (r & k & Hr & Hk & Hd).
          exists CsvPipeline.call_columns, "CALL", r, k.
          repeat split; try assumption. left. reflexivity.
        - apply Hputs in Hdoc. destruct Hdoc as (r & k & Hr & Hk & Hd).
          exists CsvPipeline.put_columns, "PUT", r, k.
          repeat split; try assumption. right. reflexivity. }
      destruct Hfrom as (mapping & ty & r & k & Hmapping & Hr & Hk & Hd).
      destruct (Hstrike r k Hr Hk) as (row & cell & x & Hrow & Hcell & Hx & ->).
      split.
      * exists row, cell, x. repeat split; try assumption.
        apply (create_option_document_identity r mapping symbol ty _ now doc
                 Hmapping Hd).
      * exact (create_option_document_fields r mapping symbol ty _ now doc
                 Hmapping Hd).
    + intros row cell x Hrow Hcell Hx.
      assert (Hr : In (dict_set row "STRIKE" (CsvPipeline.Num x))
                     (numeric_rows to_numeric df)).
      { apply numeric_rows_In. exists row, cell, x.
        repeat split; assumption. }
      assert (Hk : assoc "STRIKE" (dict_set row "STRIKE" (CsvPipeline.Num x))
                   = Some (CsvPipeline.Num x))
        by (rewrite assoc_dict_set, String.eqb_refl; reflexivity).
      assert (Hside : forall mapping ty,
                 mapping = CsvPipeline.call_columns
                 \/ mapping = CsvPipeline.put_columns ->
                 populated_side mapping row ->
                 exists doc,
                   CsvPipeline._create_option_document
                     (dict_set row "STRIKE" (CsvPipeline.Num x)) mapping
                     symbol ty (CsvPipeline.Num x) now = Some doc
                   /\ assoc "strike_price" doc = Some (CsvPipeline.Num x)).
      { intros mapping ty Hmapping Hpop.
        apply (populated_side_dict_set mapping row (CsvPipeline.Num x)
                 Hmapping) in Hpop.
        apply (create_option_document_guard _ mapping symbol ty
                 (CsvPipeline.Num x) now
                 (proj2 (columns_fresh mapping Hmapping))) in Hpop.
        destruct Hpop as [doc Hd]. exists doc. split; [exact Hd|].
        apply (create_option_document_identity _ mapping symbol ty _ now doc
                 Hmapping Hd). }
      split; intros Hpop.
      * destruct (Hside CsvPipeline.call_columns "CALL" (or_introl eq_refl)
                    Hpop) as (doc & Hd & Hprice).
        exists doc. split; [|exact Hprice].
        apply Hcalls. eexists. eexists.
        split; [exact Hr|]. split; [exact Hk | exact Hd].
      * destruct (Hside CsvPipeline.put_columns "PUT" (or_intror eq_refl)
                    Hpop) as (doc & Hd & Hprice).
        exists doc. split; [|exact Hprice].
        apply Hputs. eexists. eexists.
        split; [exact Hr|]. split; [exact Hk | exact Hd].
Qed.

(** The payload of the end-to-end scenario, and the frame of three rows
    of which one holds a strike that is a number. *)
Lemma C7_emitted_strike_and_expiry_witness :
  (exists calls puts,
      parse_option_chain (RT := DecimalRuntime.runtime)
        Examples.scenario_payload "NIFTY" 0 = Ok (calls, puts)
      /\ forall e, In e (calls ++ puts) ->
           exists row,
             In (PDict row)
                [PDict [("strikePrice", PInt 25000);
                        ("expiryDate", PStr "30-Jan-2025");
                        ("CE", PDict [("lastPrice", PFloat 125.75%Q)]);
                        ("PE", PDict [("lastPrice", PFloat 75.50%Q)])]]
             /\ truthy (get_or row "strikePrice" PNone) = true
             /\ py_float (RT := DecimalRuntime.runtime)
                  (get_or row "strikePrice" PNone) = Some (strike_price e)
             /\ (is_number (get_or row "strikePrice" PNone) = true ->
                 ~ (strike_price e == 0)%Q)
             /\ str_field (RT := DecimalRuntime.runtime)
                  (get_or row "expiryDate" (PStr EmptyString))
                = Some (expiry_date e))
  /\ exists call_docs put_docs,
       CsvPipeline.parse_csv_to_documents (RT := DecimalRuntime.runtime)
         DecimalRuntime.float_of_decimal Examples.negative_strike_columns
         Examples.negative_strike_frame "NIFTY" 0 = Ok (call_docs, put_docs)
       /\ List.length call_docs
          <= List.length
               (numeric_rows DecimalRuntime.float_of_decimal
                  Examples.negative_strike_frame)
       /\ List.length put_docs
          <= List.length
               (numeric_rows DecimalRuntime.float_of_decimal
                  Examples.negative_strike_frame).
Proof.
  split.
  - apply (proj1 (C7_emitted_strike_and_expiry DecimalRuntime.runtime)
             Examples.scenario_payload "NIFTY" 0%Z).
    + reflexivity.
    + intros r [<-|[]]. eexists. reflexivity.
  - destruct (proj2 (C7_emitted_strike_and_expiry DecimalRuntime.runtime)
                DecimalRuntime.float_of_decimal
                Examples.negative_strike_columns
                Examples.negative_strike_frame "NIFTY" 0%Z)
      as (call_docs & put_docs & Hparse & _ & _ & _ & Hcalls & Hputs).
    + right. left. reflexivity.
    + intros row c [<-|[<-|[<-|[]]]] [<-|[<-|[]]]; discriminate.
    + exists call_docs, put_docs.
      split; [exact Hparse|]. split; [exact Hcalls | exact Hputs].
Defined.

(** C7, as the specification states it, fails in both parsers: the row of
    the payload with strikePrice -100 and no expiryDate gives a CALL
    record whose strike is -100 and whose expiry date is the empty
    string; and the row of the frame whose STRIKE is -100 gives a CALL
    document with the strike -100 and no expiry date, the two rows without
    a number as strike giving nothing. *)
Lemma C7_counterexample :
  (exists e,
      parse_option_chain (RT := DecimalRuntime.runtime)
        Examples.negative_strike_payload "NIFTY" 0 = Ok ([e], [])
      /\ (strike_price e <= 0)%Q
      /\ expiry_date e = EmptyString)
  /\ CsvPipeline.parse_csv_to_documents (RT := DecimalRuntime.runtime)
       DecimalRuntime.float_of_decimal Examples.negative_strike_columns
       Examples.negative_strike_frame "NIFTY" 0
     = Ok ([[("symbol", CsvPipeline.Str "NIFTY");
             ("type", CsvPipeline.Str "CALL");
             ("strike_price", CsvPipeline.Num (-100)%Q);
             ("fetched_at", CsvPipeline.Time 0);
             ("open_interest", CsvPipeline.Num 76%Q)]], []).
Proof.
  split.
  - eexists. split; [reflexivity|]. split; [|reflexivity].
    cbn. unfold Qle. cbn. lia.
  - vm_compute. reflexivity.
Qed.

(** ** The store *)

Section StoreFacts.

Lemma key_eqb_eq (a b : string * Z) : key_eqb a b = true <-> a = b.
Proof.
  destruct a as [i t], b as [i' t']. unfold key_eqb. cbn.
  rewrite andb_true_iff, String.eqb_eq, Z.eqb_eq.
  split; [intros [-> ->]; reflexivity | intros H; injection H; auto].
Qed.

Lemma has_key_app (stored more : list OptionChainEntry) (k : string * Z) :
  has_key (stored ++ more) k = has_key stored k || has_key more k.
Proof. unfold has_key. apply existsb_app. Qed.

Lemma has_key_In (stored : list OptionChainEntry) (d : OptionChainEntry) :
  In d stored -> has_key stored (dedup_key d) = true.
Proof.
  intros Hin. unfold has_key. apply existsb_exists.
  exists d. split; [exact Hin | apply key_eqb_eq; reflexivity].
Qed.

Lemma has_key_false (stored : list OptionChainEntry) (k : string * Z) :
  has_key stored k = false <-> ~ In k (map dedup_key stored).
Proof.
  unfold has_key. split.
  - intros H Hin. apply in_map_iff in Hin. destruct Hin as (d & <- & Hd).
    assert (Ht : existsb (fun d0 => key_eqb (dedup_key d0) (dedup_key d))
                   stored = true).
    { apply existsb_exists. exists d. split; [exact Hd|].
      apply key_eqb_eq. reflexivity. }
    rewrite Ht in H. discriminate H.
  - intros Hnot. destruct (existsb _ stored) eqn:He; [|reflexivity].
    apply existsb_exists in He. destruct He as (d & Hd & Hk).
    apply key_eqb_eq in Hk. exfalso. apply Hnot. rewrite <- Hk.
    apply in_map. exact Hd.
Qed.

(** A batch of new documents with distinct keys goes in whole. *)
Lemma insert_unordered_fresh :
  forall (batch stored : list OptionChainEntry),
    NoDup (map dedup_key batch) ->
    (forall d, In d batch -> has_key stored (dedup_key d) = false) ->
    insert_unordered stored batch = ((stored ++ batch)%list, List.length batch).
Proof.
  induction batch as [|d batch IH]; intros stored Hnd Hfresh; cbn.
  - rewrite app_nil_r. reflexivity.
  - rewrite (Hfresh d (or_introl eq_refl)).
    inversion Hnd as [|? ? Hnotin Hnd']; subst.
    rewrite IH.
    + rewrite <- app_assoc. reflexivity.
    + exact Hnd'.
    + intros d' Hd'. rewrite has_key_app.
      rewrite (Hfresh d' (or_intror Hd')). cbn.
      rewrite orb_false_r.
      destruct (key_eqb (dedup_key d) (dedup_key d')) eqn:Hk; [|reflexivity].
      apply key_eqb_eq in Hk. exfalso. apply Hnotin. rewrite Hk.
      apply in_map. exact Hd'.
Qed.

(** A batch of documents that are all there already leaves the collection
    as it is. *)
Lemma insert_unordered_present :
  forall (batch stored : list OptionChainEntry),
    (forall d, In d batch -> has_key stored (dedup_key d) = true) ->
    insert_unordered stored batch = (stored, 0).
Proof.
  induction batch as [|d batch IH]; intros stored Hpresent; cbn.
  - reflexivity.
  - rewrite (Hpresent d (or_introl eq_refl)).
    apply IH. intros d' Hd'. apply Hpresent. right. exact Hd'.
Qed.

Lemma insert_unordered_count :
  forall (batch stored : list OptionChainEntry),
    snd (insert_unordered stored batch) <= List.length batch.
Proof.
  induction batch as [|d batch IH]; intros stored; cbn.
  - lia.
  - destruct (has_key stored (dedup_key d)).
    + specialize (IH stored). lia.
    + specialize (IH (stored ++ [d])%list).
      destruct (insert_unordered (stored ++ [d]) batch). cbn in *. lia.
Qed.

(** The unique index holds after an insert if it held before. *)
Lemma insert_unordered_unique :
  forall (batch stored : list OptionChainEntry),
    NoDup (map dedup_key stored) ->
    NoDup (map dedup_key (fst (insert_unordered stored batch))).
Proof.
  induction batch as [|d batch IH]; intros stored Hnd; cbn.
  - exact Hnd.
  - destruct (has_key stored (dedup_key d)) eqn:Hk.
    + apply IH. exact Hnd.
    + specialize (IH (stored ++ [d])%list).
      destruct (insert_unordered (stored ++ [d]) batch). cbn in *.
      apply IH. rewrite map_app. cbn.
      apply NoDup_app; [exact Hnd | repeat constructor; intros [] |].
      intros k Hin [<-|[]]. apply has_key_false in Hk. contradiction.
Qed.

Lemma len_seq (start n : nat) : len (seq start n) = Z.of_nat n.
Proof. unfold len. rewrite length_seq. reflexivity. Qed.

Lemma bulk_insert_fresh (c : Collection) (options : list OptionChainEntry)
    (option_type : string) :
  server_error c = None ->
  NoDup (map dedup_key options) ->
  (forall d, In d options -> has_key (documents c) (dedup_key d) = false) ->
  exists c',
    _bulk_insert_with_dedup c options option_type
    = (Ok {| inserted := len options; skipped := 0 |}, c')
    /\ documents c' = (documents c ++ options)%list
    /\ server_error c' = None.
Proof.
  intros Hup Hnd Hfresh. unfold _bulk_insert_with_dedup.
  destruct options as [|d options].
  - exists c. rewrite app_nil_r.
    split; [reflexivity | split; [reflexivity | exact Hup]].
  - unfold insert_many. rewrite Hup.
    rewrite (insert_unordered_fresh (d :: options) (documents c) Hnd Hfresh).
    rewrite Nat.eqb_refl. eexists.
    split; [rewrite len_seq; reflexivity | split; reflexivity].
Qed.

Lemma bulk_insert_present (c : Collection) (options : list OptionChainEntry)
    (option_type : string) :
  server_error c = None ->
  (forall d, In d options -> has_key (documents c) (dedup_key d) = true) ->
  exists c',
    _bulk_insert_with_dedup c options option_type
    = (Ok {| inserted := 0; skipped := len options |}, c')
    /\ documents c' = documents c
    /\ server_error c' = None.
Proof.
  intros Hup Hpresent. unfold _bulk_insert_with_dedup.
  destruct options as [|d options].
  - exists c. split; [reflexivity | split; [reflexivity | exact Hup]].
  - unfold insert_many. rewrite Hup.
    rewrite (insert_unordered_present (d :: options) (documents c) Hpresent).
    cbn [Nat.eqb List.length]. eexists.
    split; [rewrite Z.sub_0_r; reflexivity | split; reflexivity].
Qed.

(** The two counters of a bulk insert that returns add up to the size of
    the batch, and neither is negative. *)
Lemma bulk_insert_counters (c c' : Collection)
    (options : list OptionChainEntry) (option_type : string) (s : BulkStats) :
  _bulk_insert_with_dedup c options option_type = (Ok s, c') ->
  (inserted s + skipped s = len options)%Z
  /\ (0 <= inserted s)%Z /\ (0 <= skipped s)%Z.
Proof.
  unfold _bulk_insert_with_dedup. destruct options as [|d options].
  - intros H. injection H as <- _. cbn. lia.
  - unfold insert_many. destruct (server_error c) as [e|]; [discriminate|].
    pose proof (insert_unordered_count (d :: options) (documents c)) as Hle.
    destruct (insert_unordered (documents c) (d :: options)) as [stored' n].
    cbn [snd] in Hle. unfold len.
    remember (List.length (d :: options)) as total eqn:Htotal.
    destruct (Nat.eqb_spec n total) as [Heq|Hne];
      intros H; injection H as <- _; cbn [inserted skipped].
    + rewrite length_seq. lia.
    + lia.
Qed.

(** A bulk insert on a reachable server returns. *)
Lemma bulk_insert_returns (c : Collection) (options : list OptionChainEntry)
    (option_type : string) :
  server_error c = None ->
  exists s c',
    _bulk_insert_with_dedup c options option_type = (Ok s, c')
    /\ server_error c' = None.
Proof.
  intros Hup. unfold _bulk_insert_with_dedup. destruct options as [|d options].
  - eexists. eexists. split; [reflexivity | exact Hup].
  - unfold insert_many. rewrite Hup.
    destruct (insert_unordered (documents c) (d :: options)) as [stored' n].
    destruct (n =? List.length (d :: options))%nat;
      eexists; eexists; split; reflexivity.
Qed.

End StoreFacts.

Section StoreClaims.

Lemma store_option_data_unfold (c : Collection)
    (call_options put_options : list OptionChainEntry) :
  store_option_data c call_options put_options
  = let (call_stats, c1) := _bulk_insert_with_dedup c call_options "CALL" in
    match call_stats with
    | Raised e => (Raised e, c1)
    | Ok call_stats =>
        let (put_stats, c2) := _bulk_insert_with_dedup c1 put_options "PUT" in
        match put_stats with
        | Raised e => (Raised e, c2)
        | Ok put_stats =>
            (Ok {| calls_inserted := inserted call_stats;
                   puts_inserted := inserted put_stats;
                   calls_skipped := skipped call_stats;
                   puts_skipped := skipped put_stats;
                   total_processed := len call_options + len put_options |},
             c2)
        end
    end.
Proof.
  unfold store_option_data.
  destruct call_options as [|a call_options];
    destruct put_options as [|b put_options]; reflexivity.
Qed.

(** C1: storing twice the same records, none of which is in the store and
    no two of which share the key (identifier, fetched_at), inserts all of
    them and skips none the first time, and inserts none and skips all of
    them the second time; both calls return, the duplicate keys of the
    second call are counted and not raised, and the second call leaves the
    documents as they are. *)
Theorem C1_store_twice_is_idempotent :
  forall (c : Collection) (call_options put_options : list OptionChainEntry),
    server_error c = None ->
    NoDup (map dedup_key (call_options ++ put_options)) ->
    (forall d, In d (call_options ++ put_options) ->
               ~ In (dedup_key d) (map dedup_key (documents c))) ->
    exists c1 c2,
      store_option_data c call_options put_options
      = (Ok {| calls_inserted := len call_options;
               puts_inserted := len put_options;
               calls_skipped := 0; puts_skipped := 0;
               total_processed := len call_options + len put_options |}, c1)
      /\ store_option_data c1 call_options put_options
         = (Ok {| calls_inserted := 0; puts_inserted := 0;
                  calls_skipped := len call_options;
                  puts_skipped := len put_options;
                  total_processed := len call_options + len put_options |},
            c2)
      /\ documents c1 = (documents c ++ call_options ++ put_options)%list
      /\ documents c2 = documents c1.
Proof.
  intros c calls puts Hup Hnd Hfresh.
  rewrite map_app in Hnd.
  pose proof (NoDup_app_remove_r _ _ Hnd) as Hnd_calls.
  pose proof (NoDup_app_remove_l _ _ Hnd) as Hnd_puts.
  destruct (bulk_insert_fresh c calls "CALL" Hup Hnd_calls)
    as (c1 & Hcalls & Hdocs1 & Hup1).
  { intros d Hd. apply has_key_false. apply Hfresh.
    apply in_or_app. left. exact Hd. }
  destruct (bulk_insert_fresh c1 puts "PUT" Hup1 Hnd_puts)
    as (c2 & Hputs & Hdocs2 & Hup2).
  { intros d Hd. apply has_key_false. rewrite Hdocs1, map_app.
    intros Hin. apply in_app_or in Hin. destruct Hin as [Hin|Hin].
    - revert Hin. apply Hfresh. apply in_or_app. right. exact Hd.
    - clear - Hnd Hin Hd. induction (map dedup_key calls) as [|k ks IH].
      + destruct Hin.
      + cbn in Hnd. inversion Hnd as [|? ? Hnot Hnd']; subst.
        destruct Hin as [->|Hin]; [|exact (IH Hnd' Hin)].
        apply Hnot. apply in_or_app. right. apply in_map. exact Hd. }
  destruct (bulk_insert_present c2 calls "CALL" Hup2)
    as (c3 & Hcalls2 & Hdocs3 & Hup3).
  { intros d Hd. apply has_key_In. rewrite Hdocs2, Hdocs1.
    apply in_or_app. left. apply in_or_app. right. exact Hd. }
  destruct (bulk_insert_present c3 puts "PUT" Hup3)
    as (c4 & Hputs2 & Hdocs4 & Hup4).
  { intros d Hd. apply has_key_In. rewrite Hdocs3, Hdocs2.
    apply in_or_app. right. exact Hd. }
  exists c2, c4.
  rewrite !store_option_data_unfold.
  rewrite Hcalls, Hputs, Hcalls2, Hputs2. cbn.
  repeat split.
  - rewrite Hdocs2, Hdocs1, app_assoc. reflexivity.
  - rewrite Hdocs4, Hdocs3. reflexivity.
Qed.

(** One call and one put into an empty collection, twice. *)
Lemma C1_store_twice_is_idempotent_witness :
  exists c1 c2,
    store_option_data Examples.empty_collection [Examples.call_25000]
      [Examples.put_25000]
    = (Ok {| calls_inserted := 1; puts_inserted := 1;
             calls_skipped := 0; puts_skipped := 0;
             total_processed := 1 + 1 |}, c1)
    /\ store_option_data c1 [Examples.call_25000] [Examples.put_25000]
       = (Ok {| calls_inserted := 0; puts_inserted := 0;
                calls_skipped := 1; puts_skipped := 1;
                total_processed := 1 + 1 |}, c2)
    /\ documents c1 = ([] ++ [Examples.call_25000] ++ [Examples.put_25000])%list
    /\ documents c2 = documents c1.
Proof.
  apply (C1_store_twice_is_idempotent Examples.empty_collection
           [Examples.call_25000] [Examples.put_25000]).
  - reflexivity.
  - cbn. constructor; [|constructor; [intros []|constructor]].
    intros [H|[]]. vm_compute in H. discriminate H.
  - intros d _ [].
Defined.

(** C10: whenever the store returns its counters, the inserted and the
    skipped calls add up to the number of call records and the inserted
    and skipped puts to the number of put records, no counter being
    negative; the store does return when the server is reachable; and
    with two empty lists it returns counters that are all zero and leaves
    the collection untouched, no [insert_many] being sent, whatever the
    state of the server. *)
Theorem C10_store_counters :
  forall (c : Collection) (call_options put_options : list OptionChainEntry),
    (forall stats c',
        store_option_data c call_options put_options = (Ok stats, c') ->
        (calls_inserted stats + calls_skipped stats = len call_options)%Z
        /\ (puts_inserted stats + puts_skipped stats = len put_options)%Z
        /\ (0 <= calls_inserted stats)%Z /\ (0 <= calls_skipped stats)%Z
        /\ (0 <= puts_inserted stats)%Z /\ (0 <= puts_skipped stats)%Z
        /\ total_processed stats = (len call_options + len put_options)%Z)
    /\ (server_error c = None ->
        exists stats c',
          store_option_data c call_options put_options = (Ok stats, c'))
    /\ store_option_data c [] []
       = (Ok {| calls_inserted := 0; puts_inserted := 0;
                calls_skipped := 0; puts_skipped := 0;
                total_processed := 0 |}, c).
Proof.
  intros c calls puts. split; [|split].
  - intros stats c'. rewrite store_option_data_unfold.
    destruct (_bulk_insert_with_dedup c calls "CALL") as [[cs|e] c1] eqn:Hc;
      [|discriminate].
    destruct (_bulk_insert_with_dedup c1 puts "PUT") as [[ps|e] c2] eqn:Hp;
      [|discriminate].
    intros H. injection H as <- _. cbn.
    apply bulk_insert_counters in Hc. apply bulk_insert_counters in Hp.
    intuition.
  - intros Hup. rewrite store_option_data_unfold.
    destruct (bulk_insert_returns c calls "CALL" Hup) as (cs & c1 & -> & Hup1).
    destruct (bulk_insert_returns c1 puts "PUT" Hup1) as (ps & c2 & -> & _).
    eexists. eexists. reflexivity.
  - reflexivity.
Qed.

(** One call and one put into an empty collection. *)
Lemma C10_store_counters_witness :
  exists stats c',
    store_option_data Examples.empty_collection [Examples.call_25000]
      [Examples.put_25000] = (Ok stats, c').
Proof.
  apply (proj1 (proj2 (C10_store_counters Examples.empty_collection
                         [Examples.call_25000] [Examples.put_25000]))).
  reflexivity.
Defined.

End StoreClaims.

(** ** The latest snapshot *)

Section LatestFacts.

Lemma find_latest_spec (symbol : string) :
  forall (docs : list OptionChainEntry) (best : option OptionChainEntry),
    match find_latest docs symbol best with
    | None => best = None /\ forall d, In d docs -> Models.symbol d <> symbol
    | Some r =>
        (best = Some r \/ (In r docs /\ Models.symbol r = symbol))
        /\ (forall b, best = Some b -> (fetched_at b <= fetched_at r)%Z)
        /\ (forall d, In d docs -> Models.symbol d = symbol ->
                      (fetched_at d <= fetched_at r)%Z)
    end.
Proof.
  induction docs as [|d docs IH]; intros best; cbn [find_latest].
  - destruct best as [b|].
    + split; [left; reflexivity|]. split.
      * intros b' H. injection H as ->. lia.
      * intros d [].
    + split; [reflexivity | intros d []].
  - destruct (String.eqb_spec (Models.symbol d) symbol) as [Hsym|Hsym].
    + assert (Hstep : forall best',
                 (forall b, best = Some b ->
                            (fetched_at b <= fetched_at best')%Z) ->
                 (fetched_at d <= fetched_at best')%Z ->
                 (best = Some best' \/ best' = d) ->
                 match find_latest docs symbol (Some best') with
                 | None => best = None
                           /\ forall d0, In d0 (d :: docs) ->
                                         Models.symbol d0 <> symbol
                 | Some r =>
                     (best = Some r
                      \/ (In r (d :: docs) /\ Models.symbol r = symbol))
                     /\ (forall b, best = Some b ->
                                   (fetched_at b <= fetched_at r)%Z)
                     /\ (forall d0, In d0 (d :: docs) ->
                                    Models.symbol d0 = symbol ->
                                    (fetched_at d0 <= fetched_at r)%Z)
                 end).
      { intros best' Hbest Hd Hwhich. specialize (IH (Some best')).
        destruct (find_latest docs symbol (Some best')) as [r|].
        - destruct IH as (Hr & Hb & Hall).
          specialize (Hb best' eq_refl). split; [|split].
          + destruct Hr as [Hr|[Hr Hs]].
            * injection Hr as <-. destruct Hwhich as [Hw| ->].
              -- left. exact Hw.
              -- right. split; [left; reflexivity | exact Hsym].
            * right. split; [right; exact Hr | exact Hs].
          + intros b Hbb. specialize (Hbest b Hbb). lia.
          + intros d0 [<-|Hd0] Hs; [lia | apply Hall; assumption].
        - destruct IH as [Hnone _]. discriminate Hnone. }
      destruct best as [b|].
      * destruct (Z.ltb_spec (fetched_at b) (fetched_at d)) as [Hlt|Hge].
        -- apply Hstep; [ | lia | right; reflexivity].
           intros b' H. injection H as <-. lia.
        -- apply Hstep; [ | lia | left; reflexivity].
           intros b' H. injection H as <-. lia.
      * apply Hstep; [intros b H; discriminate H | lia | right; reflexivity].
    + specialize (IH best).
      destruct (find_latest docs symbol best) as [r|].
      * destruct IH as (Hr & Hb & Hall). split; [|split].
        -- destruct Hr as [Hr|[Hr Hs]]; [left; exact Hr|].
           right. split; [right; exact Hr | exact Hs].
        -- exact Hb.
        -- intros d0 [<-|Hd0] Hs; [contradiction | apply Hall; assumption].
      * destruct IH as [Hnone Hall]. split; [exact Hnone|].
        intros d0 [<-|Hd0]; [exact Hsym | apply Hall; exact Hd0].
Qed.

Lemma find_In (docs : list OptionChainEntry) (symbol : string)
    (type : OptionType) (t : Z) (e : OptionChainEntry) :
  In e (find docs symbol type t)
  <-> In e docs /\ Models.symbol e = symbol /\ Models.type e = type
      /\ fetched_at e = t.
Proof.
  unfold find. rewrite filter_In, !andb_true_iff, String.eqb_eq, Z.eqb_eq.
  assert (Hty : OptionType_eqb (Models.type e) type = true
                <-> Models.type e = type).
  { destruct (Models.type e), type; cbn; intuition discriminate. }
  rewrite Hty. tauto.
Qed.

Lemma insert_by_strike_perm (d : OptionChainEntry) :
  forall l, Permutation (insert_by_strike d l) (d :: l).
Proof.
  induction l as [|x l IH]; cbn.
  - apply Permutation_refl.
  - destruct (Qle_bool (strike_price d) (strike_price x)).
    + apply Permutation_refl.
    + apply Permutation_trans with (x :: d :: l).
      * apply perm_skip. exact IH.
      * apply perm_swap.
Qed.

Lemma sort_by_strike_perm (l : list OptionChainEntry) :
  Permutation (sort_by_strike l) l.
Proof.
  induction l as [|d l IH]; cbn.
  - apply perm_nil.
  - apply Permutation_trans with (d :: sort_by_strike l).
    + apply insert_by_strike_perm.
    + apply perm_skip. exact IH.
Qed.

Lemma insert_by_strike_sorted (d : OptionChainEntry) :
  forall l, StronglySorted strike_le l ->
            StronglySorted strike_le (insert_by_strike d l).
Proof.
  induction l as [|x l IH]; intros Hs; cbn.
  - repeat constructor.
  - inversion Hs as [|? ? Hs' Hall]; subst.
    destruct (Qle_bool (strike_price d) (strike_price x)) eqn:Hle.
    + apply Qle_bool_iff in Hle. constructor; [exact Hs|].
      constructor; [exact Hle|].
      revert Hall. apply Forall_impl. intros y Hy.
      unfold strike_le in *. eapply Qle_trans; eassumption.
    + assert (Hxd : strike_le x d).
      { unfold strike_le. apply Qlt_le_weak. apply Qnot_le_lt.
        intros H. apply Qle_bool_iff in H. rewrite H in Hle.
        discriminate Hle. }
      constructor; [apply IH; exact Hs'|].
      apply Forall_forall. intros y Hy.
      apply (Permutation_in y (insert_by_strike_perm d l)) in Hy.
      destruct Hy as [<-|Hy]; [exact Hxd|].
      rewrite Forall_forall in Hall. apply Hall. exact Hy.
Qed.

Lemma sort_by_strike_sorted (l : list OptionChainEntry) :
  StronglySorted strike_le (sort_by_strike l).
Proof.
  induction l as [|d l IH]; cbn.
  - constructor.
  - apply insert_by_strike_sorted. exact IH.
Qed.

(** What a limit leaves out of a cursor. *)
Lemma cursor_limit_split {A : Type} (n : Z) (l : list A) :
  exists more,
    l = (cursor_limit n l ++ more)%list
    /\ (n <> 0%Z -> List.length (cursor_limit n l) <= Z.abs_nat n)
    /\ (more <> [] -> n <> 0%Z)
    /\ ((0 <= n)%Z -> more <> [] ->
        List.length (cursor_limit n l) = Z.abs_nat n).
Proof.
  unfold cursor_limit. destruct (Z.eqb_spec n 0) as [->|Hn].
  - exists []. rewrite app_nil_r. split; [reflexivity|].
    split; [intros H; congruence|]. split; intros; congruence.
  - assert (Hcut : forall k,
               k <= Z.abs_nat n ->
               (0 <= n -> k = Z.abs_nat n)%Z ->
               exists more,
                 l = (firstn k l ++ more)%list
                 /\ (n <> 0%Z -> List.length (firstn k l) <= Z.abs_nat n)
                 /\ (more <> [] -> n <> 0%Z)
                 /\ ((0 <= n)%Z -> more <> [] ->
                     List.length (firstn k l) = Z.abs_nat n)).
    { intros k Hk Hpos. exists (skipn k l). rewrite firstn_skipn.
      split; [reflexivity|].
      split; [intros _; rewrite length_firstn; lia|].
      split; [intros _; exact Hn|].
      intros Hnn Hmore. rewrite <- (Hpos Hnn).
      apply firstn_length_le.
      destruct (Nat.le_gt_cases k (List.length l)) as [H|H]; [exact H|].
      exfalso. apply Hmore. apply skipn_all2. lia. }
    destruct (Z.ltb_spec 0 n) as [Hpos|Hneg].
    + apply Hcut; lia.
    + apply Hcut; lia.
Qed.

End LatestFacts.

(** C5, as the code has it. For a symbol with a stored record, on a
    reachable server, [get_latest_option_data] returns calls and puts
    separately; every record returned is a stored record of the symbol, of
    the kind of its list, whose [fetched_at] is the greatest of the symbol,
    so no older record is returned; each list is in ascending order of
    strike; and each list holds the records of that snapshot and kind up
    to the limit (100 by default): with a limit other than zero a list
    holds no more records than the limit says, sign apart; what is left
    out has strikes at least as high as what is returned; something is
    left out only when the limit is not zero and, the limit being
    positive, only when the list has reached it. *)
Theorem C5_latest_snapshot :
  forall (c : Collection) (symbol : string) (limit : Z),
    server_error c = None ->
    (exists d, In d (documents c) /\ Models.symbol d = symbol) ->
    exists calls puts latest more_calls more_puts,
      get_latest_option_data c symbol limit = Ok (calls, puts)
      /\ (exists d, In d (documents c) /\ Models.symbol d = symbol
                    /\ fetched_at d = latest)
      /\ (forall d, In d (documents c) -> Models.symbol d = symbol ->
                    (fetched_at d <= latest)%Z)
      /\ (forall e, In e calls ->
                    In e (documents c) /\ Models.symbol e = symbol
                    /\ type e = CALL /\ fetched_at e = latest)
      /\ (forall e, In e puts ->
                    In e (documents c) /\ Models.symbol e = symbol
                    /\ type e = PUT /\ fetched_at e = latest)
      /\ Permutation (calls ++ more_calls)
           (find (documents c) symbol CALL latest)
      /\ Permutation (puts ++ more_puts)
           (find (documents c) symbol PUT latest)
      /\ StronglySorted strike_le (calls ++ more_calls)
      /\ StronglySorted strike_le (puts ++ more_puts)
      /\ (limit <> 0%Z ->
          List.length calls <= Z.abs_nat limit
          /\ List.length puts <= Z.abs_nat limit)
      /\ (more_calls <> [] \/ more_puts <> [] -> limit <> 0%Z)
      /\ ((0 <= limit)%Z ->
          (more_calls <> [] -> List.length calls = Z.abs_nat limit)
          /\ (more_puts <> [] -> List.length puts = Z.abs_nat limit)).
Proof.
  intros c symbol limit Hup (d0 & Hd0 & Hsym0).
  unfold get_latest_option_data. rewrite Hup.
  pose proof (find_latest_spec symbol (documents c) None) as Hlatest.
  destruct (find_latest (documents c) symbol None) as [r|].
  2:{ destruct Hlatest as [_ Hnone]. exfalso. exact (Hnone d0 Hd0 Hsym0). }
  destruct Hlatest as (Hr & _ & Hmax).
  destruct Hr as [Hr|[Hr Hrsym]]; [discriminate Hr|].
  set (latest := fetched_at r).
  destruct (cursor_limit_split limit
              (sort_by_strike (find (documents c) symbol CALL latest)))
    as (more_calls & Hcalls & Hcalls_le & Hcalls_cut & Hcalls_len).
  destruct (cursor_limit_split limit
              (sort_by_strike (find (documents c) symbol PUT latest)))
    as (more_puts & Hputs & Hputs_le & Hputs_cut & Hputs_len).
  eexists. eexists. exists latest, more_calls, more_puts.
  split; [reflexivity|].
  assert (Hmember : forall ty more e,
             sort_by_strike (find (documents c) symbol ty latest)
             = (cursor_limit limit
                  (sort_by_strike (find (documents c) symbol ty latest))
                ++ more)%list ->
             In e (cursor_limit limit
                     (sort_by_strike (find (documents c) symbol ty latest))) ->
             In e (documents c) /\ Models.symbol e = symbol
             /\ type e = ty /\ fetched_at e = latest).
  { intros ty more e Hsplit Hin. apply find_In.
    apply (Permutation_in e (sort_by_strike_perm _)).
    rewrite Hsplit. apply in_or_app. left. exact Hin. }
  split; [exists r; repeat split; assumption|].
  split; [exact Hmax|].
  split; [intros e; apply (Hmember CALL more_calls e Hcalls)|].
  split; [intros e; apply (Hmember PUT more_puts e Hputs)|].
  split; [rewrite <- Hcalls; apply sort_by_strike_perm|].
  split; [rewrite <- Hputs; apply sort_by_strike_perm|].
  split; [rewrite <- Hcalls; apply sort_by_strike_sorted|].
  split; [rewrite <- Hputs; apply sort_by_strike_sorted|].
  split; [intros Hlimit; split; [apply Hcalls_le | apply Hputs_le];
          exact Hlimit|].
  split; [intros [H|H]; [apply Hcalls_cut | apply Hputs_cut]; exact H|].
  intros Hpos. split; [apply Hcalls_len | apply Hputs_len]; exact Hpos.
Qed.

(** A collection that holds one call and one put of one snapshot. *)
Lemma C5_latest_snapshot_witness :
  exists calls puts,
    get_latest_option_data
      {| documents := [Examples.call_25000; Examples.put_25000];
         server_error := None; insert_many_calls := 2 |}
      "NIFTY" default_limit = Ok (calls, puts).
Proof.
  destruct (C5_latest_snapshot
              {| documents := [Examples.call_25000; Examples.put_25000];
                 server_error := None; insert_many_calls := 2 |}
              "NIFTY" default_limit eq_refl
              (ex_intro _ Examples.call_25000
                 (conj (or_introl eq_refl) eq_refl)))
    as (calls & puts & _ & _ & _ & H & _).
  exists calls, puts. exact H.
Defined.

(** C5, as the specification states it, fails: of the 101 calls that share
    the greatest [fetched_at] of NIFTY in this collection, the default
    call returns 100. *)
Lemma C5_counterexample :
  exists calls puts,
    get_latest_option_data Examples.crowded_collection "NIFTY" default_limit
    = Ok (calls, puts)
    /\ List.length (calls ++ puts) = 100
    /\ forallb (fun d => (fetched_at d <=? 1000)%Z)
         (documents Examples.crowded_collection) = true
    /\ List.length
         (filter (fun d => String.eqb (symbol d) "NIFTY"
                           && (fetched_at d =? 1000)%Z)
            (documents Examples.crowded_collection)) = 101.
Proof.
  eexists. eexists. split; [vm_compute; reflexivity|].
  repeat split; vm_compute; reflexivity.
Qed.

(** ** The orchestrator *)

Section CycleFacts.
Context {RT : Runtime}.

(** The three ways through the [try] block of a cycle. *)
Lemma cycle_body_cases (self : DataPipeline) (symbol : string)
    (env : CycleEnv) :
  (exists e,
      fst (fetch_and_parse (responses env) symbol (clock_at_parse env))
      = Raised e
      /\ cycle_body self symbol env = (Raised e, self))
  \/ (exists call_options put_options e db,
         fst (fetch_and_parse (responses env) symbol (clock_at_parse env))
         = Ok (call_options, put_options)
         /\ store_option_data (db_service self) call_options put_options
            = (Raised e, db)
         /\ cycle_body self symbol env = (Raised e, with_db self db))
  \/ (store_succeeded self symbol env
      /\ exists r self',
           cycle_body self symbol env = (Ok r, self')
           /\ success r = true /\ result_symbol r = symbol
           /\ last_successful_fetch self' = Some (clock_at_end env)
           /\ running self' = running self
           /\ symbols self' = symbols self).
Proof.
  unfold cycle_body, store_succeeded.
  destruct (fst (fetch_and_parse (responses env) symbol (clock_at_parse env)))
    as [[calls puts]|e].
  - destruct (store_option_data (db_service self) calls puts)
      as [[stats|e] db] eqn:Hstore.
    + right. right. split.
      * exists calls, puts, stats, db. split; [reflexivity | exact Hstore].
      * eexists. eexists. split; [reflexivity|]. repeat split.
    + right. left. exists calls, puts, e, db. repeat split. exact Hstore.
  - left. exists e. split; reflexivity.
Qed.

(** A cycle returns a result, whatever happens in its [try] block; the
    result reports a failure exactly when the block raised. *)
Lemma run_single_cycle_returns (self : DataPipeline) (symbol : string)
    (env : CycleEnv) :
  exists r,
    run_single_cycle self symbol env
    = (Ok r, snd (cycle_body self symbol env))
    /\ result_symbol r = symbol
    /\ (forall e, fst (cycle_body self symbol env) = Raised e ->
                  success r = false /\ error r = Some (exn_msg e))
    /\ (success r = false ->
        exists e, fst (cycle_body self symbol env) = Raised e)
    /\ (success r = true -> store_succeeded self symbol env).
Proof.
  unfold run_single_cycle.
  destruct (cycle_body_cases self symbol env)
    as [(e & _ & ->)|[(calls & puts & e & db & _ & _ & ->)
                     |(Hstored & r & self' & -> & Hok & Hsym & _)]];
    cbn [try_except fst snd]; eexists; (split; [reflexivity|]); cbn.
  - split; [reflexivity|].
    split; [intros e' He'; injection He' as <-; split; reflexivity|].
    split; [intros _; exists e; reflexivity | discriminate].
  - split; [reflexivity|].
    split; [intros e' He'; injection He' as <-; split; reflexivity|].
    split; [intros _; exists e; reflexivity | discriminate].
  - split; [exact Hsym|]. split; [intros e H; discriminate H|].
    split; [rewrite Hok; discriminate | intros _; exact Hstored].
Qed.

Lemma run_single_cycle_state (self : DataPipeline) (symbol : string)
    (env : CycleEnv) :
  let self' := snd (run_single_cycle self symbol env) in
  running self' = running self
  /\ symbols self' = symbols self
  /\ ((store_succeeded self symbol env
       /\ last_successful_fetch self' = Some (clock_at_end env))
      \/ (~ store_succeeded self symbol env
          /\ last_successful_fetch self' = last_successful_fetch self)).
Proof.
  unfold run_single_cycle.
  destruct (cycle_body_cases self symbol env)
    as [(e & Hfetch & ->)|[(calls & puts & e & db & Hfetch & Hstore & ->)
                          |(Hstored & r & self' & -> & _ & _ & Hlsf & Hrun
                            & Hsyms)]];
    cbn [snd].
  - repeat split. right. split; [|reflexivity].
    intros (calls & puts & stats & db & Hok & _).
    rewrite Hfetch in Hok. discriminate Hok.
  - repeat split. right. split; [|reflexivity].
    intros (calls' & puts' & stats & db' & Hok & Hstore').
    rewrite Hfetch in Hok. injection Hok as <- <-.
    rewrite Hstore in Hstore'. discriminate Hstore'.
  - repeat split; try assumption. left. split; assumption.
Qed.

(** With no signal, the loop of a tick calls [run_single_cycle] for every
    symbol, whatever the earlier calls returned. *)
Lemma for_symbols_runs_all :
  forall (todo : list string) (self : DataPipeline) (envs : nat -> CycleEnv)
         (cycle_success : bool),
    running self = true ->
    (forall k, k < List.length todo -> signal (envs k) = false) ->
    Forall2 cycle_ran todo
      (snd (for_symbols self todo envs cycle_success)).
Proof.
  induction todo as [|symbol todo IH]; intros self envs ok Hrun Hquiet.
  - constructor.
  - cbn [for_symbols]. rewrite Hrun. cbn [negb].
    destruct (run_single_cycle_returns self symbol (envs 0))
      as (r & Hcycle & Hsym & _).
    pose proof (run_single_cycle_state self symbol (envs 0)) as (Hrun' & _).
    rewrite Hcycle in *. cbn [snd] in Hrun'.
    rewrite (Hquiet 0 ltac:(cbn; lia)).
    specialize (IH (snd (cycle_body self symbol (envs 0)))
                  (fun k => envs (S k))
                  (if success r then ok else false)).
    destruct (for_symbols _ todo _ _) as [[self3 ok3] outcomes] eqn:Hloop.
    cbn [snd] in *. constructor.
    + exists r. split; [reflexivity | exact Hsym].
    + apply IH.
      * rewrite Hrun'. exact Hrun.
      * intros k Hk. apply Hquiet. cbn. lia.
Qed.

(** A tick none of whose cycles succeeded leaves [last_successful_fetch]
    as it was. *)
Lemma for_symbols_all_failed :
  forall (todo : list string) (self : DataPipeline) (envs : nat -> CycleEnv)
         (cycle_success : bool),
    (forall o, In o (snd (for_symbols self todo envs cycle_success)) ->
               exists r, o = Ok r /\ success r = false) ->
    last_successful_fetch (fst (fst (for_symbols self todo envs cycle_success)))
    = last_successful_fetch self.
Proof.
  induction todo as [|symbol todo IH]; intros self envs ok Hfailed.
  - reflexivity.
  - cbn [for_symbols] in *. destruct (running self); cbn [negb] in *;
      [|reflexivity].
    destruct (run_single_cycle_returns self symbol (envs 0))
      as (r & Hcycle & _ & _ & _ & Hsucc).
    pose proof (run_single_cycle_state self symbol (envs 0))
      as (_ & _ & Hlsf).
    rewrite Hcycle in *. cbn [snd] in Hlsf.
    set (self2 := if signal (envs 0)
                  then _signal_handler (snd (cycle_body self symbol (envs 0)))
                  else snd (cycle_body self symbol (envs 0))) in *.
    specialize (IH self2 (fun k => envs (S k))
                  (if success r then ok else false)).
    destruct (for_symbols self2 todo _ _) as [[self3 ok3] outcomes].
    cbn [fst snd] in *.
    destruct (Hfailed (Ok r) (or_introl eq_refl)) as (r' & Hr' & Hfail).
    injection Hr' as <-.
    rewrite IH by (intros o Ho; apply Hfailed; right; exact Ho).
    assert (Hself2 : last_successful_fetch self2
                     = last_successful_fetch
                         (snd (cycle_body self symbol (envs 0)))).
    { unfold self2. destruct (signal (envs 0)); reflexivity. }
    rewrite Hself2.
    destruct Hlsf as [[Hstored _]|[_ Hsame]]; [|exact Hsame].
    exfalso. destruct (success r) eqn:Hs; [discriminate Hfail|].
    destruct (run_single_cycle_returns self symbol (envs 0))
      as (r2 & Hcycle2 & _ & _ & Hraised & _).
    rewrite Hcycle in Hcycle2. injection Hcycle2 as <-.
    destruct (Hraised Hs) as (e & He).
    destruct (cycle_body_cases self symbol (envs 0))
      as [(e1 & Hfetch & Hbody)|[(calls & puts & e1 & db & Hfetch & Hstore
                                  & Hbody)
                                |(_ & r3 & self' & Hbody & _)]].
    + destruct Hstored as (calls & puts & stats & db & Hok & _).
      rewrite Hfetch in Hok. discriminate Hok.
    + destruct Hstored as (calls' & puts' & stats & db' & Hok & Hstore').
      rewrite Hfetch in Hok. injection Hok as <- <-.
      rewrite Hstore in Hstore'. discriminate Hstore'.
    + rewrite Hbody in He. discriminate He.
Qed.

(** Every call of [run_single_cycle] in a tick returns: the handler around
    it in the loop is never entered. *)
Lemma for_symbols_outcomes :
  forall (todo : list string) (self : DataPipeline) (envs : nat -> CycleEnv)
         (cycle_success : bool),
    Forall (fun o => exists r, o = Ok r)
      (snd (for_symbols self todo envs cycle_success)).
Proof.
  induction todo as [|symbol todo IH]; intros self envs ok.
  - constructor.
  - cbn [for_symbols]. destruct (running self); cbn [negb]; [|constructor].
    destruct (run_single_cycle_returns self symbol (envs 0))
      as (r & Hcycle & _).
    rewrite Hcycle.
    match goal with
    | |- context [for_symbols ?s todo ?e ?b] =>
        specialize (IH s e b);
        destruct (for_symbols s todo e b) as [[self3 ok3] outcomes]
    end.
    cbn [snd] in *. constructor; [exists r; reflexivity | exact IH].
Qed.

Lemma while_running_outcomes :
  forall (ticks : list (nat -> CycleEnv)) (self : DataPipeline),
    Forall (Forall (fun o => exists r, o = Ok r))
      (snd (while_running self ticks)).
Proof.
  induction ticks as [|envs ticks IH]; intros self.
  - constructor.
  - cbn [while_running]. destruct (running self); [|constructor].
    unfold run_tick.
    match goal with
    | |- context [for_symbols ?s ?t ?e ?b] =>
        pose proof (for_symbols_outcomes t s e b) as Htick;
        destruct (for_symbols s t e b) as [[self' ok] outcomes]
    end.
    match goal with
    | |- context [while_running ?s ticks] =>
        specialize (IH s); destruct (while_running s ticks) as [self'' more]
    end.
    cbn [snd] in *. constructor; assumption.
Qed.

(** What a cycle returns depends on the pipeline through its database
    service only. *)
Lemma run_single_cycle_db (self self0 : DataPipeline) (symbol : string)
    (env : CycleEnv) :
  db_service self = db_service self0 ->
  fst (run_single_cycle self symbol env)
  = fst (run_single_cycle self0 symbol env).
Proof.
  intros Hdb. unfold run_single_cycle, cycle_body. rewrite Hdb.
  destruct (fst (fetch_and_parse (responses env) symbol (clock_at_parse env)))
    as [[calls puts]|e]; [|reflexivity].
  destruct (store_option_data (db_service self0) calls puts) as [[st|e] db];
    reflexivity.
Qed.

(** A cycle whose fetcher or parser raises leaves the pipeline as it
    was. *)
Lemma run_single_cycle_fetch_raised (self : DataPipeline) (symbol : string)
    (env : CycleEnv) (e : exn) :
  fst (fetch_and_parse (responses env) symbol (clock_at_parse env))
  = Raised e ->
  snd (run_single_cycle self symbol env) = self.
Proof.
  intros Hfetch. unfold run_single_cycle, cycle_body. rewrite Hfetch.
  reflexivity.
Qed.

(** Isolation in the loop of a tick: after cycles that failed in the
    fetcher or the parser, the cycle of the next symbol is the call of
    [run_single_cycle] on the pipeline as the loop found it. *)
Lemma for_symbols_isolated :
  forall (todo : list string) (self : DataPipeline) (envs : nat -> CycleEnv)
         (cycle_success : bool) (k : nat) (symbol_k : string),
    running self = true ->
    (forall j, j < List.length todo -> signal (envs j) = false) ->
    nth_error todo k = Some symbol_k ->
    (forall j symbol_j,
        j < k -> nth_error todo j = Some symbol_j ->
        exists e,
          fst (fetch_and_parse (responses (envs j)) symbol_j
                 (clock_at_parse (envs j))) = Raised e) ->
    nth_error (snd (for_symbols self todo envs cycle_success)) k
    = Some (fst (run_single_cycle self symbol_k (envs k))).
Proof.
  induction todo as [|symbol todo IH];
    intros self envs ok k symbol_k Hrun Hquiet Hk Hbefore.
  - destruct k; discriminate Hk.
  - cbn [for_symbols]. rewrite Hrun. cbn [negb].
    destruct (run_single_cycle self symbol (envs 0)) as [outcome self1]
      eqn:Hcycle.
    rewrite (Hquiet 0 ltac:(cbn; lia)).
    destruct k as [|k].
    + cbn in Hk. injection Hk as <-.
      match goal with
      | |- context [for_symbols ?s todo ?e ?b] =>
          destruct (for_symbols s todo e b) as [[self3 ok3] outcomes]
      end.
      cbn [snd nth_error]. rewrite Hcycle. reflexivity.
    + destruct (Hbefore 0 symbol ltac:(lia) eq_refl) as [e Hfetch].
      pose proof (run_single_cycle_fetch_raised self symbol (envs 0) e Hfetch)
        as Hsame.
      rewrite Hcycle in Hsame. cbn [snd] in Hsame. subst self1.
      specialize (IH self (fun j => envs (S j))
                    (match outcome with
                     | Ok result => if success result then ok else false
                     | Raised _ => false
                     end) k symbol_k Hrun
                    ltac:(intros j Hj; apply Hquiet; cbn; lia) Hk
                    ltac:(intros j symbol_j Hj Hnth;
                          apply (Hbefore (S j) symbol_j); [lia | exact Hnth])).
      match goal with
      | |- context [for_symbols ?s todo ?e ?b] =>
          destruct (for_symbols s todo e b) as [[self3 ok3] outcomes]
      end.
      cbn [snd nth_error] in *. exact IH.
Qed.

(** The store that a cycle leaves. *)
Lemma run_single_cycle_store (self : DataPipeline) (symbol : string)
    (env : CycleEnv) :
  db_service (snd (run_single_cycle self symbol env))
  = match fst (fetch_and_parse (responses env) symbol (clock_at_parse env))
    with
    | Raised _ => db_service self
    | Ok (call_options, put_options) =>
        snd (store_option_data (db_service self) call_options put_options)
    end.
Proof.
  unfold run_single_cycle, cycle_body.
  destruct (fst (fetch_and_parse (responses env) symbol (clock_at_parse env)))
    as [[calls puts]|e]; [|reflexivity].
  destruct (store_option_data (db_service self) calls puts) as [[st|e] db];
    reflexivity.
Qed.

(** Every cycle of the loop of a tick is the call of [run_single_cycle] on
    the store that the cycles before it left, whatever they returned. *)
Lemma for_symbols_nth :
  forall (todo : list string) (self : DataPipeline) (envs : nat -> CycleEnv)
         (cycle_success : bool) (k : nat) (symbol_k : string),
    running self = true ->
    (forall j, j < List.length todo -> signal (envs j) = false) ->
    nth_error todo k = Some symbol_k ->
    nth_error (snd (for_symbols self todo envs cycle_success)) k
    = Some (fst (run_single_cycle
                   (with_db self
                      (store_after (db_service self) (firstn k todo) envs))
                   symbol_k (envs k))).
Proof.
  induction todo as [|symbol todo IH];
    intros self envs ok k symbol_k Hrun Hquiet Hk.
  - destruct k; discriminate Hk.
  - cbn [for_symbols]. rewrite Hrun. cbn [negb].
    pose proof (run_single_cycle_state self symbol (envs 0)) as (Hrun' & _).
    pose proof (run_single_cycle_store self symbol (envs 0)) as Hstore.
    destruct (run_single_cycle self symbol (envs 0)) as [outcome self1]
      eqn:Hcycle.
    cbn [snd] in Hrun', Hstore.
    rewrite (Hquiet 0 ltac:(cbn; lia)).
    destruct k as [|k].
    + cbn in Hk. injection Hk as <-.
      match goal with
      | |- context [for_symbols ?s todo ?e ?b] =>
          destruct (for_symbols s todo e b) as [[self3 ok3] outcomes]
      end.
      cbn [snd nth_error firstn store_after]. f_equal.
      rewrite (run_single_cycle_db (with_db self (db_service self)) self
                 symbol (envs 0) eq_refl).
      rewrite Hcycle. reflexivity.
    + cbn [nth_error] in Hk.
      specialize (IH self1 (fun j => envs (S j))
                    (match outcome with
                     | Ok result => if success result then ok else false
                     | Raised _ => false
                     end) k symbol_k
                    ltac:(rewrite Hrun'; exact Hrun)
                    ltac:(intros j Hj; apply Hquiet; cbn; lia) Hk).
      match goal with
      | |- context [for_symbols ?s todo ?e ?b] =>
          destruct (for_symbols s todo e b) as [[self3 ok3] outcomes]
      end.
      cbn [snd nth_error firstn store_after] in *. rewrite IH. f_equal.
      rewrite Hstore. apply run_single_cycle_db. reflexivity.
Qed.

End CycleFacts.

(** C6: an error raised in a cycle, by the fetcher and parser or by the
    store, does not leave [run_single_cycle]: the call returns a result
    whose [success] is false and whose [error] is the message of the
    exception; in a tick that no signal interrupts, the cycle of every
    configured symbol is run: it is the call of [run_single_cycle] on the
    store as the cycles before it left it, whatever they returned, and
    after cycles in which the fetcher or the parser raised it is exactly
    the call of [run_single_cycle] on the pipeline as the tick found it,
    with the same result as if the failed cycles had not been there; and
    in the whole
    loop of [run_continuous] every cycle returns a result, so nothing
    propagates out of the loop. *)
Theorem C6_cycle_errors_are_contained :
  forall (RT : Runtime) (self : DataPipeline) (symbol : string)
         (env : CycleEnv),
    (exists r,
        fst (run_single_cycle self symbol env) = Ok r
        /\ result_symbol r = symbol
        /\ (forall e,
               fst (fetch_and_parse (responses env) symbol
                      (clock_at_parse env)) = Raised e ->
               success r = false /\ error r = Some (exn_msg e))
        /\ (forall call_options put_options e,
               fst (fetch_and_parse (responses env) symbol
                      (clock_at_parse env)) = Ok (call_options, put_options) ->
               fst (store_option_data (db_service self) call_options
                      put_options) = Raised e ->
               success r = false /\ error r = Some (exn_msg e)))
    /\ (forall envs,
           running self = true ->
           (forall k, k < List.length (symbols self) ->
                      signal (envs k) = false) ->
           Forall2 cycle_ran (symbols self) (snd (run_tick self envs))
           /\ (forall k symbol_k,
                  nth_error (symbols self) k = Some symbol_k ->
                  nth_error (snd (run_tick self envs)) k
                  = Some (fst (run_single_cycle
                                 (with_db self
                                    (store_after (db_service self)
                                       (firstn k (symbols self)) envs))
                                 symbol_k (envs k))))
           /\ forall k symbol_k,
                nth_error (symbols self) k = Some symbol_k ->
                (forall j symbol_j,
                    j < k -> nth_error (symbols self) j = Some symbol_j ->
                    exists e,
                      fst (fetch_and_parse (responses (envs j)) symbol_j
                             (clock_at_parse (envs j))) = Raised e) ->
                nth_error (snd (run_tick self envs)) k
                = Some (fst (run_single_cycle self symbol_k (envs k))))
    /\ (forall ticks,
           Forall (Forall (fun o => exists r, o = Ok r))
             (snd (run_continuous self ticks))).
Proof.
  intros RT self symbol env. split; [|split].
  - destruct (run_single_cycle_returns self symbol env)
      as (r & Hcycle & Hsym & Hraised & _).
    exists r. rewrite Hcycle. split; [reflexivity|]. split; [exact Hsym|].
    split.
    + intros e Hfetch. apply Hraised.
      unfold cycle_body. rewrite Hfetch. reflexivity.
    + intros calls puts e Hfetch Hstore. apply Hraised.
      unfold cycle_body. rewrite Hfetch.
      destruct (store_option_data (db_service self) calls puts) as [o db].
      cbn [fst] in Hstore. rewrite Hstore. reflexivity.
  - intros envs Hrun Hquiet. unfold run_tick. cbn [symbols].
    match goal with
    | |- context [for_symbols ?s ?t ?e ?b] =>
        pose proof (for_symbols_runs_all t s e b Hrun Hquiet) as Hall;
        pose proof (fun k symbol_k =>
                      for_symbols_isolated t s e b k symbol_k Hrun Hquiet)
          as Hisolated;
        pose proof (fun k symbol_k =>
                      for_symbols_nth t s e b k symbol_k Hrun Hquiet)
          as Hnth;
        pose proof (fun symbol_k k =>
                      run_single_cycle_db s self symbol_k (e k) eq_refl)
          as Hdb;
        destruct (for_symbols s t e b) as [[self' ok] outcomes]
    end.
    cbn [snd] in *. split; [exact Hall|]. split.
    + intros k symbol_k Hk. rewrite (Hnth k symbol_k Hk). f_equal.
      apply run_single_cycle_db. reflexivity.
    + intros k symbol_k Hk Hbefore.
      rewrite (Hisolated k symbol_k Hk Hbefore). f_equal. apply Hdb.
  - intros ticks. apply while_running_outcomes.
Qed.

(** A tick over two symbols in which the payload of the first makes the
    parser raise: the cycle of the second symbol is the call of
    [run_single_cycle] for it. *)
Lemma C6_cycle_errors_are_contained_witness :
  nth_error
    (snd (run_tick (RT := DecimalRuntime.runtime) Examples.two_symbols
            Examples.first_fails)) 1
  = Some (fst (run_single_cycle (RT := DecimalRuntime.runtime)
                 Examples.two_symbols "BANKNIFTY" (Examples.first_fails 1)))
  /\ exists r,
       fst (run_single_cycle (RT := DecimalRuntime.runtime)
              Examples.two_symbols "NIFTY"
              (Examples.quiet Examples.malformed_payload)) = Ok r
       /\ success r = false
       /\ error r = Some "'list' object has no attribute 'get'".
Proof.
  split.
  - apply (proj2 (proj2 (proj1 (proj2 (C6_cycle_errors_are_contained
                                         DecimalRuntime.runtime
                                         Examples.two_symbols "NIFTY"
                                         (Examples.quiet
                                            Examples.malformed_payload)))
                           Examples.first_fails eq_refl
                           ltac:(intros k Hk; destruct k as [|k];
                                 reflexivity)))
             1 "BANKNIFTY" eq_refl).
    intros j symbol_j Hj Hnth.
    destruct j as [|j]; [|lia].
    cbn in Hnth. injection Hnth as <-.
    exists (AttributeError "'list'"). reflexivity.
  - destruct (proj1 (C6_cycle_errors_are_contained DecimalRuntime.runtime
                       Examples.two_symbols "NIFTY"
                       (Examples.quiet Examples.malformed_payload)))
      as (r & Hr & _ & Hfetch & _).
    exists r. split; [exact Hr|].
    apply (Hfetch (AttributeError "'list'")). reflexivity.
Defined.

(** C8, as the code has it: a cycle sets [last_successful_fetch] exactly
    when the fetcher and parser returned two lists and [store_option_data]
    returned its counters on them, and a cycle in which one of them raised
    leaves it as it was, as does a tick none of whose cycles succeeded.
    The cycle of an empty snapshot is among those that set it: nothing is
    sent to the server then, so that the database service is left as it
    was, whatever the condition of its server. *)
Theorem C8_last_successful_fetch :
  forall (RT : Runtime) (self : DataPipeline) (symbol : string)
         (env : CycleEnv),
    ((store_succeeded self symbol env
      /\ last_successful_fetch (snd (run_single_cycle self symbol env))
         = Some (clock_at_end env))
     \/ (~ store_succeeded self symbol env
         /\ last_successful_fetch (snd (run_single_cycle self symbol env))
            = last_successful_fetch self))
    /\ (last_successful_fetch (snd (run_single_cycle self symbol env))
        <> last_successful_fetch self ->
        store_succeeded self symbol env)
    /\ (forall envs,
           (forall o, In o (snd (run_tick self envs)) ->
                      exists r, o = Ok r /\ success r = false) ->
           last_successful_fetch (fst (run_tick self envs))
           = last_successful_fetch self)
    /\ (fst (fetch_and_parse (responses env) symbol (clock_at_parse env))
        = Ok ([], []) ->
        last_successful_fetch (snd (run_single_cycle self symbol env))
        = Some (clock_at_end env)
        /\ db_service (snd (run_single_cycle self symbol env))
           = db_service self).
Proof.
  intros RT self symbol env.
  pose proof (run_single_cycle_state self symbol env) as (_ & _ & Hlsf).
  cbn zeta in Hlsf. split; [exact Hlsf|]. split; [|split].
  - intros Hchanged. destruct Hlsf as [[Hstored _]|[_ Hsame]];
      [exact Hstored | contradiction].
  - intros envs Hfailed. unfold run_tick in *.
    match goal with
    | |- context [for_symbols ?s ?t ?e ?b] =>
        pose proof (for_symbols_all_failed t s e b) as Hloop;
        destruct (for_symbols s t e b) as [[self' ok] outcomes]
    end.
    cbn [fst snd] in *. apply Hloop. exact Hfailed.
  - intros Hempty. unfold run_single_cycle, cycle_body.
    rewrite Hempty. cbn. split; reflexivity.
Qed.

(** A tick whose only cycle fails in the store, the server being out of
    reach. *)
Lemma C8_last_successful_fetch_witness :
  last_successful_fetch
    (fst (run_tick (RT := DecimalRuntime.runtime) Examples.out_of_reach
            (fun _ => Examples.quiet Examples.scenario_payload)))
  = Some 1000%Z.
Proof.
  apply (proj1 (proj2 (proj2 (C8_last_successful_fetch DecimalRuntime.runtime
                                Examples.out_of_reach "NIFTY"
                                (Examples.quiet Examples.scenario_payload))))
           (fun _ => Examples.quiet Examples.scenario_payload)).
  intros o Ho. vm_compute in Ho. destruct Ho as [<-|[]].
  eexists. split; reflexivity.
Defined.

(** C8, as the specification states it, fails: the cycle of a payload
    without rows, on a pipeline whose server cannot be reached, moves
    [last_successful_fetch] from 1000 to 2001 although no insert was sent
    and none could have succeeded. *)
Lemma C8_counterexample :
  fst (fetch_and_parse (RT := DecimalRuntime.runtime)
         (responses (Examples.quiet Examples.empty_snapshot_payload)) "NIFTY"
         (clock_at_parse (Examples.quiet Examples.empty_snapshot_payload)))
  = Ok ([], [])
  /\ last_successful_fetch Examples.out_of_reach = Some 1000%Z
  /\ last_successful_fetch
       (snd (run_single_cycle (RT := DecimalRuntime.runtime)
               Examples.out_of_reach "NIFTY"
               (Examples.quiet Examples.empty_snapshot_payload)))
     = Some 2001%Z
  /\ db_service
       (snd (run_single_cycle (RT := DecimalRuntime.runtime)
               Examples.out_of_reach "NIFTY"
               (Examples.quiet Examples.empty_snapshot_payload)))
     = Examples.unreachable_collection
  /\ insert_many_calls Examples.unreachable_collection = 0
  /\ server_error Examples.unreachable_collection
     = Some (Exn "ServerSelectionTimeoutError" "No servers found yet").
Proof.
  repeat split; vm_compute; reflexivity.
Qed.

(** * Further properties of the code *)

(** ** The fetcher *)

Lemma fetch_loop_cases (responses : nat -> Response) (symbol : string) :
  forall remaining attempt log,
    attempt + remaining = 3 ->
    0 < remaining ->
    exists added,
      snd (fetch_loop responses symbol attempt remaining log)
      = (log ++ added)%list
      /\ ((exists k data,
              attempt <= k < 3
              /\ check_response (responses k) = Ok data
              /\ (forall j, attempt <= j < k ->
                     exists e, check_response (responses j) = Raised e
                               /\ In (attempt_failed j symbol e) added)
              /\ fst (fetch_loop responses symbol attempt remaining log)
                 = Ok data
              /\ List.length added
                 = (k - attempt)
                   + warnings_before_except responses attempt
                       (S (k - attempt)))
          \/ ((forall k, attempt <= k < 3 ->
                  exists e, check_response (responses k) = Raised e
                            /\ In (attempt_failed k symbol e) added)
              /\ fst (fetch_loop responses symbol attempt remaining log)
                 = Ok (fst (_get_fallback_data symbol))
              /\ In (WARNING, "Using fallback data for " ++ symbol) added
              /\ List.length added
                 = (3 - attempt)
                   + warnings_before_except responses attempt (3 - attempt)
                   + 1)).
Proof.
  induction remaining as [|remaining IH]; intros attempt log Hsum Hpos.
  - lia.
  - cbn [fetch_loop].
    set (before := attempt_warnings attempt (responses attempt)).
    destruct (check_response (responses attempt)) as [data|e] eqn:Hcheck.
    + exists before. cbn [fst snd]. split; [reflexivity|].
      left. exists attempt, data.
      split; [lia|]. split; [exact Hcheck|].
      split; [intros j Hj; lia|]. split; [reflexivity|].
      rewrite Nat.sub_diag. unfold warnings_before_except. cbn.
      fold before. lia.
    + destruct (Nat.eqb_spec attempt 2) as [->|Hne].
      * exists (before
                ++ [attempt_failed 2 symbol e;
                    (WARNING, ("Using fallback data for " ++ symbol)%string)])
               %list.
        cbn [_get_fallback_data fst snd]. unfold emit.
        split; [rewrite <- !app_assoc; reflexivity|].
        right. split; [|split; [reflexivity|split]].
        -- intros k Hk. assert (k = 2) as -> by lia. exists e.
           split; [exact Hcheck|]. apply in_or_app. right. left. reflexivity.
        -- apply in_or_app. right. right. left. reflexivity.
        -- rewrite length_app. unfold warnings_before_except. cbn.
           fold before. lia.
      * destruct (IH (S attempt)
                    (emit (log ++ before)%list WARNING
                       ("Attempt " ++ decimal (attempt + 1) ++ " failed for "
                        ++ symbol ++ ": " ++ exn_msg e))
                    ltac:(lia) ltac:(lia))
          as (added & Hlog & Hcases).
        exists (before ++ attempt_failed attempt symbol e :: added)%list.
        split.
        { rewrite Hlog. unfold emit, attempt_failed.
          rewrite <- !app_assoc. reflexivity. }
        assert (Hhere : In (attempt_failed attempt symbol e)
                          (before ++ attempt_failed attempt symbol e :: added))
          by (apply in_or_app; right; left; reflexivity).
        assert (Hlater : forall line,
                   In line added ->
                   In line (before ++ attempt_failed attempt symbol e
                            :: added))
          by (intros line Hin; apply in_or_app; right; right; exact Hin).
        assert (Hcount : forall n,
                   warnings_before_except responses attempt (S n)
                   = List.length before
                     + warnings_before_except responses (S attempt) n)
          by reflexivity.
        destruct Hcases as [(k & data & Hk & Hok & Hbefore & Hres & Hlen)
                           |(Hall & Hres & Hfall & Hlen)].
        -- left. exists k, data.
           split; [lia|]. split; [exact Hok|]. split; [|split].
           ++ intros j Hj. destruct (Nat.eq_dec j attempt) as [->|Hj'].
              ** exists e. split; [exact Hcheck | exact Hhere].
              ** destruct (Hbefore j ltac:(lia)) as (e' & He' & Hin).
                 exists e'. split; [exact He' | apply Hlater; exact Hin].
           ++ exact Hres.
           ++ rewrite length_app. cbn [List.length]. rewrite Hlen.
              replace (S (k - attempt)) with (S (S (k - S attempt))) by lia.
              rewrite (Hcount (S (k - S attempt))). lia.
        -- right. split; [|split; [exact Hres|split]].
           ++ intros k Hk. destruct (Nat.eq_dec k attempt) as [->|Hk'].
              ** exists e. split; [exact Hcheck | exact Hhere].
              ** destruct (Hall k ltac:(lia)) as (e' & He' & Hin).
                 exists e'. split; [exact He' | apply Hlater; exact Hin].
           ++ apply Hlater. exact Hfall.
           ++ rewrite length_app. cbn [List.length]. rewrite Hlen.
              replace (3 - attempt) with (S (3 - S attempt)) by lia.
              rewrite (Hcount (3 - S attempt)). lia.
Qed.

(** X1: [fetch_option_chain] never raises. It returns the payload of the
    first of its three attempts whose response passes the checks, or,
    when all three fail, the fallback payload. Every failed attempt leaves
    the warning of its [except] branch in the log, and the fallback its
    own; the log holds nothing else than the warnings that the attempts
    made log before their [except] branch, those of the session refresh
    and of the JSON decoding. *)
Theorem fetch_option_chain_returns :
  forall (responses : nat -> Response) (symbol : string),
    (exists k data,
        k < 3
        /\ check_response (responses k) = Ok data
        /\ (forall j, j < k ->
               exists e,
                 check_response (responses j) = Raised e
                 /\ In (attempt_failed j symbol e)
                      (snd (fetch_option_chain responses symbol)))
        /\ fst (fetch_option_chain responses symbol) = Ok data
        /\ List.length (snd (fetch_option_chain responses symbol))
           = k + warnings_before_except responses 0 (S k))
    \/ ((forall k, k < 3 ->
            exists e,
              check_response (responses k) = Raised e
              /\ In (attempt_failed k symbol e)
                   (snd (fetch_option_chain responses symbol)))
        /\ fst (fetch_option_chain responses symbol)
           = Ok (fst (_get_fallback_data symbol))
        /\ In (WARNING, "Using fallback data for " ++ symbol)
             (snd (fetch_option_chain responses symbol))
        /\ List.length (snd (fetch_option_chain responses symbol))
           = 3 + warnings_before_except responses 0 3 + 1).
Proof.
  intros responses symbol. unfold fetch_option_chain.
  destruct (fetch_loop_cases responses symbol 3 0 [] eq_refl ltac:(lia))
    as (added & Hlog & Hcases).
  rewrite Hlog. cbn [app].
  destruct Hcases as [(k & data & Hk & Hok & Hbefore & Hres & Hlen)
                     |(Hall & Hres & Hfall & Hlen)].
  - left. exists k, data.
    split; [lia|]. split; [exact Hok|].
    split; [intros j Hj; apply Hbefore; lia|].
    split; [exact Hres|]. rewrite Hlen, Nat.sub_0_r. reflexivity.
  - right. split; [intros k Hk; apply Hall; lia|].
    split; [exact Hres|]. split; [exact Hfall|].
    rewrite Hlen. reflexivity.
Qed.

Lemma check_response_has_records (r : Response) (data : pyval) :
  check_response r = Ok data ->
  truthy data = true /\ str_in "records" data = Ok true.
Proof.
  unfold check_response.
  destruct (transport_error r); [discriminate|].
  destruct (String.eqb (strip (text r)) ""); [discriminate|].
  destruct (prefix "<" (strip (text r))); [discriminate|].
  destruct (json r) as [payload|e]; [|discriminate].
  destruct (truthy payload) eqn:Htruthy; cbn [negb bind]; [|discriminate].
  destruct (str_in "records" payload) as [found|e] eqn:Hin; cbn [bind];
    [|discriminate].
  destruct found; cbn [negb]; [|discriminate].
  intros H. injection H as <-. split; [exact Htruthy | exact Hin].
Qed.

Section RecordsTest.
Context {RT : Runtime}.

(** What the test ["records" in data] lets through. *)
Lemma str_in_records (data : pyval) (symbol : string) :
  str_in "records" data = Ok true ->
  (exists items, data = PDict items /\ assoc "records" items <> None)
  \/ (exists text,
         data = PStr text /\ is_substring "records" text = true
         /\ forall now,
              parse_option_chain data symbol now
              = Raised (AttributeError "'str'"))
  \/ (exists items,
         data = PList items /\ In (PStr "records") items
         /\ forall now,
              parse_option_chain data symbol now
              = Raised (AttributeError "'list'")).
Proof.
  destruct data as [| | | |text|items|items]; cbn [str_in];
    try discriminate; intros H; injection H as H.
  - right. left. exists text. repeat split. exact H.
  - right. right. exists items. split; [reflexivity|]. split; [|reflexivity].
    apply existsb_exists in H. destruct H as (x & Hx & Heq).
    destruct x; try discriminate Heq. cbn in Heq.
    apply String.eqb_eq in Heq. subst. exact Hx.
  - left. exists items. split; [reflexivity|].
    destruct (assoc "records" items); [discriminate | discriminate H].
Qed.

End RecordsTest.

(** X2: whatever [fetch_option_chain] returns is truthy and passes the
    test ["records" in data], which is not the test of an object with
    that key: it is an object that has the key, such as the fallback
    payload, or a JSON string that contains the word, or a JSON list that
    holds it as an item, and on the last two [parse_option_chain] raises
    [AttributeError]. *)
Theorem fetch_option_chain_passes_the_records_test :
  forall (RT : Runtime) (responses : nat -> Response) (symbol : string),
  exists data,
    fst (fetch_option_chain responses symbol) = Ok data
    /\ truthy data = true
    /\ ((exists items, data = PDict items /\ assoc "records" items <> None)
        \/ (exists text,
               data = PStr text /\ is_substring "records" text = true
               /\ forall now,
                    parse_option_chain data symbol now
                    = Raised (AttributeError "'str'"))
        \/ (exists items,
               data = PList items /\ In (PStr "records") items
               /\ forall now,
                    parse_option_chain data symbol now
                    = Raised (AttributeError "'list'"))).
Proof.
  intros RT responses symbol. unfold fetch_option_chain.
  destruct (fetch_loop_cases responses symbol 3 0 [] eq_refl ltac:(lia))
    as (added & _ & [(k & data & _ & Hok & _ & Hres & _)|(_ & Hres & _)]).
  - exists data. split; [exact Hres|].
    destruct (check_response_has_records (responses k) data Hok)
      as [Htruthy Hin].
    split; [exact Htruthy|]. apply str_in_records. exact Hin.
  - eexists. split; [exact Hres|]. split; [reflexivity|].
    left. eexists. split; [reflexivity|]. discriminate.
Qed.

(** ** The JSON parser *)

Section ParserMore.
Context {RT : Runtime}.

Lemma parse_ok_rows (raw : pyval) (symbol : string) (now : Z)
    (calls puts : list OptionChainEntry) :
  parse_option_chain raw symbol now = Ok (calls, puts) ->
  exists rows underlying,
    rows_of raw = Ok rows
    /\ underlying_of raw = Ok underlying
    /\ parse_records rows symbol underlying now [] [] = Ok (calls, puts).
Proof.
  unfold parse_option_chain, rows_of, underlying_of, bind. intros H.
  destruct (py_get raw "records" (PDict [])) as [records|]; [|discriminate H].
  destruct (py_get records "data" (PList [])) as [data|]; [|discriminate H].
  destruct (py_get records "underlyingValue" PNone) as [u|]; [|discriminate H].
  destruct (py_iter data) as [rows|]; [|discriminate H].
  exists rows, u. repeat split. exact H.
Qed.

Lemma emitted_records (symbol : string) (underlying : pyval) (now : Z)
    (rows : list pyval) (calls puts : list OptionChainEntry) :
  parse_records rows symbol underlying now [] [] = Ok (calls, puts) ->
  (forall e, In e calls ->
             exists row side,
               emitted_from rows symbol CALL underlying now row side e)
  /\ (forall e, In e puts ->
                exists row side,
                  emitted_from rows symbol PUT underlying now row side e).
Proof.
  intros H. apply parse_records_provenance in H.
  destruct H as (nc & np & -> & -> & Hc & Hp). cbn [app].
  rewrite Forall_forall in Hc, Hp. split; assumption.
Qed.

Lemma create_option_entry_restamp (side : pyval) (symbol : string)
    (option_type : OptionType) (strike expiry underlying : pyval)
    (t1 t2 : Z) :
  _create_option_entry side symbol option_type strike expiry underlying t2
  = option_map (restamp t2)
      (_create_option_entry side symbol option_type strike expiry underlying
         t1).
Proof.
  unfold _create_option_entry.
  destruct (map_fields side (NSE_FIELD_MAPPING (value option_type)) [])
    as [mapped|]; [|reflexivity].
  destruct (py_float strike) as [sp|]; [|reflexivity].
  unfold new_OptionChainEntry.
  destruct (validate_prices (PFloat sp)) as [[sp'|]|]; try reflexivity.
  destruct (str_field expiry); [|reflexivity].
  destruct (optional_float_field underlying); [|reflexivity].
  cbv zeta. unfold bind.
  repeat match goal with
         | |- context [optional_field ?m ?f] =>
             destruct (optional_field m f); try reflexivity
         end.
Qed.

Lemma parse_records_restamp (symbol : string) (underlying : pyval)
    (t1 t2 : Z) :
  forall (rows : list pyval) (calls0 puts0 : list OptionChainEntry),
    parse_records rows symbol underlying t2
      (map (restamp t2) calls0) (map (restamp t2) puts0)
    = match parse_records rows symbol underlying t1 calls0 puts0 with
      | Ok (calls, puts) =>
          Ok (map (restamp t2) calls, map (restamp t2) puts)
      | Raised e => Raised e
      end.
Proof.
  induction rows as [|record rows IH]; intros calls0 puts0.
  - reflexivity.
  - cbn [parse_records].
    destruct record as [| | | | | |kv]; try reflexivity.
    rewrite !py_get_dict.
    destruct (truthy (get_or kv "strikePrice" PNone)); cbn [negb];
      [|apply IH].
    rewrite !parse_side_dict.
    assert (Hside : forall key ty (l : list OptionChainEntry),
               match assoc key kv with
               | Some side =>
                   match _create_option_entry side symbol ty
                           (get_or kv "strikePrice" PNone)
                           (get_or kv "expiryDate" (PStr "")) underlying t2
                   with
                   | Some entry => (map (restamp t2) l ++ [entry])%list
                   | None => map (restamp t2) l
                   end
               | None => map (restamp t2) l
               end
               = map (restamp t2)
                   match assoc key kv with
                   | Some side =>
                       match _create_option_entry side symbol ty
                               (get_or kv "strikePrice" PNone)
                               (get_or kv "expiryDate" (PStr "")) underlying
                               t1
                       with
                       | Some entry => (l ++ [entry])%list
                       | None => l
                       end
                   | None => l
                   end).
    { intros key ty l. destruct (assoc key kv) as [side|]; [|reflexivity].
      rewrite (create_option_entry_restamp side symbol ty _ _ _ t1 t2).
      destruct (_create_option_entry side symbol ty _ _ _ t1); cbn.
      - rewrite map_app. reflexivity.
      - reflexivity. }
    rewrite !Hside. apply IH.
Qed.

End ParserMore.

(** X3: Every record of one parse carries the symbol that was asked for, the
    one clock reading of that parse and the kind of its list; all of them
    carry the same underlying value; and the identifier of a record is
    built from the symbol, the kind and the raw strike and expiry of its
    row, not from the time. *)
Theorem parsed_records_share_stamp :
  forall (RT : Runtime) (raw : pyval) (symbol : string) (now : Z)
         (rows : list pyval) (calls puts : list OptionChainEntry),
    rows_of raw = Ok rows ->
    parse_option_chain raw symbol now = Ok (calls, puts) ->
    (forall e, In e calls -> type e = CALL)
    /\ (forall e, In e puts -> type e = PUT)
    /\ (forall e, In e (calls ++ puts) ->
           Models.symbol e = symbol /\ fetched_at e = now
           /\ exists row,
                In (PDict row) rows
                /\ identifier e
                   = symbol ++ "_" ++ value (type e) ++ "_"
                     ++ py_str (get_or row "strikePrice" PNone) ++ "_"
                     ++ py_str (get_or row "expiryDate" (PStr EmptyString)))
    /\ (forall e e', In e (calls ++ puts) -> In e' (calls ++ puts) ->
           underlying_value e = underlying_value e').
Proof.
  intros RT raw symbol now rows calls puts Hrows Hparse.
  destruct (parse_ok_rows raw symbol now calls puts Hparse)
    as (rows' & u & Hrows' & _ & Hrec).
  rewrite Hrows in Hrows'. injection Hrows' as <-.
  destruct (emitted_records symbol u now rows calls puts Hrec) as [Hc Hp].
  assert (Hall : forall e, In e (calls ++ puts) ->
             exists ty row side, emitted_from rows symbol ty u now row side e).
  { intros e Hin. apply in_app_or in Hin. destruct Hin as [Hin|Hin].
    - destruct (Hc e Hin) as (row & side & H). exists CALL, row, side. exact H.
    - destruct (Hp e Hin) as (row & side & H). exists PUT, row, side. exact H. }
  split; [|split; [|split]].
  - intros e Hin. destruct (Hc e Hin) as (row & side & _ & _ & _ & Hcreate).
    apply create_option_entry_inv in Hcreate.
    destruct Hcreate as (kv & _ & _ & _ & _ & _ & Hty & _). exact Hty.
  - intros e Hin. destruct (Hp e Hin) as (row & side & _ & _ & _ & Hcreate).
    apply create_option_entry_inv in Hcreate.
    destruct Hcreate as (kv & _ & _ & _ & _ & _ & Hty & _). exact Hty.
  - intros e Hin.
    destruct (Hall e Hin) as (ty & row & side & Hrow & _ & _ & Hcreate).
    apply create_option_entry_inv in Hcreate.
    destruct Hcreate as (kv & _ & _ & _ & _ & Hsym & Hty & Hnow & Hid & _).
    split; [exact Hsym|]. split; [exact Hnow|].
    exists row. split; [exact Hrow|]. rewrite Hty. exact Hid.
  - intros e e' Hin Hin'.
    destruct (Hall e Hin) as (ty & row & side & _ & _ & _ & Hcreate).
    destruct (Hall e' Hin') as (ty' & row' & side' & _ & _ & _ & Hcreate').
    apply create_option_entry_inv in Hcreate, Hcreate'.
    destruct Hcreate as (kv & _ & _ & _ & Hu & _).
    destruct Hcreate' as (kv' & _ & _ & _ & Hu' & _).
    rewrite Hu in Hu'. injection Hu' as Heq. exact Heq.
Qed.

(** The payload of the end-to-end scenario without market data. *)
Lemma parsed_records_share_stamp_witness :
  Models.symbol (Examples.bare_entry "NIFTY" CALL 25000 "30-Jan-2025" 7)
  = "NIFTY"
  /\ fetched_at (Examples.bare_entry "NIFTY" CALL 25000 "30-Jan-2025" 7)
     = 7%Z
  /\ exists row,
       In (PDict row)
          [PDict [("strikePrice", PInt 25000);
                  ("expiryDate", PStr "30-Jan-2025");
                  ("CE", PDict []); ("PE", PDict [])]]
       /\ identifier (Examples.bare_entry "NIFTY" CALL 25000 "30-Jan-2025" 7)
          = "NIFTY" ++ "_"
            ++ value (type (Examples.bare_entry "NIFTY" CALL 25000
                              "30-Jan-2025" 7))
            ++ "_"
            ++ py_str (RT := DecimalRuntime.runtime)
                 (get_or row "strikePrice" PNone) ++ "_"
            ++ py_str (RT := DecimalRuntime.runtime)
                 (get_or row "expiryDate" (PStr EmptyString)).
Proof.
  apply (proj1 (proj2 (proj2
           (parsed_records_share_stamp DecimalRuntime.runtime
              (PDict [("records",
                       PDict [("data",
                               PList [PDict [("strikePrice", PInt 25000);
                                             ("expiryDate", PStr "30-Jan-2025");
                                             ("CE", PDict []);
                                             ("PE", PDict [])]])])])
              "NIFTY" 7%Z _
              [Examples.bare_entry "NIFTY" CALL 25000 "30-Jan-2025" 7]
              [Examples.bare_entry "NIFTY" PUT 25000 "30-Jan-2025" 7]
              eq_refl eq_refl)))
           (Examples.bare_entry "NIFTY" CALL 25000 "30-Jan-2025" 7)
           (or_introl eq_refl)).
Defined.

(** X4: Parsing the same payload at another time gives the same records with
    the other time stamp, and raises when the first parse raises: nothing
    but [fetched_at] depends on the clock. *)
Theorem parse_depends_on_clock_by_stamp_only :
  forall (RT : Runtime) (raw : pyval) (symbol : string) (t1 t2 : Z),
    parse_option_chain raw symbol t2
    = match parse_option_chain raw symbol t1 with
      | Ok (calls, puts) =>
          Ok (map (restamp t2) calls, map (restamp t2) puts)
      | Raised e => Raised e
      end.
Proof.
  intros RT raw symbol t1 t2. unfold parse_option_chain, bind.
  destruct (py_get raw "records" (PDict [])) as [records|]; [|reflexivity].
  destruct (py_get records "data" (PList [])) as [data|]; [|reflexivity].
  destruct (py_get records "underlyingValue" PNone) as [u|]; [|reflexivity].
  destruct (py_iter data) as [rows|]; [|reflexivity].
  apply (parse_records_restamp symbol u t1 t2 rows [] []).
Qed.

Section ParserEdges.
Context {RT : Runtime}.

Lemma parse_records_raises (symbol : string) (underlying : pyval) (now : Z) :
  forall (rows : list pyval) (calls0 puts0 : list OptionChainEntry),
    existsb (fun r => negb (is_dict r)) rows = true ->
    exists e, parse_records rows symbol underlying now calls0 puts0 = Raised e.
Proof.
  induction rows as [|record rows IH]; intros calls0 puts0 Hbad.
  - discriminate Hbad.
  - cbn [existsb] in Hbad. cbn [parse_records].
    destruct record as [| | | | | |kv];
      try (cbn; eexists; reflexivity).
    cbn in Hbad. rewrite !py_get_dict.
    destruct (truthy (get_or kv "strikePrice" PNone)); cbn [negb].
    + rewrite !parse_side_dict. apply IH. exact Hbad.
    + apply IH. exact Hbad.
Qed.

Lemma create_option_entry_bad_underlying (side : pyval) (symbol : string)
    (option_type : OptionType) (strike expiry underlying : pyval) (now : Z) :
  optional_float_field underlying = None ->
  _create_option_entry side symbol option_type strike expiry underlying now
  = None.
Proof.
  intros Hbad. unfold _create_option_entry.
  destruct (map_fields side (NSE_FIELD_MAPPING (value option_type)) [])
    as [mapped|]; [|reflexivity].
  destruct (py_float strike) as [sp|]; [|reflexivity].
  unfold new_OptionChainEntry. rewrite Hbad.
  destruct (validate_prices (PFloat sp)) as [[sp'|]|]; try reflexivity.
  destruct (str_field expiry); reflexivity.
Qed.

Lemma parse_records_bad_underlying (symbol : string) (underlying : pyval)
    (now : Z) :
  optional_float_field underlying = None ->
  forall (rows : list pyval) (calls0 puts0 : list OptionChainEntry),
    (forall r, In r rows -> exists kv, r = PDict kv) ->
    parse_records rows symbol underlying now calls0 puts0
    = Ok (calls0, puts0).
Proof.
  intros Hbad. induction rows as [|record rows IH]; intros calls0 puts0 Hdict.
  - reflexivity.
  - destruct (Hdict record (or_introl eq_refl)) as [kv ->].
    assert (Hrest : forall r, In r rows -> exists kv', r = PDict kv')
      by (intros r Hr; apply Hdict; right; exact Hr).
    cbn [parse_records]. rewrite !py_get_dict.
    destruct (truthy (get_or kv "strikePrice" PNone)); cbn [negb];
      [|apply IH; exact Hrest].
    rewrite !parse_side_dict.
    destruct (assoc "CE" kv) as [ce|], (assoc "PE" kv) as [pe|];
      rewrite ?create_option_entry_bad_underlying by exact Hbad;
      apply IH; exact Hrest.
Qed.

Lemma parse_records_lengths (symbol : string) (underlying : pyval) (now : Z) :
  forall (rows : list pyval) (calls0 puts0 calls puts : list OptionChainEntry),
    parse_records rows symbol underlying now calls0 puts0 = Ok (calls, puts) ->
    List.length calls
    <= List.length calls0 + List.length (filter (has_side "CE") rows)
    /\ List.length puts
       <= List.length puts0 + List.length (filter (has_side "PE") rows).
Proof.
  induction rows as [|record rows IH]; intros calls0 puts0 calls puts H.
  - cbn in H. injection H as <- <-. cbn. lia.
  - cbn [parse_records] in H.
    destruct record as [| | | | | |kv]; try (cbn in H; discriminate H).
    rewrite !py_get_dict in H. cbn [filter has_side].
    destruct (truthy (get_or kv "strikePrice" PNone)); cbn [negb andb] in *.
    + rewrite !parse_side_dict in H. apply IH in H.
      destruct (assoc "CE" kv) as [ce|], (assoc "PE" kv) as [pe|];
        repeat match type of H with
               | context [_create_option_entry ?a ?b ?c ?d ?e ?f ?g] =>
                   destruct (_create_option_entry a b c d e f g)
               end;
        rewrite ?length_app in H; cbn [List.length] in *; lia.
    + apply IH in H. lia.
Qed.

End ParserEdges.

(** X5: On a payload whose [records.data] can be walked, the parser raises
    exactly when one of the rows is not an object; the records of the
    rows before it are then lost with it. *)
Theorem parse_raises_iff_a_row_is_no_object :
  forall (RT : Runtime) (raw : pyval) (symbol : string) (now : Z)
         (rows : list pyval),
    rows_of raw = Ok rows ->
    ((exists e, parse_option_chain raw symbol now = Raised e)
     <-> existsb (fun r => negb (is_dict r)) rows = true).
Proof.
  intros RT raw symbol now rows Hrows.
  destruct (parse_option_chain_rows raw symbol now rows Hrows)
    as (u & _ & ->).
  split.
  - intros [e He].
    destruct (existsb (fun r => negb (is_dict r)) rows) eqn:Hbad;
      [reflexivity|].
    destruct (parse_records_total symbol u now rows [] [])
      as (calls & puts & Hok).
    { intros r Hr. destruct r as [| | | | | |kv];
        try (exfalso;
             assert (Ht : existsb (fun r => negb (is_dict r)) rows = true)
               by (apply existsb_exists; eexists; split; [exact Hr|];
                   reflexivity);
             rewrite Ht in Hbad; discriminate Hbad).
      exists kv. reflexivity. }
    rewrite Hok in He. discriminate He.
  - apply parse_records_raises.
Qed.

(** A row that is a string among the rows. *)
Lemma parse_raises_iff_a_row_is_no_object_witness :
  exists e,
    parse_option_chain (RT := DecimalRuntime.runtime)
      (PDict [("records",
               PDict [("data",
                       PList [PDict [("strikePrice", PInt 25000);
                                     ("CE", PDict [])];
                              PStr "no data"])])])
      "NIFTY" 0 = Raised e.
Proof.
  apply (proj2 (parse_raises_iff_a_row_is_no_object DecimalRuntime.runtime
                  (PDict [("records",
                           PDict [("data",
                                   PList [PDict [("strikePrice", PInt 25000);
                                                 ("CE", PDict [])];
                                          PStr "no data"])])])
                  "NIFTY" 0%Z _ eq_refl)).
  reflexivity.
Defined.

(** X6: An entry holds, under each market field, the number that the side
    holds under the name of the exchange: an integer, zero included, or a
    float as it is, a boolean as 1 or 0, and a string that is neither
    empty nor a dash as [float] reads it. *)
Theorem market_fields_are_carried_over :
  forall (RT : Runtime) (kv : list (string * pyval)) (symbol : string)
         (option_type : OptionType) (strike expiry underlying : pyval)
         (now : Z) (e : OptionChainEntry) (f : MarketField),
    _create_option_entry (PDict kv) symbol option_type strike expiry
      underlying now = Some e ->
    (forall z, assoc (nse_name f) kv = Some (PInt z) ->
               get_field e f = Some (inject_Z z))
    /\ (forall q, assoc (nse_name f) kv = Some (PFloat q) ->
                  get_field e f = Some q)
    /\ (forall b, assoc (nse_name f) kv = Some (PBool b) ->
                  get_field e f = Some (if b then 1%Q else 0%Q))
    /\ (forall s, assoc (nse_name f) kv = Some (PStr s) ->
                  s <> EmptyString -> s <> "-" ->
                  get_field e f = float_of_str s).
Proof.
  intros RT kv symbol option_type strike expiry underlying now e f Hcreate.
  apply create_option_entry_inv in Hcreate.
  destruct Hcreate as (kv' & Hkv & _ & _ & _ & _ & _ & _ & _ & Hfields).
  injection Hkv as <-.
  assert (Hfield : forall v, assoc (nse_name f) kv = Some v ->
             Ok (get_field e f)
             = if kept v then validator_of f v else Ok None).
  { intros v Hv. rewrite <- Hfields. unfold optional_field.
    rewrite mapped_data_lookup. unfold get_or. rewrite Hv.
    destruct (kept v); reflexivity. }
  split; [|split; [|split]].
  - intros z Hz. specialize (Hfield _ Hz).
    rewrite validator_of_eq in Hfield. cbn in Hfield.
    match type of Hfield with
    | context [(?bound <=? Z.abs z)%Z] =>
        destruct (bound <=? Z.abs z)%Z; [discriminate Hfield|]
    end.
    injection Hfield as ->. reflexivity.
  - intros q Hq. specialize (Hfield _ Hq).
    rewrite validator_of_eq in Hfield. injection Hfield as ->. reflexivity.
  - intros b Hb. specialize (Hfield _ Hb).
    rewrite validator_of_eq in Hfield. injection Hfield as ->. reflexivity.
  - intros s Hs Hne Hdash. specialize (Hfield _ Hs).
    rewrite validator_of_eq in Hfield. unfold kept in Hfield. cbn in Hfield.
    destruct (String.eqb_spec s ""); [contradiction|].
    destruct (String.eqb_spec s "-"); [contradiction|].
    cbn in Hfield. injection Hfield as ->. reflexivity.
Qed.

(** A side whose open interest is the integer zero. *)
Lemma market_fields_are_carried_over_witness :
  get_field
    {| Models.symbol := "NIFTY"; type := CALL;
       strike_price := inject_Z 25000; expiry_date := "30-Jan-2025";
       identifier := "NIFTY_CE_25000_30-Jan-2025"; fetched_at := 0;
       open_interest := Some (inject_Z 0); change_in_oi := None;
       pchange_in_oi := None; last_price := Some 125.75%Q;
       change := None; pchange := None; total_traded_volume := None;
       implied_volatility := None; bid_qty := None; bid_price := None;
       ask_price := None; ask_qty := None;
       underlying_value := None |} Fopen_interest
  = Some (inject_Z 0).
Proof.
  apply (proj1 (market_fields_are_carried_over DecimalRuntime.runtime
                  [("openInterest", PInt 0); ("lastPrice", PFloat 125.75%Q)]
                  "NIFTY" CALL (PInt 25000) (PStr "30-Jan-2025") PNone 0%Z _
                  Fopen_interest eq_refl) 0%Z eq_refl).
Defined.

(** X7: When [records.underlyingValue] is there and [float] cannot read it,
    no record is emitted for any row: the validation of every entry fails
    and the parser returns two empty lists without an error. *)
Theorem unreadable_underlying_drops_every_record :
  forall (RT : Runtime) (raw : pyval) (symbol : string) (now : Z)
         (rows : list pyval) (underlying : pyval),
    rows_of raw = Ok rows ->
    underlying_of raw = Ok underlying ->
    (forall r, In r rows -> exists kv, r = PDict kv) ->
    underlying <> PNone ->
    py_float underlying = None ->
    parse_option_chain raw symbol now = Ok ([], []).
Proof.
  intros RT raw symbol now rows underlying Hrows Hu Hdict Hnone Hfloat.
  destruct (parse_option_chain_rows raw symbol now rows Hrows)
    as (u & Hu' & ->).
  rewrite Hu in Hu'. injection Hu' as <-.
  apply parse_records_bad_underlying; [|exact Hdict].
  unfold optional_float_field. rewrite Hfloat.
  destruct underlying; try reflexivity. contradiction.
Qed.

(** The payload of the scenario with the text [n.a.] as underlying value. *)
Lemma unreadable_underlying_drops_every_record_witness :
  parse_option_chain (RT := DecimalRuntime.runtime)
    (PDict [("records",
             PDict [("data",
                     PList [PDict [("strikePrice", PInt 25000);
                                   ("expiryDate", PStr "30-Jan-2025");
                                   ("CE", PDict [("lastPrice",
                                                  PFloat 125.75%Q)])]]);
                    ("underlyingValue", PStr "n.a.")])])
    "NIFTY" 0 = Ok ([], []).
Proof.
  apply (unreadable_underlying_drops_every_record DecimalRuntime.runtime
           _ "NIFTY" 0%Z
           [PDict [("strikePrice", PInt 25000);
                   ("expiryDate", PStr "30-Jan-2025");
                   ("CE", PDict [("lastPrice", PFloat 125.75%Q)])]]
           (PStr "n.a.")).
  - reflexivity.
  - reflexivity.
  - intros r [<-|[]]. eexists. reflexivity.
  - discriminate.
  - reflexivity.
Defined.

(** X8: The parser emits at most one call for each row that is an object
    with a truthy strike and a CE key, and at most one put for each such
    row with a PE key: a row without either side, or without a strike,
    adds nothing. *)
Theorem records_come_from_sides :
  forall (RT : Runtime) (raw : pyval) (symbol : string) (now : Z)
         (rows : list pyval) (calls puts : list OptionChainEntry),
    rows_of raw = Ok rows ->
    parse_option_chain raw symbol now = Ok (calls, puts) ->
    List.length calls <= List.length (filter (has_side "CE") rows)
    /\ List.length puts <= List.length (filter (has_side "PE") rows).
Proof.
  intros RT raw symbol now rows calls puts Hrows Hparse.
  destruct (parse_option_chain_rows raw symbol now rows Hrows)
    as (u & _ & Heq).
  rewrite Heq in Hparse.
  apply parse_records_lengths in Hparse. cbn [List.length] in Hparse. lia.
Qed.

(** The payload whose single row carries an empty CE side and no PE. *)
Lemma records_come_from_sides_witness :
  List.length [Examples.bare_entry "NIFTY" CALL 25000 "30-Jan-2025" 0]
  <= List.length
       (filter (has_side "CE")
          [PDict [("strikePrice", PInt 25000);
                  ("expiryDate", PStr "30-Jan-2025"); ("CE", PDict [])]])
  /\ List.length (@nil OptionChainEntry)
     <= List.length
          (filter (has_side "PE")
             [PDict [("strikePrice", PInt 25000);
                     ("expiryDate", PStr "30-Jan-2025"); ("CE", PDict [])]]).
Proof.
  apply (records_come_from_sides DecimalRuntime.runtime
           Examples.sparse_payload "NIFTY" 0%Z _ _ _ eq_refl eq_refl).
Defined.

(** ** The store *)

Section StoreMore.

Lemma has_key_app_l (stored more : list OptionChainEntry) (k : string * Z) :
  has_key stored k = true -> has_key (stored ++ more) k = true.
Proof. intros H. rewrite has_key_app, H. reflexivity. Qed.

(** What an unordered insert adds: some of the batch, as many as it
    counts, after which every key of the batch is in the collection. *)
Lemma insert_unordered_extends :
  forall (batch stored : list OptionChainEntry),
  exists added,
    insert_unordered stored batch = ((stored ++ added)%list, List.length added)
    /\ incl added batch
    /\ (forall d, In d batch ->
                  has_key (stored ++ added) (dedup_key d) = true).
Proof.
  induction batch as [|d batch IH]; intros stored; cbn [insert_unordered].
  - exists []. rewrite app_nil_r. split; [reflexivity|].
    split; [apply incl_refl | intros d []].
  - destruct (has_key stored (dedup_key d)) eqn:Hk.
    + destruct (IH stored) as (added & Heq & Hincl & Hkeys).
      exists added. split; [exact Heq|]. split.
      * apply incl_tl. exact Hincl.
      * intros d' [<-|Hd']; [apply has_key_app_l; exact Hk | apply Hkeys; exact Hd'].
    + destruct (IH (stored ++ [d])%list) as (added & Heq & Hincl & Hkeys).
      rewrite Heq. exists (d :: added). rewrite <- app_assoc. cbn [app].
      split; [reflexivity|]. split.
      * intros x [<-|Hx]; [left; reflexivity | right; apply Hincl; exact Hx].
      * intros d' [<-|Hd'].
        -- apply has_key_In. apply in_or_app. right. left. reflexivity.
        -- specialize (Hkeys d' Hd'). rewrite <- app_assoc in Hkeys.
           exact Hkeys.
Qed.

Lemma bulk_insert_extends (c c' : Collection)
    (options : list OptionChainEntry) (option_type : string) (s : BulkStats) :
  _bulk_insert_with_dedup c options option_type = (Ok s, c') ->
  exists added,
    documents c' = (documents c ++ added)%list
    /\ len added = inserted s
    /\ incl added options
    /\ (forall d, In d options ->
                  has_key (documents c') (dedup_key d) = true)
    /\ server_error c' = server_error c
    /\ (NoDup (map dedup_key (documents c)) ->
        NoDup (map dedup_key (documents c'))).
Proof.
  unfold _bulk_insert_with_dedup. destruct options as [|d options].
  - intros H. injection H as <- <-. exists []. rewrite app_nil_r.
    split; [reflexivity|]. split; [reflexivity|].
    split; [apply incl_refl|]. split; [intros d []|].
    split; [reflexivity | tauto].
  - unfold insert_many. destruct (server_error c) as [e|] eqn:Hup;
      [discriminate|].
    pose proof (insert_unordered_unique (d :: options) (documents c)) as Huniq.
    destruct (insert_unordered_extends (d :: options) (documents c))
      as (added & Heq & Hincl & Hkeys).
    rewrite Heq in *. cbn [fst] in Huniq.
    destruct (List.length added =? List.length (d :: options))%nat eqn:Hn;
      intros H; injection H as <- <-; cbn [documents server_error inserted];
      exists added.
    + split; [reflexivity|]. split; [rewrite len_seq; reflexivity|].
      repeat split; assumption.
    + split; [reflexivity|]. split; [reflexivity|].
      repeat split; assumption.
Qed.

(** A store of new records with distinct keys on a reachable server. *)
Lemma store_fresh (c : Collection)
    (call_options put_options : list OptionChainEntry) :
  server_error c = None ->
  NoDup (map dedup_key (call_options ++ put_options)) ->
  (forall d, In d (call_options ++ put_options) ->
             has_key (documents c) (dedup_key d) = false) ->
  exists c1,
    store_option_data c call_options put_options
    = (Ok {| calls_inserted := len call_options;
             puts_inserted := len put_options;
             calls_skipped := 0; puts_skipped := 0;
             total_processed := len call_options + len put_options |}, c1)
    /\ documents c1 = (documents c ++ call_options ++ put_options)%list
    /\ server_error c1 = None.
Proof.
  intros Hup Hnd Hfresh. rewrite map_app in Hnd.
  pose proof (NoDup_app_remove_r _ _ Hnd) as Hnd_calls.
  pose proof (NoDup_app_remove_l _ _ Hnd) as Hnd_puts.
  destruct (bulk_insert_fresh c call_options "CALL" Hup Hnd_calls)
    as (c1 & Hcalls & Hdocs1 & Hup1).
  { intros d Hd. apply Hfresh. apply in_or_app. left. exact Hd. }
  destruct (bulk_insert_fresh c1 put_options "PUT" Hup1 Hnd_puts)
    as (c2 & Hputs & Hdocs2 & Hup2).
  { intros d Hd. rewrite Hdocs1, has_key_app.
    rewrite (Hfresh d (in_or_app _ _ _ (or_intror Hd))). cbn [orb].
    apply has_key_false. intros Hin.
    clear - Hnd Hin Hd. induction (map dedup_key call_options) as [|k ks IH].
    - destruct Hin.
    - cbn in Hnd. inversion Hnd as [|? ? Hnot Hnd']; subst.
      destruct Hin as [->|Hin]; [|exact (IH Hnd' Hin)].
      apply Hnot. apply in_or_app. right. apply in_map. exact Hd. }
  exists c2. rewrite store_option_data_unfold, Hcalls, Hputs.
  split; [reflexivity|]. split; [|exact Hup2].
  rewrite Hdocs2, Hdocs1, app_assoc. reflexivity.
Qed.

Lemma store_extends :
  forall (c c' : Collection) (call_options put_options : list OptionChainEntry)
         (stats : StorageStats),
    store_option_data c call_options put_options = (Ok stats, c') ->
    exists added,
      documents c' = (documents c ++ added)%list
      /\ len added = (calls_inserted stats + puts_inserted stats)%Z
      /\ incl added (call_options ++ put_options)
      /\ (forall d, In d (call_options ++ put_options) ->
                    has_key (documents c') (dedup_key d) = true)
      /\ (NoDup (map dedup_key (documents c)) ->
          NoDup (map dedup_key (documents c'))).
Proof.
  intros c c' calls puts stats. rewrite store_option_data_unfold.
  destruct (_bulk_insert_with_dedup c calls "CALL") as [[cs|e] c1] eqn:Hc;
    [|discriminate].
  destruct (_bulk_insert_with_dedup c1 puts "PUT") as [[ps|e] c2] eqn:Hp;
    [|discriminate].
  intros H. injection H as <- <-. cbn [calls_inserted puts_inserted].
  apply bulk_insert_extends in Hc, Hp.
  destruct Hc as (a1 & Hd1 & Hl1 & Hi1 & Hk1 & _ & Hu1).
  destruct Hp as (a2 & Hd2 & Hl2 & Hi2 & Hk2 & _ & Hu2).
  exists (a1 ++ a2)%list.
  split; [rewrite Hd2, Hd1, app_assoc; reflexivity|].
  split; [unfold len in *; rewrite length_app; lia|].
  split; [|split].
  - intros x Hx. apply in_app_or in Hx. apply in_or_app.
    destruct Hx as [Hx|Hx]; [left; apply Hi1 | right; apply Hi2]; exact Hx.
  - intros d Hd. apply in_app_or in Hd. destruct Hd as [Hd|Hd].
    + rewrite Hd2. apply has_key_app_l. apply Hk1. exact Hd.
    + apply Hk2. exact Hd.
  - intros Hnd. apply Hu2. apply Hu1. exact Hnd.
Qed.

Lemma store_keeps_server (c c' : Collection)
    (call_options put_options : list OptionChainEntry) (stats : StorageStats) :
  store_option_data c call_options put_options = (Ok stats, c') ->
  server_error c' = server_error c.
Proof.
  rewrite store_option_data_unfold.
  destruct (_bulk_insert_with_dedup c call_options "CALL")
    as [[cs|e] ca] eqn:Hc; [|discriminate].
  destruct (_bulk_insert_with_dedup ca put_options "PUT")
    as [[ps|e] cb] eqn:Hp; [|discriminate].
  intros H. injection H as _ <-.
  apply bulk_insert_extends in Hc, Hp.
  destruct Hc as (a1 & _ & _ & _ & _ & Hs1 & _).
  destruct Hp as (a2 & _ & _ & _ & _ & Hs2 & _).
  rewrite Hs2, Hs1. reflexivity.
Qed.

End StoreMore.

(** X9: A store that returns only appends: the documents that were there stay
    as they were, in their order; what is added are records of the two
    lists, as many as the two insert counters say; afterwards every key of
    the two lists is in the collection; and if no two stored documents
    shared the key (identifier, fetched_at) before, none do after. *)
Theorem store_appends_and_keeps_index :
  forall (c c' : Collection) (call_options put_options : list OptionChainEntry)
         (stats : StorageStats),
    store_option_data c call_options put_options = (Ok stats, c') ->
    exists added,
      documents c' = (documents c ++ added)%list
      /\ len added = (calls_inserted stats + puts_inserted stats)%Z
      /\ incl added (call_options ++ put_options)
      /\ (forall d, In d (call_options ++ put_options) ->
                    has_key (documents c') (dedup_key d) = true)
      /\ (NoDup (map dedup_key (documents c)) ->
          NoDup (map dedup_key (documents c'))).
Proof. exact store_extends. Qed.

(** One call and one put into an empty collection. *)
Lemma store_appends_and_keeps_index_witness :
  exists added,
    [Examples.call_25000; Examples.put_25000] = ([] ++ added)%list
    /\ len added = (1 + 1)%Z
    /\ incl added ([Examples.call_25000] ++ [Examples.put_25000])
    /\ (forall d, In d ([Examples.call_25000] ++ [Examples.put_25000]) ->
                  has_key [Examples.call_25000; Examples.put_25000]
                    (dedup_key d) = true)
    /\ (NoDup (map dedup_key (@nil OptionChainEntry)) ->
        NoDup (map dedup_key [Examples.call_25000; Examples.put_25000])).
Proof.
  apply (store_appends_and_keeps_index Examples.empty_collection
           {| documents := [Examples.call_25000; Examples.put_25000];
              server_error := None; insert_many_calls := 2 |}
           [Examples.call_25000] [Examples.put_25000]
           {| calls_inserted := 1; puts_inserted := 1; calls_skipped := 0;
              puts_skipped := 0; total_processed := 1 + 1 |}).
  vm_compute. reflexivity.
Defined.

(** X10: On a reachable server, once two lists have been stored, storing the
    same two lists again inserts nothing and skips every record, whatever
    the lists hold (repeated keys included) and whatever was stored
    before; the documents stay as they are. *)
Theorem store_again_inserts_nothing :
  forall (c c1 : Collection) (call_options put_options : list OptionChainEntry)
         (stats : StorageStats),
    server_error c = None ->
    store_option_data c call_options put_options = (Ok stats, c1) ->
    exists c2,
      store_option_data c1 call_options put_options
      = (Ok {| calls_inserted := 0; puts_inserted := 0;
               calls_skipped := len call_options;
               puts_skipped := len put_options;
               total_processed := len call_options + len put_options |}, c2)
      /\ documents c2 = documents c1.
Proof.
  intros c c1 calls puts stats Hup Hstore.
  assert (Hup1 : server_error c1 = None)
    by (rewrite (store_keeps_server _ _ _ _ _ Hstore); exact Hup).
  destruct (store_extends c c1 calls puts stats Hstore)
    as (added & _ & _ & _ & Hkeys & _).
  destruct (bulk_insert_present c1 calls "CALL" Hup1) as (c2 & Hc2 & Hd2 & Hup2).
  { intros d Hd. apply Hkeys. apply in_or_app. left. exact Hd. }
  destruct (bulk_insert_present c2 puts "PUT" Hup2) as (c3 & Hc3 & Hd3 & _).
  { intros d Hd. rewrite Hd2. apply Hkeys. apply in_or_app. right. exact Hd. }
  exists c3. rewrite store_option_data_unfold, Hc2, Hc3.
  split; [reflexivity | rewrite Hd3, Hd2; reflexivity].
Qed.

(** One call and one put, stored twice. *)
Lemma store_again_inserts_nothing_witness :
  exists c2,
    store_option_data
      {| documents := [Examples.call_25000; Examples.put_25000];
         server_error := None; insert_many_calls := 2 |}
      [Examples.call_25000] [Examples.put_25000]
    = (Ok {| calls_inserted := 0; puts_inserted := 0;
             calls_skipped := len [Examples.call_25000];
             puts_skipped := len [Examples.put_25000];
             total_processed := len [Examples.call_25000]
                                + len [Examples.put_25000] |}, c2)
    /\ documents c2 = [Examples.call_25000; Examples.put_25000].
Proof.
  apply (store_again_inserts_nothing Examples.empty_collection
           {| documents := [Examples.call_25000; Examples.put_25000];
              server_error := None; insert_many_calls := 2 |}
           [Examples.call_25000] [Examples.put_25000]
           {| calls_inserted := 1; puts_inserted := 1; calls_skipped := 0;
              puts_skipped := 0; total_processed := 1 + 1 |}).
  - reflexivity.
  - vm_compute. reflexivity.
Defined.

(** X11: When the server cannot be reached and there is something to store,
    the store raises the error of the server and adds no document. *)
Theorem store_on_unreachable_server_raises :
  forall (c : Collection) (call_options put_options : list OptionChainEntry)
         (e : exn),
    server_error c = Some e ->
    call_options <> [] \/ put_options <> [] ->
    exists c',
      store_option_data c call_options put_options = (Raised e, c')
      /\ documents c' = documents c.
Proof.
  intros c calls puts e Hdown Hsome. unfold store_option_data.
  destruct calls as [|a calls].
  - destruct puts as [|b puts]; [destruct Hsome; congruence|].
    unfold _bulk_insert_with_dedup, insert_many. rewrite Hdown.
    eexists. split; reflexivity.
  - unfold _bulk_insert_with_dedup, insert_many. rewrite Hdown.
    eexists. split; reflexivity.
Qed.

(** One call offered to a server out of reach. *)
Lemma store_on_unreachable_server_raises_witness :
  exists c',
    store_option_data Examples.unreachable_collection [Examples.call_25000] []
    = (Raised (Exn "ServerSelectionTimeoutError" "No servers found yet"), c')
    /\ documents c' = [].
Proof.
  apply (store_on_unreachable_server_raises Examples.unreachable_collection
           [Examples.call_25000] []).
  - reflexivity.
  - left. discriminate.
Defined.

Section RefetchFacts.
Context {RT : Runtime}.

Lemma NoDup_keys_of_identifiers (l : list OptionChainEntry) :
  NoDup (map identifier l) -> NoDup (map dedup_key l).
Proof.
  intros H. apply (NoDup_map_inv fst). rewrite map_map. exact H.
Qed.

Lemma has_key_other_time (stored : list OptionChainEntry) (k : string * Z) :
  (forall d, In d stored -> fetched_at d <> snd k) ->
  has_key stored k = false.
Proof.
  intros Hother. apply has_key_false. intros Hin.
  apply in_map_iff in Hin. destruct Hin as (d & <- & Hd).
  apply (Hother d Hd). reflexivity.
Qed.

Lemma parsed_stamp (raw : pyval) (symbol : string) (now : Z)
    (calls puts : list OptionChainEntry) :
  parse_option_chain raw symbol now = Ok (calls, puts) ->
  forall e, In e (calls ++ puts) -> fetched_at e = now.
Proof.
  intros Hparse e Hin.
  destruct (parse_ok_rows raw symbol now calls puts Hparse)
    as (rows & u & _ & _ & Hrec).
  destruct (emitted_records symbol u now rows calls puts Hrec) as [Hc Hp].
  apply in_app_or in Hin.
  destruct Hin as [Hin|Hin];
    [destruct (Hc e Hin) as (row & side & _ & _ & _ & Hcreate)
    |destruct (Hp e Hin) as (row & side & _ & _ & _ & Hcreate)];
    apply create_option_entry_inv in Hcreate;
    destruct Hcreate as (kv & _ & _ & _ & _ & _ & _ & Hnow & _); exact Hnow.
Qed.

End RefetchFacts.

(** X12: A snapshot fetched again at a later time is stored again in full: the
    key of the unique index contains [fetched_at], which the parser takes
    from the clock, so that the records of an unchanged payload parsed at
    another time are all new to the store. *)
Theorem refetched_snapshot_is_stored_again :
  forall (RT : Runtime) (c : Collection) (raw : pyval) (symbol : string)
         (t1 t2 : Z) (calls puts : list OptionChainEntry),
    server_error c = None ->
    parse_option_chain raw symbol t1 = Ok (calls, puts) ->
    NoDup (map identifier (calls ++ puts)) ->
    t1 <> t2 ->
    (forall d, In d (documents c) -> fetched_at d <> t1 /\ fetched_at d <> t2) ->
    exists calls2 puts2 c1 c2,
      parse_option_chain raw symbol t2 = Ok (calls2, puts2)
      /\ store_option_data c calls puts
         = (Ok {| calls_inserted := len calls; puts_inserted := len puts;
                  calls_skipped := 0; puts_skipped := 0;
                  total_processed := len calls + len puts |}, c1)
      /\ store_option_data c1 calls2 puts2
         = (Ok {| calls_inserted := len calls; puts_inserted := len puts;
                  calls_skipped := 0; puts_skipped := 0;
                  total_processed := len calls + len puts |}, c2)
      /\ len (documents c2)
         = (len (documents c) + 2 * (len calls + len puts))%Z.
Proof.
  intros RT c raw symbol t1 t2 calls puts Hup Hparse Hids Htime Hfresh.
  pose proof (parsed_stamp raw symbol t1 calls puts Hparse) as Hstamp.
  assert (Hparse2 : parse_option_chain raw symbol t2
                    = Ok (map (restamp t2) calls, map (restamp t2) puts)).
  { unfold parse_option_chain, bind in *.
    destruct (py_get raw "records" (PDict [])) as [records|];
      [|discriminate Hparse].
    destruct (py_get records "data" (PList [])) as [data|];
      [|discriminate Hparse].
    destruct (py_get records "underlyingValue" PNone) as [u|];
      [|discriminate Hparse].
    destruct (py_iter data) as [rows|]; [|discriminate Hparse].
    rewrite (parse_records_restamp symbol u t1 t2 rows [] []).
    rewrite Hparse. reflexivity. }
  destruct (store_fresh c calls puts Hup (NoDup_keys_of_identifiers _ Hids))
    as (c1 & Hstore1 & Hdocs1 & Hup1).
  { intros d Hd. apply has_key_other_time. intros d' Hd'. cbn.
    rewrite (Hstamp d Hd). apply (Hfresh d' Hd'). }
  destruct (store_fresh c1 (map (restamp t2) calls) (map (restamp t2) puts) Hup1)
    as (c2 & Hstore2 & Hdocs2 & _).
  { apply NoDup_keys_of_identifiers. rewrite <- map_app, map_map.
    exact Hids. }
  { intros d Hd. apply has_key_other_time. intros d' Hd'.
    rewrite <- map_app in Hd. apply in_map_iff in Hd.
    destruct Hd as (d0 & <- & Hd0). cbn.
    rewrite Hdocs1 in Hd'. apply in_app_or in Hd'.
    destruct Hd' as [Hd'|Hd'].
    - apply (Hfresh d' Hd').
    - rewrite (Hstamp d' Hd'). exact Htime. }
  exists (map (restamp t2) calls), (map (restamp t2) puts), c1, c2.
  split; [exact Hparse2|]. split; [exact Hstore1|].
  split.
  - rewrite Hstore2. unfold len. rewrite !length_map. reflexivity.
  - rewrite Hdocs2, Hdocs1. unfold len.
    rewrite !length_app, !length_map. lia.
Qed.

(** The payload with one empty CE side, parsed at times 7 and 8 and stored in an
    empty collection. *)
Lemma refetched_snapshot_is_stored_again_witness :
  exists calls2 puts2 c1 c2,
    parse_option_chain (RT := DecimalRuntime.runtime)
      Examples.sparse_payload "NIFTY" 8 = Ok (calls2, puts2)
    /\ store_option_data Examples.empty_collection
         [Examples.bare_entry "NIFTY" CALL 25000 "30-Jan-2025" 7] []
       = (Ok {| calls_inserted := 1; puts_inserted := 0;
                calls_skipped := 0; puts_skipped := 0;
                total_processed := 1 + 0 |}, c1)
    /\ store_option_data c1 calls2 puts2
       = (Ok {| calls_inserted := 1; puts_inserted := 0;
                calls_skipped := 0; puts_skipped := 0;
                total_processed := 1 + 0 |}, c2)
    /\ len (documents c2) = (0 + 2 * (1 + 0))%Z.
Proof.
  apply (refetched_snapshot_is_stored_again DecimalRuntime.runtime
           Examples.empty_collection Examples.sparse_payload "NIFTY" 7%Z 8%Z
           [Examples.bare_entry "NIFTY" CALL 25000 "30-Jan-2025" 7] []).
  - reflexivity.
  - reflexivity.
  - cbn. constructor; [intros [] | constructor].
  - discriminate.
  - intros d [].
Defined.

(** ** Reading the collection *)

Section ReadFacts.

Lemma cursor_limit_nil {A : Type} (n : Z) (l : list A) :
  cursor_limit n l = [] -> l = [].
Proof.
  intros H. destruct l as [|x l]; [reflexivity|]. exfalso.
  unfold cursor_limit in H.
  destruct (Z.eqb_spec n 0) as [->|Hn]; [discriminate H|].
  destruct (Z.ltb_spec 0 n).
  - destruct (Z.to_nat n) eqn:Hcount; [lia | discriminate H].
  - unfold first_batch in H.
    destruct (Nat.min (Z.abs_nat n) 101) eqn:Hcount; [lia | discriminate H].
Qed.

Lemma sort_by_strike_nil (l : list OptionChainEntry) :
  sort_by_strike l = [] -> l = [].
Proof.
  intros H. pose proof (sort_by_strike_perm l) as Hperm. rewrite H in Hperm.
  apply Permutation_nil in Hperm. exact Hperm.
Qed.

Lemma filter_all {A : Type} (f : A -> bool) (l : list A) :
  (forall x, In x l -> f x = true) -> filter f l = l.
Proof.
  induction l as [|x l IH]; intros H; cbn.
  - reflexivity.
  - rewrite (H x (or_introl eq_refl)). f_equal.
    apply IH. intros y Hy. apply H. right. exact Hy.
Qed.

Lemma filter_none {A : Type} (f : A -> bool) (l : list A) :
  (forall x, In x l -> f x = false) -> filter f l = [].
Proof.
  induction l as [|x l IH]; intros H; cbn.
  - reflexivity.
  - rewrite (H x (or_introl eq_refl)).
    apply IH. intros y Hy. apply H. right. exact Hy.
Qed.

Lemma find_latest_none (docs : list OptionChainEntry) (symbol : string) :
  find_latest docs symbol None = None
  <-> forall d, In d docs -> Models.symbol d <> symbol.
Proof.
  pose proof (find_latest_spec symbol docs None) as Hspec.
  destruct (find_latest docs symbol None) as [r|].
  - destruct Hspec as ([Hr|[Hr Hs]] & _); [discriminate Hr|].
    split; [discriminate|]. intros Hnone. exfalso. exact (Hnone r Hr Hs).
  - destruct Hspec as [_ Hnone]. split; [intros _; exact Hnone | reflexivity].
Qed.

Lemma latest_empty_iff (c : Collection) (symbol : string) (limit : Z) :
  server_error c = None ->
  (get_latest_option_data c symbol limit = Ok ([], [])
   <-> forall d, In d (documents c) -> Models.symbol d <> symbol).
Proof.
  intros Hup. unfold get_latest_option_data. rewrite Hup.
  rewrite <- find_latest_none.
  pose proof (find_latest_spec symbol (documents c) None) as Hspec.
  destruct (find_latest (documents c) symbol None) as [r|];
    [|split; reflexivity].
  split; [|discriminate].
  intros H. exfalso.
  destruct Hspec as ([Hr|[Hr Hs]] & _); [discriminate Hr|].
  injection H as Hcalls Hputs.
  apply cursor_limit_nil, sort_by_strike_nil in Hcalls.
  apply cursor_limit_nil, sort_by_strike_nil in Hputs.
  assert (Hin : In r (find (documents c) symbol (type r) (fetched_at r)))
    by (apply find_In; repeat split; assumption).
  destruct (type r); [rewrite Hcalls in Hin | rewrite Hputs in Hin];
    destruct Hin.
Qed.

(** The latest snapshot after the store of a snapshot newer than all that
    is stored. *)
Lemma latest_after_store (c : Collection) (symbol : string) (t : Z)
    (call_options put_options : list OptionChainEntry) (limit : Z) :
  server_error c = None ->
  call_options <> [] \/ put_options <> [] ->
  (forall e, In e call_options ->
             Models.symbol e = symbol /\ type e = CALL /\ fetched_at e = t) ->
  (forall e, In e put_options ->
             Models.symbol e = symbol /\ type e = PUT /\ fetched_at e = t) ->
  NoDup (map identifier (call_options ++ put_options)) ->
  (forall d, In d (documents c) -> (fetched_at d < t)%Z) ->
  exists c1,
    store_option_data c call_options put_options
    = (Ok {| calls_inserted := len call_options;
             puts_inserted := len put_options;
             calls_skipped := 0; puts_skipped := 0;
             total_processed := len call_options + len put_options |}, c1)
    /\ get_latest_option_data c1 symbol limit
       = Ok (cursor_limit limit (sort_by_strike call_options),
             cursor_limit limit (sort_by_strike put_options)).
Proof.
  intros Hup Hsome Hcalls Hputs Hids Holder.
  destruct (store_fresh c call_options put_options Hup
              (NoDup_keys_of_identifiers _ Hids))
    as (c1 & Hstore & Hdocs & Hup1).
  { intros d Hd. apply has_key_other_time. intros d' Hd'. cbn.
    specialize (Holder d' Hd').
    apply in_app_or in Hd. destruct Hd as [Hd|Hd];
      [destruct (Hcalls d Hd) as (_ & _ & ->)
      |destruct (Hputs d Hd) as (_ & _ & ->)]; lia. }
  exists c1. split; [exact Hstore|].
  unfold get_latest_option_data. rewrite Hup1.
  pose proof (find_latest_spec symbol (documents c1) None) as Hspec.
  assert (Hnew : exists e, In e (call_options ++ put_options)
                           /\ Models.symbol e = symbol /\ fetched_at e = t).
  { destruct Hsome as [Hne|Hne].
    - destruct call_options as [|e l]; [congruence|].
      exists e. destruct (Hcalls e (or_introl eq_refl)) as (Hs & _ & Ht).
      split; [left; reflexivity | split; assumption].
    - destruct put_options as [|e l]; [congruence|].
      exists e. destruct (Hputs e (or_introl eq_refl)) as (Hs & _ & Ht).
      split; [apply in_or_app; right; left; reflexivity | split; assumption]. }
  destruct Hnew as (e & He & Hes & Het).
  destruct (find_latest (documents c1) symbol None) as [r|].
  2:{ destruct Hspec as [_ Hnone]. exfalso. apply (Hnone e); [|exact Hes].
      rewrite Hdocs. apply in_or_app. right. exact He. }
  destruct Hspec as ([Hr|[Hr Hrs]] & _ & Hmax); [discriminate Hr|].
  assert (Hrt : fetched_at r = t).
  { assert (Hle : (t <= fetched_at r)%Z).
    { rewrite <- Het. apply Hmax; [|exact Hes].
      rewrite Hdocs. apply in_or_app. right. exact He. }
    rewrite Hdocs in Hr. apply in_app_or in Hr. destruct Hr as [Hr|Hr].
    - specialize (Holder r Hr). lia.
    - apply in_app_or in Hr. destruct Hr as [Hr|Hr];
        [destruct (Hcalls r Hr) as (_ & _ & H)
        |destruct (Hputs r Hr) as (_ & _ & H)]; exact H. }
  rewrite Hrt.
  assert (Hfind : forall ty,
             find (documents c1) symbol ty t
             = (filter (fun d => OptionType_eqb (type d) ty) call_options
                ++ filter (fun d => OptionType_eqb (type d) ty) put_options)%list).
  { intros ty. unfold find. rewrite Hdocs, !filter_app.
    rewrite (filter_none _ (documents c)).
    2:{ intros d Hd. specialize (Holder d Hd).
        destruct (Z.eqb_spec (fetched_at d) t) as [Heq|Hne]; [lia|].
        apply andb_false_r. }
    cbn [app]. f_equal; apply filter_ext_in; intros d Hd.
    - destruct (Hcalls d Hd) as (-> & _ & ->).
      rewrite String.eqb_refl, Z.eqb_refl, andb_true_r. reflexivity.
    - destruct (Hputs d Hd) as (-> & _ & ->).
      rewrite String.eqb_refl, Z.eqb_refl, andb_true_r. reflexivity. }
  rewrite !Hfind.
  rewrite (filter_all (fun d => OptionType_eqb (type d) CALL) call_options).
  2:{ intros d Hd. destruct (Hcalls d Hd) as (_ & -> & _). reflexivity. }
  rewrite (filter_none (fun d => OptionType_eqb (type d) CALL) put_options).
  2:{ intros d Hd. destruct (Hputs d Hd) as (_ & -> & _). reflexivity. }
  rewrite (filter_none (fun d => OptionType_eqb (type d) PUT) call_options).
  2:{ intros d Hd. destruct (Hcalls d Hd) as (_ & -> & _). reflexivity. }
  rewrite (filter_all (fun d => OptionType_eqb (type d) PUT) put_options).
  2:{ intros d Hd. destruct (Hputs d Hd) as (_ & -> & _). reflexivity. }
  rewrite app_nil_r. reflexivity.
Qed.

End ReadFacts.

(** X13: On a reachable server, [get_latest_option_data] returns two empty
    lists exactly for a symbol of which no record is stored, whatever the
    limit: a symbol with records always gets at least one of them. *)
Theorem latest_is_empty_iff_symbol_unknown :
  forall (c : Collection) (symbol : string) (limit : Z),
    server_error c = None ->
    (get_latest_option_data c symbol limit = Ok ([], [])
     <-> forall d, In d (documents c) -> Models.symbol d <> symbol).
Proof. exact latest_empty_iff. Qed.

(** An empty collection holds nothing of BANKNIFTY. *)
Lemma latest_is_empty_iff_symbol_unknown_witness :
  get_latest_option_data Examples.empty_collection "BANKNIFTY" 100
  = Ok ([], []).
Proof.
  apply (proj2 (latest_is_empty_iff_symbol_unknown Examples.empty_collection
                  "BANKNIFTY" 100%Z eq_refl)).
  intros d [].
Defined.

(** X14: Round trip of a store and a read: after the store of the calls and
    puts of one symbol and one time stamp that is later than every stored
    one, every record is reported as inserted, and the latest snapshot of
    the symbol is made of these calls and these puts: each list is the
    beginning of an ordering of the stored list by ascending strike, and
    under a limit that is not negative it is cut short only by a limit
    other than 0, at as many records as the limit says. *)
Theorem stored_snapshot_is_the_latest :
  forall (c : Collection) (symbol : string) (t : Z)
         (call_options put_options : list OptionChainEntry) (limit : Z),
    server_error c = None ->
    call_options <> [] \/ put_options <> [] ->
    (forall e, In e call_options ->
               Models.symbol e = symbol /\ type e = CALL /\ fetched_at e = t) ->
    (forall e, In e put_options ->
               Models.symbol e = symbol /\ type e = PUT /\ fetched_at e = t) ->
    NoDup (map identifier (call_options ++ put_options)) ->
    (forall d, In d (documents c) -> (fetched_at d < t)%Z) ->
    (0 <= limit)%Z ->
    exists c1 stats calls puts more_calls more_puts,
      store_option_data c call_options put_options = (Ok stats, c1)
      /\ calls_inserted stats = len call_options
      /\ puts_inserted stats = len put_options
      /\ get_latest_option_data c1 symbol limit = Ok (calls, puts)
      /\ Permutation (calls ++ more_calls) call_options
      /\ Permutation (puts ++ more_puts) put_options
      /\ StronglySorted strike_le (calls ++ more_calls)
      /\ StronglySorted strike_le (puts ++ more_puts)
      /\ (more_calls <> [] ->
          limit <> 0%Z /\ List.length calls = Z.abs_nat limit)
      /\ (more_puts <> [] ->
          limit <> 0%Z /\ List.length puts = Z.abs_nat limit).
Proof.
  intros c symbol t calls puts limit Hup Hsome Hcalls Hputs Hids Holder
         Hlimit.
  destruct (latest_after_store c symbol t calls puts limit Hup Hsome Hcalls
              Hputs Hids Holder) as (c1 & Hstore & Hlatest).
  destruct (cursor_limit_split limit (sort_by_strike calls))
    as (more_calls & Hsplit_calls & _ & Hne_calls & Hcut_calls).
  destruct (cursor_limit_split limit (sort_by_strike puts))
    as (more_puts & Hsplit_puts & _ & Hne_puts & Hcut_puts).
  exists c1. eexists. eexists. eexists. exists more_calls, more_puts.
  split; [exact Hstore|]. split; [reflexivity|]. split; [reflexivity|].
  split; [exact Hlatest|].
  rewrite <- Hsplit_calls, <- Hsplit_puts.
  split; [apply sort_by_strike_perm|]. split; [apply sort_by_strike_perm|].
  split; [apply sort_by_strike_sorted|]. split; [apply sort_by_strike_sorted|].
  split; intros Hmore; (split; [auto | auto]).
Qed.

(** One call and one put of time 1000 into an empty collection. *)
Lemma stored_snapshot_is_the_latest_witness :
  exists c1 stats calls puts more_calls more_puts,
    store_option_data Examples.empty_collection [Examples.call_25000]
      [Examples.put_25000] = (Ok stats, c1)
    /\ calls_inserted stats = len [Examples.call_25000]
    /\ puts_inserted stats = len [Examples.put_25000]
    /\ get_latest_option_data c1 "NIFTY" 1 = Ok (calls, puts)
    /\ Permutation (calls ++ more_calls) [Examples.call_25000]
    /\ Permutation (puts ++ more_puts) [Examples.put_25000]
    /\ StronglySorted strike_le (calls ++ more_calls)
    /\ StronglySorted strike_le (puts ++ more_puts)
    /\ (more_calls <> [] -> 1%Z <> 0%Z /\ List.length calls = Z.abs_nat 1)
    /\ (more_puts <> [] -> 1%Z <> 0%Z /\ List.length puts = Z.abs_nat 1).
Proof.
  apply (stored_snapshot_is_the_latest Examples.empty_collection "NIFTY"
           1000%Z [Examples.call_25000] [Examples.put_25000] 1%Z).
  - reflexivity.
  - left. discriminate.
  - intros e [<-|[]]. repeat split.
  - intros e [<-|[]]. repeat split.
  - cbn. constructor; [|constructor; [intros []|constructor]].
    intros [H|[]]. vm_compute in H. discriminate H.
  - intros d [].
  - lia.
Defined.

(** ** Filtered queries *)

Section QueryFacts.
Import DatabaseQueries.

Lemma insert_by_time_perm (d : OptionChainEntry) :
  forall l, Permutation (insert_by_time d l) (d :: l).
Proof.
  induction l as [|x l IH]; cbn.
  - apply Permutation_refl.
  - destruct (fetched_at x <=? fetched_at d)%Z.
    + apply Permutation_refl.
    + apply Permutation_trans with (x :: d :: l).
      * apply perm_skip. exact IH.
      * apply perm_swap.
Qed.

Lemma sort_latest_first_perm (l : list OptionChainEntry) :
  Permutation (sort_latest_first l) l.
Proof.
  induction l as [|d l IH]; cbn.
  - apply perm_nil.
  - apply Permutation_trans with (d :: sort_latest_first l).
    + apply insert_by_time_perm.
    + apply perm_skip. exact IH.
Qed.

Lemma insert_by_time_sorted (d : OptionChainEntry) :
  forall l, StronglySorted later_or_equal l ->
            StronglySorted later_or_equal (insert_by_time d l).
Proof.
  induction l as [|x l IH]; intros Hs; cbn.
  - repeat constructor.
  - inversion Hs as [|? ? Hs' Hall]; subst.
    destruct (Z.leb_spec (fetched_at x) (fetched_at d)) as [Hle|Hgt].
    + constructor; [exact Hs|]. constructor; [exact Hle|].
      revert Hall. apply Forall_impl. intros y Hy.
      unfold later_or_equal in *. lia.
    + constructor; [apply IH; exact Hs'|].
      apply Forall_forall. intros y Hy.
      apply (Permutation_in y (insert_by_time_perm d l)) in Hy.
      destruct Hy as [<-|Hy]; [unfold later_or_equal; lia|].
      rewrite Forall_forall in Hall. apply Hall. exact Hy.
Qed.

Lemma sort_latest_first_sorted (l : list OptionChainEntry) :
  StronglySorted later_or_equal (sort_latest_first l).
Proof.
  induction l as [|d l IH]; cbn.
  - constructor.
  - apply insert_by_time_sorted. exact IH.
Qed.

Lemma StronglySorted_app_inv {A : Type} (R : A -> A -> Prop) (l1 l2 : list A) :
  StronglySorted R (l1 ++ l2) -> StronglySorted R l1 /\ StronglySorted R l2.
Proof.
  induction l1 as [|x l1 IH]; cbn; intros H.
  - split; [constructor | exact H].
  - inversion H as [|? ? Hs Hall]; subst.
    destruct (IH Hs) as [H1 H2]. split; [|exact H2].
    constructor; [exact H1|].
    apply Forall_app in Hall. apply Hall.
Qed.

Lemma StronglySorted_skipn {A : Type} (R : A -> A -> Prop) (n : nat)
    (l : list A) :
  StronglySorted R l -> StronglySorted R (skipn n l).
Proof.
  intros H. rewrite <- (firstn_skipn n l) in H.
  apply StronglySorted_app_inv in H. apply H.
Qed.

Lemma StronglySorted_cursor_limit {A : Type} (R : A -> A -> Prop) (n : Z)
    (l : list A) :
  StronglySorted R l -> StronglySorted R (cursor_limit n l).
Proof.
  intros H. destruct (cursor_limit_split n l) as (more & Hsplit & _).
  rewrite Hsplit in H. apply StronglySorted_app_inv in H. apply H.
Qed.

Lemma cursor_limit_In {A : Type} (n : Z) (l : list A) (x : A) :
  In x (cursor_limit n l) -> In x l.
Proof.
  intros H. destruct (cursor_limit_split n l) as (more & Hsplit & _).
  rewrite Hsplit. apply in_or_app. left. exact H.
Qed.

Lemma skipn_In {A : Type} (n : nat) (l : list A) (x : A) :
  In x (skipn n l) -> In x l.
Proof.
  intros H. rewrite <- (firstn_skipn n l). apply in_or_app. right. exact H.
Qed.

Lemma build_query_holds (f : OptionChainFilter) (d : OptionChainEntry) :
  forallb (fun c => holds c d) (build_query f) = true ->
  (forall s, symbol f = Some s -> s <> EmptyString -> Models.symbol d = s)
  /\ (forall t, option_type f = Some t -> type d = t)
  /\ (forall lo, strike_price_min f = Some lo -> (lo <= strike_price d)%Q)
  /\ (forall hi, strike_price_max f = Some hi -> (strike_price d <= hi)%Q)
  /\ (forall s, expiry_date f = Some s -> s <> EmptyString ->
                Models.expiry_date d = s).
Proof.
  unfold build_query. rewrite !forallb_app.
  rewrite !andb_true_iff. intros (Hsym & Hty & Hstrike & Hexp).
  split; [|split; [|split; [|split]]].
  - intros s Hs Hne. rewrite Hs in Hsym. cbn in Hsym.
    destruct (String.eqb_spec s ""); [contradiction|].
    cbn in Hsym. rewrite andb_true_r in Hsym.
    apply String.eqb_eq. exact Hsym.
  - intros t Ht. rewrite Ht in Hty. cbn in Hty.
    rewrite andb_true_r in Hty. apply String.eqb_eq in Hty.
    destruct (type d), t; cbn in Hty; try reflexivity; discriminate Hty.
  - intros lo Hlo. rewrite Hlo in Hstrike.
    destruct (strike_price_max f); cbn in Hstrike;
      rewrite andb_true_r in Hstrike; apply andb_true_iff in Hstrike;
      apply Qle_bool_iff; apply Hstrike.
  - intros hi Hhi. rewrite Hhi in Hstrike.
    destruct (strike_price_min f); cbn in Hstrike;
      rewrite andb_true_r in Hstrike;
      try (apply andb_true_iff in Hstrike);
      apply Qle_bool_iff; apply Hstrike.
  - intros s Hs Hne. rewrite Hs in Hexp. cbn in Hexp.
    destruct (String.eqb_spec s ""); [contradiction|].
    cbn in Hexp. rewrite andb_true_r in Hexp.
    apply String.eqb_eq. exact Hexp.
Qed.

Lemma filtered_data_facts (c : Collection) (f : OptionChainFilter)
    (found : list OptionChainEntry) :
  get_filtered_data c f = Ok found ->
  (0 <= offset f)%Z
  /\ found = cursor_limit (limit f)
               (skipn (Z.to_nat (offset f))
                  (sort_latest_first
                     (find_query (documents c) (build_query f)))).
Proof.
  unfold get_filtered_data.
  destruct (Z.ltb_spec (offset f) 0) as [Hneg|Hpos]; [discriminate|].
  destruct (server_error c); [discriminate|].
  intros H. injection H as <-. split; [exact Hpos | reflexivity].
Qed.

End QueryFacts.

(** X15: Whatever [get_filtered_data] returns is made of stored documents that
    satisfy every constraint of the filter: the symbol and the expiry
    date when they are given and not empty, the option type when given,
    each strike bound when given. The result is ordered latest first and,
    unless the limit is 0, holds at most as many documents as the limit
    says. *)
Theorem filtered_data_is_sound_sorted_and_bounded :
  forall (c : Collection) (f : DatabaseQueries.OptionChainFilter)
         (found : list OptionChainEntry),
    DatabaseQueries.get_filtered_data c f = Ok found ->
    (forall d, In d found ->
        In d (documents c)
        /\ (forall s, DatabaseQueries.symbol f = Some s -> s <> EmptyString ->
                      Models.symbol d = s)
        /\ (forall t, DatabaseQueries.option_type f = Some t -> type d = t)
        /\ (forall lo, DatabaseQueries.strike_price_min f = Some lo ->
                       (lo <= strike_price d)%Q)
        /\ (forall hi, DatabaseQueries.strike_price_max f = Some hi ->
                       (strike_price d <= hi)%Q)
        /\ (forall s, DatabaseQueries.expiry_date f = Some s ->
                      s <> EmptyString -> Models.expiry_date d = s))
    /\ StronglySorted later_or_equal found
    /\ (DatabaseQueries.limit f <> 0%Z ->
        List.length found <= Z.abs_nat (DatabaseQueries.limit f)).
Proof.
  intros c f found Hget.
  destruct (filtered_data_facts c f found Hget) as [_ ->].
  split; [|split].
  - intros d Hd. apply cursor_limit_In, skipn_In in Hd.
    apply (Permutation_in d (sort_latest_first_perm _)) in Hd.
    unfold DatabaseQueries.find_query in Hd. apply filter_In in Hd.
    destruct Hd as [Hin Hholds]. split; [exact Hin|].
    apply build_query_holds. exact Hholds.
  - apply StronglySorted_cursor_limit, StronglySorted_skipn.
    apply sort_latest_first_sorted.
  - intros Hlimit.
    match goal with
    | |- List.length (cursor_limit ?n ?l) <= _ =>
        destruct (cursor_limit_split n l) as (more & _ & Hbound & _)
    end.
    apply Hbound. exact Hlimit.
Qed.

(** The calls of NIFTY among one call and one put. *)
Lemma filtered_data_is_sound_sorted_and_bounded_witness :
  StronglySorted later_or_equal [Examples.call_25000].
Proof.
  apply (filtered_data_is_sound_sorted_and_bounded
           {| documents := [Examples.call_25000; Examples.put_25000];
              server_error := None; insert_many_calls := 2 |}
           {| DatabaseQueries.symbol := Some "NIFTY";
              DatabaseQueries.option_type := Some CALL;
              DatabaseQueries.strike_price_min := None;
              DatabaseQueries.strike_price_max := None;
              DatabaseQueries.expiry_date := None;
              DatabaseQueries.limit := 100;
              DatabaseQueries.offset := 0 |}
           [Examples.call_25000] eq_refl).
Defined.

(** ** Statistics of the collection *)

Section StatisticsFacts.
Import DatabaseQueries.

Lemma total_count_dict_set (g : list (string * Z)) (k : string) (v : Z) :
  total_count (dict_set g k v) = (total_count g - get_or g k 0 + v)%Z.
Proof.
  unfold get_or. induction g as [|[k0 v0] g IH]; cbn.
  - lia.
  - destruct (String.eqb k k0); cbn; [lia|].
    unfold total_count in IH. rewrite IH. lia.
Qed.

Lemma group_count_total (keys : list string) :
  forall g, total_count (group_count keys g) = (total_count g + len keys)%Z.
Proof.
  unfold len. induction keys as [|k keys IH]; intros g; cbn [group_count].
  - cbn. lia.
  - rewrite IH, total_count_dict_set. cbn [List.length]. lia.
Qed.

Lemma occurrences_cons (k k0 : string) (keys : list string) :
  occurrences k (k0 :: keys)
  = ((if String.eqb k k0 then 1 else 0) + occurrences k keys)%Z.
Proof.
  unfold occurrences, len. cbn [filter].
  destruct (String.eqb k k0); cbn [List.length]; lia.
Qed.

Lemma group_count_lookup (keys : list string) :
  forall g k,
    get_or (group_count keys g) k 0%Z
    = (get_or g k 0 + occurrences k keys)%Z.
Proof.
  induction keys as [|k0 keys IH]; intros g k; cbn [group_count].
  - unfold occurrences, len. cbn. lia.
  - rewrite IH, occurrences_cons. unfold get_or at 1.
    rewrite assoc_dict_set.
    destruct (String.eqb_spec k k0) as [->|Hne]; [lia|].
    fold (get_or g k 0%Z). lia.
Qed.

Lemma dict_set_NoDup {V : Type} (m : list (string * V)) (k : string) (v : V) :
  NoDup (map fst m) -> NoDup (map fst (dict_set m k v)).
Proof.
  induction m as [|[k0 v0] m IH]; cbn; intros Hnd.
  - constructor; [intros []|constructor].
  - inversion Hnd as [|? ? Hnotin Hnd']; subst.
    destruct (String.eqb_spec k k0) as [->|Hne]; cbn.
    + constructor; assumption.
    + constructor; [|apply IH; exact Hnd'].
      rewrite dict_set_keys. intros [Heq|Hin]; [congruence | contradiction].
Qed.

Lemma group_count_NoDup (keys : list string) :
  forall g, NoDup (map fst g) -> NoDup (map fst (group_count keys g)).
Proof.
  induction keys as [|k keys IH]; intros g Hnd; cbn [group_count].
  - exact Hnd.
  - apply IH, dict_set_NoDup, Hnd.
Qed.

Lemma assoc_In_NoDup {V : Type} (m : list (string * V)) (k : string) (v : V) :
  NoDup (map fst m) -> (assoc k m = Some v <-> In (k, v) m).
Proof.
  induction m as [|[k0 v0] m IH]; cbn; intros Hnd.
  - split; [discriminate | intros []].
  - inversion Hnd as [|? ? Hnotin Hnd']; subst.
    destruct (String.eqb_spec k k0) as [->|Hne].
    + split.
      * intros H. injection H as ->. left. reflexivity.
      * intros [H|H]; [congruence|].
        exfalso. apply Hnotin. apply (in_map fst) in H. exact H.
    + rewrite (IH Hnd'). split; [intros H; right; exact H|].
      intros [H|H]; [congruence | exact H].
Qed.

Lemma get_or_Permutation (m m' : list (string * Z)) (k : string) :
  Permutation m m' -> NoDup (map fst m) ->
  get_or m' k 0%Z = get_or m k 0%Z.
Proof.
  intros Hperm Hnd.
  assert (Hnd' : NoDup (map fst m')).
  { eapply Permutation_NoDup; [apply Permutation_map; exact Hperm | exact Hnd]. }
  unfold get_or.
  destruct (assoc k m) as [v|] eqn:Hm.
  - apply (assoc_In_NoDup m k v Hnd) in Hm.
    apply (Permutation_in _ Hperm) in Hm.
    apply (assoc_In_NoDup m' k v Hnd') in Hm. rewrite Hm. reflexivity.
  - destruct (assoc k m') as [v'|] eqn:Hm'; [|reflexivity].
    apply (assoc_In_NoDup m' k v' Hnd') in Hm'.
    apply (Permutation_in _ (Permutation_sym Hperm)) in Hm'.
    apply (assoc_In_NoDup m k v' Hnd) in Hm'. congruence.
Qed.

Lemma insert_by_count_perm (g : string * Z) :
  forall l, Permutation (g :: l) (insert_by_count g l).
Proof.
  induction l as [|x l IH]; cbn.
  - apply Permutation_refl.
  - destruct (snd x <=? snd g)%Z; [apply Permutation_refl|].
    eapply perm_trans; [apply perm_swap|]. apply perm_skip. exact IH.
Qed.

Lemma sort_by_count_perm (l : list (string * Z)) :
  Permutation l (sort_by_count l).
Proof.
  induction l as [|g l IH]; cbn.
  - apply perm_nil.
  - eapply perm_trans; [apply perm_skip; exact IH|].
    apply insert_by_count_perm.
Qed.

Lemma total_count_Permutation (m m' : list (string * Z)) :
  Permutation m m' -> total_count m = total_count m'.
Proof.
  unfold total_count.
  induction 1 as [|x l l' _ IH|x y l|l l' l'' _ IH1 _ IH2]; cbn; lia.
Qed.

Lemma insert_by_count_sorted (g : string * Z) :
  forall l,
    StronglySorted (fun a b => (snd b <= snd a)%Z) l ->
    StronglySorted (fun a b => (snd b <= snd a)%Z) (insert_by_count g l).
Proof.
  induction l as [|x l IH]; intros Hs; cbn.
  - constructor; [constructor | constructor].
  - inversion Hs as [|? ? Hs' Hall]; subst.
    destruct (Z.leb_spec (snd x) (snd g)) as [Hle|Hgt].
    + constructor; [exact Hs|].
      constructor; [exact Hle|].
      rewrite Forall_forall in *. intros y Hy. specialize (Hall y Hy). lia.
    + constructor; [apply IH; exact Hs'|].
      rewrite Forall_forall in *. intros y Hy.
      apply (Permutation_in _ (Permutation_sym (insert_by_count_perm g l)))
        in Hy.
      destruct Hy as [<-|Hy]; [lia | apply Hall; exact Hy].
Qed.

Lemma sort_by_count_sorted (l : list (string * Z)) :
  StronglySorted (fun a b => (snd b <= snd a)%Z) (sort_by_count l).
Proof.
  induction l as [|g l IH]; cbn.
  - constructor.
  - apply insert_by_count_sorted. exact IH.
Qed.

Lemma occurrences_map {A : Type} (key : A -> string) (k : string)
    (l : list A) :
  occurrences k (map key l)
  = len (filter (fun d => String.eqb k (key d)) l).
Proof.
  unfold occurrences, len. induction l as [|d l IH]; cbn.
  - reflexivity.
  - destruct (String.eqb k (key d)); cbn [List.length]; lia.
Qed.

Lemma find_latest_any_spec :
  forall (docs : list OptionChainEntry) (best : option OptionChainEntry),
    match find_latest_any docs best with
    | None => best = None /\ docs = []
    | Some r =>
        (best = Some r \/ In r docs)
        /\ (forall b, best = Some b -> (fetched_at b <= fetched_at r)%Z)
        /\ (forall d, In d docs -> (fetched_at d <= fetched_at r)%Z)
    end.
Proof.
  induction docs as [|d docs IH]; intros best; cbn [find_latest_any].
  - destruct best as [b|].
    + split; [left; reflexivity|]. split.
      * intros b' H. injection H as ->. lia.
      * intros d [].
    + split; reflexivity.
  - destruct best as [b|].
    + destruct (Z.ltb_spec (fetched_at b) (fetched_at d)) as [Hlt|Hge].
      * specialize (IH (Some d)).
        destruct (find_latest_any docs (Some d)) as [r|];
          [|destruct IH; discriminate].
        destruct IH as (Hwho & Hbest & Hall).
        specialize (Hbest d eq_refl).
        split; [|split].
        -- right. destruct Hwho as [H|H];
             [injection H as ->; left; reflexivity | right; exact H].
        -- intros b' H. injection H as ->. lia.
        -- intros d' [<-|Hd']; [exact Hbest | apply Hall; exact Hd'].
      * specialize (IH (Some b)).
        destruct (find_latest_any docs (Some b)) as [r|];
          [|destruct IH; discriminate].
        destruct IH as (Hwho & Hbest & Hall).
        specialize (Hbest b eq_refl).
        split; [|split].
        -- destruct Hwho as [H|H]; [left; exact H | right; right; exact H].
        -- intros b' H. injection H as ->. exact Hbest.
        -- intros d' [<-|Hd']; [lia | apply Hall; exact Hd'].
    + specialize (IH (Some d)).
      destruct (find_latest_any docs (Some d)) as [r|];
        [|destruct IH; discriminate].
      destruct IH as (Hwho & Hbest & Hall).
      specialize (Hbest d eq_refl).
      split; [|split].
      * right. destruct Hwho as [H|H];
          [injection H as ->; left; reflexivity | right; exact H].
      * intros b' H. discriminate.
      * intros d' [<-|Hd']; [exact Hbest | apply Hall; exact Hd'].
Qed.

(** What [get_statistics] returns, when it returns. *)
Lemma get_statistics_ok (c : Collection) (seconds_since : Z -> result Z)
    (s : Statistics) :
  get_statistics c seconds_since = Ok s ->
  total_records s = len (documents c)
  /\ records_by_symbol s
     = sort_by_count (group_count (map Models.symbol (documents c)) [])
  /\ records_by_type s
     = group_count (map (fun d => value (Models.type d)) (documents c)) []
  /\ latest_fetch_time s
     = match find_latest_any (documents c) None with
       | Some latest_doc => Some (fetched_at latest_doc)
       | None => None
       end
  /\ match latest_fetch_time s with
     | Some t => seconds_since t = Ok match data_freshness_seconds s with
                                      | Some f => f
                                      | None => 0%Z
                                      end
                 /\ data_freshness_seconds s <> None
     | None => data_freshness_seconds s = None
     end.
Proof.
  unfold get_statistics. destruct (server_error c); [discriminate|].
  destruct (find_latest_any (documents c) None) as [latest_doc|].
  - destruct (seconds_since (fetched_at latest_doc)) as [f|e] eqn:Hsince;
      [|discriminate].
    intros H. injection H as <-. cbn.
    repeat split; try reflexivity; [exact Hsince | discriminate].
  - intros H. injection H as <-. cbn. repeat split; reflexivity.
Qed.

End StatisticsFacts.

Section StatisticsMore.
Import DatabaseQueries.

Lemma group_count_positive (keys : list string) :
  forall g,
    Forall (fun x => (1 <= snd x)%Z) g ->
    Forall (fun x => (1 <= snd x)%Z) (group_count keys g).
Proof.
  induction keys as [|k keys IH]; intros g Hg; cbn [group_count].
  - exact Hg.
  - apply IH.
    assert (Hget : (0 <= get_or g k 0)%Z).
    { unfold get_or. clear IH. induction g as [|[k0 v0] g IHg]; cbn; [lia|].
      inversion Hg as [|? ? Hv Hg']; subst. cbn in Hv.
      destruct (String.eqb k k0); [lia | apply IHg; exact Hg']. }
    revert Hget. generalize (get_or g k 0%Z). intros n Hn.
    induction g as [|[k0 v0] g IHg]; cbn.
    + constructor; [cbn; lia | constructor].
    + inversion Hg as [|? ? Hv Hg']; subst.
      destruct (String.eqb k k0).
      * constructor; [cbn; lia | exact Hg'].
      * constructor; [exact Hv | apply IHg; exact Hg'].
Qed.

Lemma value_eqb (a b : OptionType) :
  String.eqb (value a) (value b) = OptionType_eqb a b.
Proof. destruct a, b; reflexivity. Qed.

Lemma statistics_groups (c : Collection) (seconds_since : Z -> result Z)
    (s : Statistics) :
  get_statistics c seconds_since = Ok s ->
  total_count (records_by_symbol s) = total_records s
  /\ total_count (records_by_type s) = total_records s
  /\ (forall k,
         get_or (records_by_symbol s) k 0%Z
         = count_if (fun d => String.eqb k (Models.symbol d)) (documents c))
  /\ (forall t,
         get_or (records_by_type s) (value t) 0%Z
         = count_if (fun d => OptionType_eqb t (type d)) (documents c))
  /\ StronglySorted (fun a b => (snd b <= snd a)%Z) (records_by_symbol s)
  /\ (forall k n, In (k, n) (records_by_symbol s) -> (1 <= n)%Z).
Proof.
  intros Hget.
  destruct (get_statistics_ok c seconds_since s Hget)
    as (-> & -> & -> & _).
  split; [|split; [|split; [|split; [|split]]]].
  - rewrite <- (total_count_Permutation _ _ (sort_by_count_perm _)).
    rewrite group_count_total. unfold len. rewrite length_map. cbn. lia.
  - rewrite group_count_total. unfold len. rewrite length_map. cbn. lia.
  - intros k.
    rewrite (get_or_Permutation _ _ k (sort_by_count_perm _))
      by (apply group_count_NoDup; constructor).
    rewrite group_count_lookup, occurrences_map. unfold count_if, get_or.
    cbn. lia.
  - intros t. rewrite group_count_lookup, occurrences_map.
    unfold count_if, get_or. cbn [assoc].
    rewrite (filter_ext _ (fun d => OptionType_eqb t (type d)))
      by (intros d; apply value_eqb).
    lia.
  - apply sort_by_count_sorted.
  - intros k n Hin.
    apply (Permutation_in _ (Permutation_sym (sort_by_count_perm _))) in Hin.
    pose proof (group_count_positive (map Models.symbol (documents c)) []
                  (Forall_nil _)) as Hpos.
    rewrite Forall_forall in Hpos. exact (Hpos _ Hin).
Qed.

Lemma statistics_latest (c : Collection) (seconds_since : Z -> result Z)
    (s : Statistics) :
  get_statistics c seconds_since = Ok s ->
  (latest_fetch_time s = None <-> documents c = [])
  /\ (latest_fetch_time s = None -> data_freshness_seconds s = None)
  /\ (forall t, latest_fetch_time s = Some t ->
        (exists d, In d (documents c) /\ fetched_at d = t)
        /\ (forall d, In d (documents c) -> (fetched_at d <= t)%Z)
        /\ exists f, data_freshness_seconds s = Some f
                     /\ seconds_since t = Ok f).
Proof.
  intros Hget.
  destruct (get_statistics_ok c seconds_since s Hget)
    as (_ & _ & _ & Hlatest & Hfresh).
  pose proof (find_latest_any_spec (documents c) None) as Hspec.
  destruct (find_latest_any (documents c) None) as [r|].
  - destruct Hspec as ([Hno|Hin] & _ & Hmax); [discriminate|].
    rewrite Hlatest in *. split; [|split].
    + split; [discriminate|]. intros Hnil. rewrite Hnil in Hin. destruct Hin.
    + discriminate.
    + intros t Ht. injection Ht as <-. split; [|split].
      * exists r. split; [exact Hin | reflexivity].
      * exact Hmax.
      * destruct Hfresh as [Hsince Hsome].
        destruct (data_freshness_seconds s) as [f|]; [|contradiction].
        exists f. split; [reflexivity | exact Hsince].
  - destruct Hspec as [_ Hnil]. rewrite Hlatest in *. split; [|split].
    + split; [intros _; exact Hnil | reflexivity].
    + intros _. exact Hfresh.
    + intros t Ht. discriminate.
Qed.

Lemma statistics_raise (c : Collection) (seconds_since : Z -> result Z)
    (e : exn) :
  get_statistics c seconds_since = Raised e
  <-> server_error c = Some e
      \/ (server_error c = None
          /\ exists d, In d (documents c)
                       /\ (forall d', In d' (documents c) ->
                                      (fetched_at d' <= fetched_at d)%Z)
                       /\ seconds_since (fetched_at d) = Raised e).
Proof.
  unfold get_statistics.
  pose proof (find_latest_any_spec (documents c) None) as Hspec.
  destruct (server_error c) as [e0|].
  - split.
    + intros H. injection H as ->. left. reflexivity.
    + intros [H|[H _]]; [injection H as ->; reflexivity | discriminate].
  - destruct (find_latest_any (documents c) None) as [r|].
    + destruct Hspec as ([Hno|Hin] & _ & Hmax); [discriminate|].
      split.
      * intros H. right. split; [reflexivity|]. exists r.
        split; [exact Hin|]. split; [exact Hmax|].
        destruct (seconds_since (fetched_at r)) as [f|e0];
          [discriminate | injection H as ->; reflexivity].
      * intros [H|[_ (d & Hd & Hdmax & Hsince)]]; [discriminate|].
        assert (Heq : fetched_at d = fetched_at r).
        { specialize (Hmax d Hd). specialize (Hdmax r Hin). lia. }
        rewrite <- Heq, Hsince. reflexivity.
    + destruct Hspec as [_ Hnil]. split; [discriminate|].
      intros [H|[_ (d & Hd & _)]]; [discriminate|].
      rewrite Hnil in Hd. destruct Hd.
Qed.

End StatisticsMore.

(** X16: The two groupings of [get_statistics] add up: the counters by symbol
    and the counters by type each sum to the total number of records; the
    counter of a symbol (of a type) is the number of the stored records of
    that symbol (type), 0 for one that is not listed; the symbols are
    listed by decreasing counter, and no listed counter is below 1. *)
Theorem statistics_counts_add_up :
  forall (c : Collection) (seconds_since : Z -> result Z)
         (s : DatabaseQueries.Statistics),
    DatabaseQueries.get_statistics c seconds_since = Ok s ->
    total_count (DatabaseQueries.records_by_symbol s)
    = DatabaseQueries.total_records s
    /\ total_count (DatabaseQueries.records_by_type s)
       = DatabaseQueries.total_records s
    /\ (forall k,
           get_or (DatabaseQueries.records_by_symbol s) k 0%Z
           = count_if (fun d => String.eqb k (Models.symbol d)) (documents c))
    /\ (forall t,
           get_or (DatabaseQueries.records_by_type s) (value t) 0%Z
           = count_if (fun d => OptionType_eqb t (type d)) (documents c))
    /\ StronglySorted (fun a b => (snd b <= snd a)%Z)
         (DatabaseQueries.records_by_symbol s)
    /\ (forall k n, In (k, n) (DatabaseQueries.records_by_symbol s) ->
                    (1 <= n)%Z).
Proof. exact statistics_groups. Qed.

(** One call and one put of NIFTY: two records of the symbol, one of each
    type. *)
Lemma statistics_counts_add_up_witness :
  total_count [("NIFTY", 2%Z)] = 2%Z
  /\ total_count [("CE", 1%Z); ("PE", 1%Z)] = 2%Z.
Proof.
  pose proof (statistics_counts_add_up
                {| documents := [Examples.call_25000; Examples.put_25000];
                   server_error := None; insert_many_calls := 2 |}
                (fun t => Ok (2000 - t)%Z)
                {| DatabaseQueries.total_records := 2;
                   DatabaseQueries.records_by_symbol := [("NIFTY", 2%Z)];
                   DatabaseQueries.records_by_type :=
                     [("CE", 1%Z); ("PE", 1%Z)];
                   DatabaseQueries.latest_fetch_time := Some 1000%Z;
                   DatabaseQueries.data_freshness_seconds := Some 1000%Z |}
                eq_refl) as (Hsymbol & Htype & _).
  split; [exact Hsymbol | exact Htype].
Defined.

(** X17: The latest fetch time of [get_statistics] is absent exactly when the
    collection is empty, and then the freshness is absent too; otherwise
    it is the time stamp of a stored record, no stored record is later,
    and the freshness is what the subtraction of that stamp from the clock
    gave. *)
Theorem statistics_report_the_latest_stamp :
  forall (c : Collection) (seconds_since : Z -> result Z)
         (s : DatabaseQueries.Statistics),
    DatabaseQueries.get_statistics c seconds_since = Ok s ->
    (DatabaseQueries.latest_fetch_time s = None <-> documents c = [])
    /\ (DatabaseQueries.latest_fetch_time s = None ->
        DatabaseQueries.data_freshness_seconds s = None)
    /\ (forall t, DatabaseQueries.latest_fetch_time s = Some t ->
          (exists d, In d (documents c) /\ fetched_at d = t)
          /\ (forall d, In d (documents c) -> (fetched_at d <= t)%Z)
          /\ exists f, DatabaseQueries.data_freshness_seconds s = Some f
                       /\ seconds_since t = Ok f).
Proof. exact statistics_latest. Qed.

(** A snapshot taken at 1000, read at 2000. *)
Lemma statistics_report_the_latest_stamp_witness :
  exists d, In d [Examples.call_25000; Examples.put_25000]
            /\ fetched_at d = 1000%Z.
Proof.
  pose proof (statistics_report_the_latest_stamp
                {| documents := [Examples.call_25000; Examples.put_25000];
                   server_error := None; insert_many_calls := 2 |}
                (fun t => Ok (2000 - t)%Z)
                {| DatabaseQueries.total_records := 2;
                   DatabaseQueries.records_by_symbol := [("NIFTY", 2%Z)];
                   DatabaseQueries.records_by_type :=
                     [("CE", 1%Z); ("PE", 1%Z)];
                   DatabaseQueries.latest_fetch_time := Some 1000%Z;
                   DatabaseQueries.data_freshness_seconds := Some 1000%Z |}
                eq_refl) as (_ & _ & Hlatest).
  destruct (Hlatest 1000%Z eq_refl) as (Hfrom & _). exact Hfrom.
Defined.

(** X18: [get_statistics] raises in two cases only: the server is unreachable
    (the error of the server), or the collection holds a record and the
    subtraction of its latest time stamp from the clock raises (that
    error). On an empty collection of a reachable server it never
    raises. *)
Theorem statistics_fail_with_server_or_clock :
  forall (c : Collection) (seconds_since : Z -> result Z) (e : exn),
    DatabaseQueries.get_statistics c seconds_since = Raised e
    <-> server_error c = Some e
        \/ (server_error c = None
            /\ exists d, In d (documents c)
                         /\ (forall d', In d' (documents c) ->
                                        (fetched_at d' <= fetched_at d)%Z)
                         /\ seconds_since (fetched_at d) = Raised e).
Proof. exact statistics_raise. Qed.

(** A clock with a time zone against stamps without one. *)
Lemma statistics_fail_with_server_or_clock_witness :
  DatabaseQueries.get_statistics
    {| documents := [Examples.call_25000];
       server_error := None; insert_many_calls := 1 |}
    (fun _ => Raised (TypeError
       "can't subtract offset-naive and offset-aware datetimes"))
  = Raised (TypeError
      "can't subtract offset-naive and offset-aware datetimes").
Proof.
  apply (statistics_fail_with_server_or_clock
           {| documents := [Examples.call_25000];
              server_error := None; insert_many_calls := 1 |}).
  right. split; [reflexivity|].
  exists Examples.call_25000. split; [left; reflexivity|].
  split; [|reflexivity].
  intros d' [<-|[]]. apply Z.le_refl.
Defined.

(** ** The connection to the server *)

Section ConnectFacts.
Import DatabaseQueries.

Lemma ping_loop_cases (pings : nat -> option exn) (max_retries : nat) :
  forall remaining attempt sleeps,
    attempt + remaining = max_retries ->
    0 < remaining ->
    (exists k,
        attempt <= k < max_retries
        /\ pings k = None
        /\ (forall j, attempt <= j < k -> pings j <> None)
        /\ ping_loop pings max_retries attempt remaining sleeps
           = (Ok tt, sleeps + (k - attempt)))
    \/ (exists e,
           (forall k, attempt <= k < max_retries -> pings k <> None)
           /\ pings (max_retries - 1) = Some e
           /\ ping_loop pings max_retries attempt remaining sleeps
              = (Raised e, sleeps + (max_retries - 1 - attempt))).
Proof.
  induction remaining as [|remaining IH]; intros attempt sleeps Hsum Hpos.
  - lia.
  - cbn [ping_loop]. destruct (pings attempt) as [e|] eqn:Hping.
    + destruct (Nat.eqb_spec attempt (max_retries - 1)) as [Hlast|Hmore].
      * right. exists e. split; [|split].
        -- intros k Hk. assert (k = attempt) as -> by lia. congruence.
        -- rewrite <- Hlast. exact Hping.
        -- f_equal. lia.
      * destruct (IH (S attempt) (S sleeps) ltac:(lia) ltac:(lia))
          as [(k & Hk & Hok & Hbefore & Hloop)|(e' & Hall & Hlast & Hloop)].
        -- left. exists k. split; [lia|]. split; [exact Hok|]. split.
           ++ intros j Hj. destruct (Nat.eq_dec j attempt) as [->|Hne];
                [congruence | apply Hbefore; lia].
           ++ rewrite Hloop. f_equal. lia.
        -- right. exists e'. split; [|split; [exact Hlast|]].
           ++ intros k Hk. destruct (Nat.eq_dec k attempt) as [->|Hne];
                [congruence | apply Hall; lia].
           ++ rewrite Hloop. f_equal. lia.
    + left. exists attempt. split; [lia|]. split; [exact Hping|]. split.
      * intros j Hj. lia.
      * f_equal. lia.
Qed.

End ConnectFacts.

(** X19: [_connect] pings the server at most three times. It succeeds at the
    first ping that answers, having slept once after each ping that
    failed before it; when the three pings fail it raises the error of the
    third, having slept twice. *)
Theorem connect_stops_at_the_first_ping_that_answers :
  forall pings : nat -> option exn,
    (exists k,
        k < 3 /\ pings k = None
        /\ (forall j, j < k -> pings j <> None)
        /\ DatabaseQueries._connect pings = (Ok tt, k))
    \/ (exists e,
           (forall k, k < 3 -> pings k <> None)
           /\ pings 2 = Some e
           /\ DatabaseQueries._connect pings = (Raised e, 2)).
Proof.
  intros pings. unfold DatabaseQueries._connect.
  destruct (ping_loop_cases pings 3 3 0 0 eq_refl ltac:(lia))
    as [(k & Hk & Hok & Hbefore & Hloop)|(e & Hall & Hlast & Hloop)].
  - left. exists k. split; [lia|]. split; [exact Hok|]. split.
    + intros j Hj. apply Hbefore. lia.
    + rewrite Hloop. f_equal. lia.
  - right. exists e. split; [|split; [exact Hlast | exact Hloop]].
    intros k Hk. apply Hall. lia.
Qed.

(** ** The counters of the pipeline *)

Section PipelineCounters.
Context {RT : Runtime}.

Lemma store_counters_sum (c c' : Collection)
    (call_options put_options : list OptionChainEntry) (st : StorageStats) :
  store_option_data c call_options put_options = (Ok st, c') ->
  (calls_inserted st + calls_skipped st = len call_options)%Z
  /\ (puts_inserted st + puts_skipped st = len put_options)%Z.
Proof.
  rewrite store_option_data_unfold.
  destruct (_bulk_insert_with_dedup c call_options "CALL")
    as [[cs|e] c1] eqn:Hc; [|discriminate].
  destruct (_bulk_insert_with_dedup c1 put_options "PUT")
    as [[ps|e] c2] eqn:Hp; [|discriminate].
  intros H. injection H as <- _. cbn.
  apply bulk_insert_counters in Hc. apply bulk_insert_counters in Hp.
  split; [apply Hc | apply Hp].
Qed.

(** One call of [run_single_cycle]: what it returns and what it leaves in
    the pipeline. *)
Lemma run_single_cycle_effect (self : DataPipeline) (symbol : string)
    (env : CycleEnv) :
  exists r self',
    run_single_cycle self symbol env = (Ok r, self')
    /\ symbols self' = symbols self
    /\ running self' = running self
    /\ total_cycles self' = total_cycles self
    /\ successful_cycles self' = successful_cycles self
    /\ failed_cycles self' = failed_cycles self
    /\ ((success r = false /\ storage r = None
         /\ calls_processed r = None /\ puts_processed r = None
         /\ stats self' = stats self)
        \/ (success r = true
            /\ exists st,
                 storage r = Some st
                 /\ calls_processed r
                    = Some (calls_inserted st + calls_skipped st)%Z
                 /\ puts_processed r
                    = Some (puts_inserted st + puts_skipped st)%Z
                 /\ total_calls_inserted (stats self')
                    = (total_calls_inserted (stats self) + calls_inserted st)%Z
                 /\ total_puts_inserted (stats self')
                    = (total_puts_inserted (stats self) + puts_inserted st)%Z
                 /\ total_calls_skipped (stats self')
                    = (total_calls_skipped (stats self) + calls_skipped st)%Z
                 /\ total_puts_skipped (stats self')
                    = (total_puts_skipped (stats self) + puts_skipped st)%Z)).
Proof.
  unfold run_single_cycle, cycle_body.
  destruct (fst (fetch_and_parse (responses env) symbol (clock_at_parse env)))
    as [[call_options put_options]|e].
  - destruct (store_option_data (db_service self) call_options put_options)
      as [[st|e] db] eqn:Hstore.
    + destruct (store_counters_sum _ _ _ _ _ Hstore) as [Hcalls Hputs].
      eexists. eexists. split; [reflexivity|]. cbn.
      repeat (split; [reflexivity|]).
      right. split; [reflexivity|]. exists st.
      rewrite Hcalls, Hputs. repeat split; reflexivity.
    + eexists. eexists. split; [reflexivity|]. cbn.
      repeat (split; [reflexivity|]).
      left. repeat split; reflexivity.
  - eexists. eexists. split; [reflexivity|]. cbn.
    repeat (split; [reflexivity|]).
    left. repeat split; reflexivity.
Qed.

(** The loop over the symbols of a tick: the counters of the cycles are
    not touched, the flag is the conjunction of the successes, and the
    statistics grow by what the stores returned. *)
Lemma for_symbols_effect :
  forall (todo : list string) (self : DataPipeline) (envs : nat -> CycleEnv)
         (ok : bool) (self' : DataPipeline) (ok' : bool)
         (outcomes : list (result CycleResult)),
    for_symbols self todo envs ok = (self', ok', outcomes) ->
    symbols self' = symbols self
    /\ total_cycles self' = total_cycles self
    /\ successful_cycles self' = successful_cycles self
    /\ failed_cycles self' = failed_cycles self
    /\ ok' = (ok && all_succeeded outcomes)%bool
    /\ total_calls_inserted (stats self')
       = (total_calls_inserted (stats self) + tally calls_inserted outcomes)%Z
    /\ total_puts_inserted (stats self')
       = (total_puts_inserted (stats self) + tally puts_inserted outcomes)%Z
    /\ total_calls_skipped (stats self')
       = (total_calls_skipped (stats self) + tally calls_skipped outcomes)%Z
    /\ total_puts_skipped (stats self')
       = (total_puts_skipped (stats self) + tally puts_skipped outcomes)%Z
    /\ (tally calls_inserted outcomes + tally calls_skipped outcomes
        = processed calls_processed outcomes)%Z
    /\ (tally puts_inserted outcomes + tally puts_skipped outcomes
        = processed puts_processed outcomes)%Z.
Proof.
  induction todo as [|symbol todo IH];
    intros self envs ok self' ok' outcomes Hloop.
  - cbn in Hloop. injection Hloop as <- <- <-. cbn.
    rewrite andb_true_r. repeat split; lia.
  - cbn [for_symbols] in Hloop. destruct (running self); cbn [negb] in Hloop.
    + destruct (run_single_cycle_effect self symbol (envs 0))
        as (r & self1 & Hrun & Hsym & _ & Htot & Hsucc & Hfail & Hcase).
      rewrite Hrun in Hloop.
      set (self2 := if signal (envs 0) then _signal_handler self1 else self1)
        in Hloop.
      assert (Hsame : symbols self2 = symbols self1
                      /\ total_cycles self2 = total_cycles self1
                      /\ successful_cycles self2 = successful_cycles self1
                      /\ failed_cycles self2 = failed_cycles self1
                      /\ stats self2 = stats self1).
      { unfold self2. destruct (signal (envs 0)); repeat split; reflexivity. }
      destruct Hsame as (Hsym2 & Htot2 & Hsucc2 & Hfail2 & Hstats2).
      destruct (for_symbols self2 todo (fun k => envs (S k))
                  (if success r then ok else false))
        as [[self3 ok3] outcomes3] eqn:Hrest.
      injection Hloop as <- <- <-.
      destruct (IH _ _ _ _ _ _ Hrest)
        as (Hsym3 & Htot3 & Hsucc3 & Hfail3 & Hok3 & Hci & Hpi & Hcs & Hps
            & Hcalls & Hputs).
      rewrite Hstats2 in Hci, Hpi, Hcs, Hps.
      split; [congruence|]. split; [congruence|]. split; [congruence|].
      split; [congruence|].
      cbn [all_succeeded forallb tally processed fold_right].
      fold (all_succeeded outcomes3).
      fold (tally calls_inserted outcomes3) (tally puts_inserted outcomes3)
        (tally calls_skipped outcomes3) (tally puts_skipped outcomes3)
        (processed calls_processed outcomes3)
        (processed puts_processed outcomes3).
      destruct Hcase as [(Hno & Hst & Hcp & Hpp & Hstats)
                        |(Hyes & st & Hst & Hcp & Hpp & Hci1 & Hpi1 & Hcs1
                          & Hps1)].
      * rewrite Hno in *. rewrite Hst, Hcp, Hpp. rewrite Hstats in *.
        split; [rewrite Hok3; destruct ok; reflexivity|].
        repeat split; assumption.
      * rewrite Hyes in *. rewrite Hst, Hcp, Hpp.
        split; [exact Hok3|].
        repeat split; lia.
    + injection Hloop as <- <- <-. cbn.
      rewrite andb_true_r. repeat split; lia.
Qed.

(** The tick after which the signal arrives stops at that cycle. *)
Lemma for_symbols_signal :
  forall (todo : list string) (self : DataPipeline) (envs : nat -> CycleEnv)
         (ok : bool) (k : nat),
    running self = true ->
    k < List.length todo ->
    signal (envs k) = true ->
    (forall j, j < k -> signal (envs j) = false) ->
    List.length (snd (for_symbols self todo envs ok)) = S k
    /\ running (fst (fst (for_symbols self todo envs ok))) = false.
Proof.
  induction todo as [|symbol todo IH]; intros self envs ok k Hrun Hk Hsig Hnot;
    [cbn in Hk; lia|].
  cbn [for_symbols]. rewrite Hrun. cbn [negb].
  destruct (run_single_cycle_effect self symbol (envs 0))
    as (r & self1 & Hcycle & _ & Hrun1 & _).
  rewrite Hcycle.
  destruct k as [|k].
  - rewrite Hsig.
    destruct todo as [|next todo]; cbn; [split; reflexivity|].
    split; reflexivity.
  - rewrite (Hnot 0 ltac:(lia)).
    specialize (IH self1 (fun j => envs (S j)) (if success r then ok else false)
                  k ltac:(congruence) ltac:(cbn in Hk; lia) Hsig
                  ltac:(intros j Hj; apply Hnot; lia)).
    destruct (for_symbols self1 todo (fun j => envs (S j))
                (if success r then ok else false)) as [[self3 ok3] outcomes3].
    cbn [fst snd List.length] in *. destruct IH as [Hlen Hoff].
    split; [lia | exact Hoff].
Qed.

Lemma for_symbols_no_signal :
  forall (todo : list string) (self : DataPipeline) (envs : nat -> CycleEnv)
         (ok : bool),
    running self = true ->
    (forall j, j < List.length todo -> signal (envs j) = false) ->
    List.length (snd (for_symbols self todo envs ok)) = List.length todo
    /\ running (fst (fst (for_symbols self todo envs ok))) = true.
Proof.
  induction todo as [|symbol todo IH]; intros self envs ok Hrun Hnot.
  - cbn. split; [reflexivity | exact Hrun].
  - cbn [for_symbols]. rewrite Hrun. cbn [negb].
    destruct (run_single_cycle_effect self symbol (envs 0))
      as (r & self1 & Hcycle & _ & Hrun1 & _).
    rewrite Hcycle, (Hnot 0 ltac:(cbn; lia)).
    specialize (IH self1 (fun j => envs (S j)) (if success r then ok else false)
                  ltac:(congruence)
                  ltac:(intros j Hj; apply Hnot; cbn; lia)).
    destruct (for_symbols self1 todo (fun j => envs (S j))
                (if success r then ok else false)) as [[self3 ok3] outcomes3].
    cbn [fst snd List.length] in *. destruct IH as [Hlen Hon].
    split; [lia | exact Hon].
Qed.

(** One tick: the accounts of the cycles and of the statistics. *)
Lemma run_tick_effect (self self' : DataPipeline) (envs : nat -> CycleEnv)
    (outcomes : list (result CycleResult)) :
  run_tick self envs = (self', outcomes) ->
  symbols self' = symbols self
  /\ total_cycles self' = (total_cycles self + 1)%Z
  /\ successful_cycles self'
     = (successful_cycles self + if all_succeeded outcomes then 1 else 0)%Z
  /\ failed_cycles self'
     = (failed_cycles self + if all_succeeded outcomes then 0 else 1)%Z
  /\ total_calls_inserted (stats self')
     = (total_calls_inserted (stats self) + tally calls_inserted outcomes)%Z
  /\ total_puts_inserted (stats self')
     = (total_puts_inserted (stats self) + tally puts_inserted outcomes)%Z
  /\ total_calls_skipped (stats self')
     = (total_calls_skipped (stats self) + tally calls_skipped outcomes)%Z
  /\ total_puts_skipped (stats self')
     = (total_puts_skipped (stats self) + tally puts_skipped outcomes)%Z
  /\ (tally calls_inserted outcomes + tally calls_skipped outcomes
      = processed calls_processed outcomes)%Z
  /\ (tally puts_inserted outcomes + tally puts_skipped outcomes
      = processed puts_processed outcomes)%Z.
Proof.
  unfold run_tick. cbn [symbols].
  match goal with
  | |- context [for_symbols ?s ?t ?e ?b] =>
      destruct (for_symbols s t e b) as [[self1 ok1] outcomes1] eqn:Hloop
  end.
  intros H. injection H as <- <-.
  destruct (for_symbols_effect _ _ _ _ _ _ _ Hloop)
    as (Hsym & Htot & Hsucc & Hfail & Hok & Hci & Hpi & Hcs & Hps
        & Hcalls & Hputs).
  cbn in *. subst ok1.
  repeat split; try assumption;
    destruct (all_succeeded outcomes1); lia.
Qed.

Lemma run_tick_consistent (self : DataPipeline) (envs : nat -> CycleEnv) :
  counters_consistent self ->
  counters_consistent (fst (run_tick self envs))
  /\ total_cycles (fst (run_tick self envs)) = (total_cycles self + 1)%Z
  /\ (successful_cycles self <= successful_cycles (fst (run_tick self envs)))%Z
  /\ (failed_cycles self <= failed_cycles (fst (run_tick self envs)))%Z.
Proof.
  intros (Hs & Hf & Hsum).
  destruct (run_tick self envs) as [self' outcomes] eqn:Htick.
  destruct (run_tick_effect _ _ _ _ Htick) as (_ & Htot & Hsucc & Hfail & _).
  cbn [fst]. unfold counters_consistent.
  destruct (all_succeeded outcomes); lia.
Qed.

Lemma while_running_consistent :
  forall (ticks : list (nat -> CycleEnv)) (self : DataPipeline),
    counters_consistent self ->
    counters_consistent (fst (while_running self ticks))
    /\ total_cycles (fst (while_running self ticks))
       = (total_cycles self + len (snd (while_running self ticks)))%Z
    /\ (successful_cycles self
        <= successful_cycles (fst (while_running self ticks)))%Z
    /\ (failed_cycles self
        <= failed_cycles (fst (while_running self ticks)))%Z.
Proof.
  unfold len.
  induction ticks as [|envs ticks IH]; intros self Hinv.
  - cbn. repeat split; [apply Hinv.. | lia | lia | lia].
  - cbn [while_running]. destruct (running self).
    + destruct (run_tick_consistent self envs Hinv)
        as (Hinv1 & Htot1 & Hs1 & Hf1).
      destruct (run_tick self envs) as [self1 outcomes].
      cbn [fst] in *.
      specialize (IH self1 Hinv1).
      destruct (while_running self1 ticks) as [self2 more].
      cbn [fst snd List.length] in *.
      destruct IH as (Hinv2 & Htot2 & Hs2 & Hf2).
      repeat split; [apply Hinv2.. | lia | lia | lia].
    + cbn. repeat split; [apply Hinv.. | lia | lia | lia].
Qed.

Lemma while_running_stopped (self : DataPipeline)
    (ticks : list (nat -> CycleEnv)) :
  running self = false -> while_running self ticks = (self, []).
Proof.
  intros Hoff. destruct ticks; cbn [while_running]; [reflexivity|].
  rewrite Hoff. reflexivity.
Qed.

End PipelineCounters.

Section StatusFacts.
Import PipelineStatus.

Lemma success_rate_bounds (self : DataPipeline) :
  counters_consistent self ->
  (0 <= success_rate (get_status self))%Q
  /\ (success_rate (get_status self) <= 100)%Q
  /\ (total_cycles self = 0%Z -> success_rate (get_status self) = 0%Q)
  /\ ((0 < total_cycles self)%Z ->
      (success_rate (get_status self) == 100)%Q <-> failed_cycles self = 0%Z).
Proof.
  intros (Hs & Hf & Hsum). unfold get_status. cbn [success_rate].
  destruct (total_cycles self) as [|t|t] eqn:Htot; cbn [Z.ltb Z.compare].
  - repeat split; try discriminate; try reflexivity; lia.
  - assert (Hle : (successful_cycles self <= Z.pos t)%Z) by lia.
    unfold Qdiv, Qinv, Qmult, Qle, Qeq, inject_Z. cbn.
    repeat split; try lia; try discriminate.
  - lia.
Qed.

Lemma new_DataPipeline_consistent (db : Collection)
    (symbols : option (list string)) :
  counters_consistent (new_DataPipeline db symbols)
  /\ total_cycles (new_DataPipeline db symbols) = 0%Z
  /\ Pipeline.symbols (new_DataPipeline db symbols) <> [].
Proof.
  unfold counters_consistent, new_DataPipeline. cbn.
  repeat split; try lia.
  destruct symbols as [[|s rest]|]; discriminate.
Qed.

End StatusFacts.

(** X20: Through a run of the pipeline the counters of the cycles stay
    consistent: none is negative, the successful and the failed cycles
    add up to the total, the total grows by one for each round of the loop
    that ran, and no counter ever decreases. *)
Theorem cycle_counters_add_up :
  forall {RT : Runtime} (self : DataPipeline) (ticks : list (nat -> CycleEnv)),
    counters_consistent self ->
    counters_consistent (fst (run_continuous self ticks))
    /\ total_cycles (fst (run_continuous self ticks))
       = (total_cycles self + len (snd (run_continuous self ticks)))%Z
    /\ (successful_cycles self
        <= successful_cycles (fst (run_continuous self ticks)))%Z
    /\ (failed_cycles self
        <= failed_cycles (fst (run_continuous self ticks)))%Z.
Proof.
  intros RT self ticks Hinv. unfold run_continuous.
  match goal with
  | |- context [while_running ?s ticks] =>
      apply (while_running_consistent ticks s)
  end.
  exact Hinv.
Qed.

(** Two rounds over two symbols, the first symbol failing in both. *)
Lemma cycle_counters_add_up_witness :
  counters_consistent
    (fst (run_continuous (RT := DecimalRuntime.runtime)
            (PipelineStatus.new_DataPipeline Examples.empty_collection
               (Some ["BANKNIFTY"; "NIFTY"]))
            [Examples.first_fails; Examples.first_fails])).
Proof.
  apply (cycle_counters_add_up (RT := DecimalRuntime.runtime)
           (PipelineStatus.new_DataPipeline Examples.empty_collection
              (Some ["BANKNIFTY"; "NIFTY"]))
           [Examples.first_fails; Examples.first_fails]).
  unfold counters_consistent. cbn. lia.
Defined.

(** X21: One round of the loop of [run_continuous] counts as successful exactly
    when every call of [run_single_cycle] it made returned a success, and
    as failed otherwise; a round that made no call counts as
    successful. *)
Theorem a_round_succeeds_iff_every_cycle_does :
  forall {RT : Runtime} (self : DataPipeline) (envs : nat -> CycleEnv),
    total_cycles (fst (run_tick self envs)) = (total_cycles self + 1)%Z
    /\ successful_cycles (fst (run_tick self envs))
       = (successful_cycles self
          + if all_succeeded (snd (run_tick self envs)) then 1 else 0)%Z
    /\ failed_cycles (fst (run_tick self envs))
       = (failed_cycles self
          + if all_succeeded (snd (run_tick self envs)) then 0 else 1)%Z.
Proof.
  intros RT self envs.
  destruct (run_tick self envs) as [self' outcomes] eqn:Htick.
  destruct (run_tick_effect _ _ _ _ Htick) as (_ & Htot & Hsucc & Hfail & _).
  cbn [fst snd]. split; [exact Htot|]. split; [exact Hsucc | exact Hfail].
Qed.

(** X22: Over one round of the loop, each cumulative statistic of the pipeline
    grows by the sum of the counter that the stores of the round returned,
    a failed cycle adding nothing; and what the round inserted and skipped
    of calls (of puts) is the number of calls (puts) that its successful
    cycles report as processed. *)
Theorem statistics_grow_by_what_the_stores_return :
  forall {RT : Runtime} (self : DataPipeline) (envs : nat -> CycleEnv),
    let self' := fst (run_tick self envs) in
    let outcomes := snd (run_tick self envs) in
    total_calls_inserted (stats self')
    = (total_calls_inserted (stats self) + tally calls_inserted outcomes)%Z
    /\ total_puts_inserted (stats self')
       = (total_puts_inserted (stats self) + tally puts_inserted outcomes)%Z
    /\ total_calls_skipped (stats self')
       = (total_calls_skipped (stats self) + tally calls_skipped outcomes)%Z
    /\ total_puts_skipped (stats self')
       = (total_puts_skipped (stats self) + tally puts_skipped outcomes)%Z
    /\ (tally calls_inserted outcomes + tally calls_skipped outcomes
        = processed calls_processed outcomes)%Z
    /\ (tally puts_inserted outcomes + tally puts_skipped outcomes
        = processed puts_processed outcomes)%Z.
Proof.
  intros RT self envs.
  destruct (run_tick self envs) as [self' outcomes] eqn:Htick.
  destruct (run_tick_effect _ _ _ _ Htick) as (_ & _ & _ & _ & Hstats).
  cbn [fst snd]. exact Hstats.
Qed.

(** X23: A termination signal that arrives during the cycle of the symbol at
    position [k] of a round ends the round there: the symbols after it are
    not processed, the pipeline is no longer running, and the loop makes
    no further round. Without a signal every symbol is processed and the
    pipeline keeps running. *)
Theorem a_signal_ends_the_round_and_the_loop :
  forall {RT : Runtime} (self : DataPipeline) (envs : nat -> CycleEnv),
    running self = true ->
    (forall k,
        k < List.length (symbols self) ->
        signal (envs k) = true ->
        (forall j, j < k -> signal (envs j) = false) ->
        List.length (snd (run_tick self envs)) = S k
        /\ running (fst (run_tick self envs)) = false
        /\ forall later,
             while_running (fst (run_tick self envs)) later
             = (fst (run_tick self envs), []))
    /\ ((forall j, j < List.length (symbols self) -> signal (envs j) = false) ->
        List.length (snd (run_tick self envs)) = List.length (symbols self)
        /\ running (fst (run_tick self envs)) = true).
Proof.
  intros RT self envs Hrun. unfold run_tick. cbn [symbols].
  match goal with
  | |- context [for_symbols ?s ?t ?e ?b] =>
      pose proof (fun k => for_symbols_signal t s e b k Hrun) as Hsignal;
      pose proof (for_symbols_no_signal t s e b Hrun) as Hquiet;
      destruct (for_symbols s t e b) as [[self1 ok1] outcomes1]
  end.
  cbn [fst snd running] in *. split.
  - intros k Hk Hsig Hnot. destruct (Hsignal k Hk Hsig Hnot) as [Hlen Hoff].
    split; [exact Hlen|]. split; [exact Hoff|].
    intros later. apply while_running_stopped. exact Hoff.
  - intros Hnot. exact (Hquiet Hnot).
Qed.

(** A quiet round over two symbols. *)
Lemma a_signal_ends_the_round_and_the_loop_witness :
  List.length
    (snd (run_tick (RT := DecimalRuntime.runtime)
            (fst (run_continuous (RT := DecimalRuntime.runtime)
                    (PipelineStatus.new_DataPipeline Examples.empty_collection
                       (Some ["BANKNIFTY"; "NIFTY"])) []))
            Examples.first_fails)) = 2.
Proof.
  apply (a_signal_ends_the_round_and_the_loop (RT := DecimalRuntime.runtime)
           (fst (run_continuous (RT := DecimalRuntime.runtime)
                   (PipelineStatus.new_DataPipeline Examples.empty_collection
                      (Some ["BANKNIFTY"; "NIFTY"])) []))
           Examples.first_fails eq_refl).
  intros j Hj. cbn in Hj.
  destruct j as [|[|j]]; [reflexivity | reflexivity | lia].
Defined.

(** X24: The success rate that [get_status] reports after a run of a newly
    built pipeline is a percentage: between 0 and 100, 0 when no round
    ran, and 100 exactly when a round ran and none failed. *)
Theorem success_rate_is_a_percentage :
  forall {RT : Runtime} (db : Collection) (symbols : option (list string))
         (ticks : list (nat -> CycleEnv)),
    let self' :=
      fst (run_continuous (PipelineStatus.new_DataPipeline db symbols) ticks) in
    let rate := PipelineStatus.success_rate (PipelineStatus.get_status self') in
    (0 <= rate)%Q /\ (rate <= 100)%Q
    /\ (total_cycles self' = 0%Z -> rate = 0%Q)
    /\ ((0 < total_cycles self')%Z ->
        (rate == 100)%Q <-> failed_cycles self' = 0%Z).
Proof.
  intros RT db symbols ticks self' rate.
  apply success_rate_bounds. unfold self', run_continuous.
  match goal with
  | |- context [while_running ?s ticks] =>
      apply (while_running_consistent ticks s)
  end.
  apply new_DataPipeline_consistent.
Qed.

(** ** The endpoint of the latest option chain *)

Section EndpointFacts.

Lemma latest_raises (c : Collection) (symbol : string) (limit : Z) (e : exn) :
  get_latest_option_data c symbol limit = Raised e <-> server_error c = Some e.
Proof.
  unfold get_latest_option_data. destruct (server_error c) as [e0|].
  - split; intros H; injection H as ->; reflexivity.
  - destruct (find_latest (documents c) symbol None); split; discriminate.
Qed.

(** What the two lists of [get_latest_option_data] are made of. *)
Lemma latest_snapshot_facts (c : Collection) (symbol : string) (limit : Z)
    (calls puts : list OptionChainEntry) :
  get_latest_option_data c symbol limit = Ok (calls, puts) ->
  server_error c = None
  /\ ((calls = [] /\ puts = []
       /\ forall d, In d (documents c) -> Models.symbol d <> symbol)
      \/ exists r,
           In r (documents c) /\ Models.symbol r = symbol
           /\ (forall d, In d (documents c) -> Models.symbol d = symbol ->
                         (fetched_at d <= fetched_at r)%Z)
           /\ (forall d, In d calls ->
                 In d (documents c) /\ Models.symbol d = symbol
                 /\ type d = CALL /\ fetched_at d = fetched_at r)
           /\ (forall d, In d puts ->
                 In d (documents c) /\ Models.symbol d = symbol
                 /\ type d = PUT /\ fetched_at d = fetched_at r)
           /\ (calls <> [] \/ puts <> [])).
Proof.
  unfold get_latest_option_data.
  destruct (server_error c); [discriminate|].
  pose proof (find_latest_spec symbol (documents c) None) as Hspec.
  destruct (find_latest (documents c) symbol None) as [r|].
  - destruct Hspec as ([Hr|[Hr Hs]] & _ & Hmax); [discriminate Hr|].
    intros H. injection H as <- <-. split; [reflexivity|]. right.
    exists r. split; [exact Hr|]. split; [exact Hs|]. split; [exact Hmax|].
    assert (Hmem : forall ty d,
               In d (cursor_limit limit
                       (sort_by_strike
                          (find (documents c) symbol ty (fetched_at r)))) ->
               In d (documents c) /\ Models.symbol d = symbol
               /\ type d = ty /\ fetched_at d = fetched_at r).
    { intros ty d Hd. apply cursor_limit_In in Hd.
      apply (Permutation_in d (sort_by_strike_perm _)) in Hd.
      apply find_In in Hd. exact Hd. }
    split; [apply Hmem|]. split; [apply Hmem|].
    assert (Hin : In r (find (documents c) symbol (type r) (fetched_at r)))
      by (apply find_In; repeat split; assumption).
    destruct (type r); [left | right]; intros Hnil;
      apply cursor_limit_nil, sort_by_strike_nil in Hnil;
      rewrite Hnil in Hin; destruct Hin.
  - destruct Hspec as [_ Hnone]. intros H. injection H as <- <-.
    split; [reflexivity|]. left. repeat split. exact Hnone.
Qed.

Variable upper : string -> string.

Lemma get_option_chain_cases (db : Collection) (symbol : string)
    (limit now : Z) :
  (forall status detail,
      BackendApp.get_option_chain upper db symbol limit now
      = BackendApp.HTTPException status detail ->
      (status = 500
       /\ exists e, server_error db = Some e
                    /\ detail = "Failed to get option chain: " ++ exn_msg e)
      \/ (status = 404 /\ server_error db = None
          /\ (forall d, In d (documents db) ->
                        Models.symbol d <> upper symbol)
          /\ detail = "No data found for symbol " ++ upper symbol))
  /\ (forall body,
         BackendApp.get_option_chain upper db symbol limit now
         = BackendApp.Returned body ->
         server_error db = None
         /\ BackendApp.symbol body = upper symbol
         /\ get_latest_option_data db (upper symbol) limit
            = Ok (BackendApp.calls body, BackendApp.puts body)
         /\ BackendApp.total_calls body = len (BackendApp.calls body)
         /\ BackendApp.total_puts body = len (BackendApp.puts body)
         /\ (exists d, In d (documents db) /\ Models.symbol d = upper symbol
                       /\ fetched_at d = BackendApp.timestamp body)
         /\ (forall d, In d (documents db) -> Models.symbol d = upper symbol ->
                       (fetched_at d <= BackendApp.timestamp body)%Z)
         /\ (forall d, In d (BackendApp.calls body ++ BackendApp.puts body) ->
                       fetched_at d = BackendApp.timestamp body))
  /\ (server_error db = None ->
      (exists d, In d (documents db) /\ Models.symbol d = upper symbol) ->
      exists body,
        BackendApp.get_option_chain upper db symbol limit now
        = BackendApp.Returned body).
Proof.
  unfold BackendApp.get_option_chain.
  destruct (get_latest_option_data db (upper symbol) limit)
    as [[calls puts]|e] eqn:Hget.
  - destruct (latest_snapshot_facts _ _ _ _ _ Hget)
      as [Hup [(-> & -> & Hnone)|(r & Hr & Hs & Hmax & Hcalls & Hputs & Hsome)]].
    + split; [|split].
      * intros status detail H. injection H as <- <-. right.
        repeat split; [exact Hup | exact Hnone].
      * intros body H. discriminate H.
      * intros _ (d & Hd & Hsym). exfalso. exact (Hnone d Hd Hsym).
    + assert (Hstamp : match calls with
                       | c :: _ => fetched_at c
                       | [] => match puts with
                               | p :: _ => fetched_at p
                               | [] => now
                               end
                       end = fetched_at r).
      { destruct calls as [|c calls].
        - destruct puts as [|p puts]; [destruct Hsome; congruence|].
          apply (Hputs p). left. reflexivity.
        - apply (Hcalls c). left. reflexivity. }
      split; [|split].
      * intros status detail H. exfalso.
        destruct calls; [destruct puts|]; try discriminate H.
        destruct Hsome; congruence.
      * intros body H.
        assert (Hbody :
                  body
                  = {| BackendApp.symbol := upper symbol;
                       BackendApp.underlying_value :=
                         match match calls with
                               | c :: _ => Some c
                               | [] => match puts with
                                       | p :: _ => Some p
                                       | [] => None
                                       end
                               end with
                         | Some d => Models.underlying_value d
                         | None => None
                         end;
                       BackendApp.timestamp :=
                         match match calls with
                               | c :: _ => Some c
                               | [] => match puts with
                                       | p :: _ => Some p
                                       | [] => None
                                       end
                               end with
                         | Some d => fetched_at d
                         | None => now
                         end;
                       BackendApp.total_calls := len calls;
                       BackendApp.total_puts := len puts;
                       BackendApp.calls := calls;
                       BackendApp.puts := puts |}).
        { destruct calls; [destruct puts|]; try discriminate H;
            injection H as <-; reflexivity. }
        clear H. subst body. cbn.
        assert (Hstamp' :
                  match match calls with
                        | c :: _ => Some c
                        | [] => match puts with
                                | p :: _ => Some p
                                | [] => None
                                end
                        end with
                  | Some d => fetched_at d
                  | None => now
                  end = fetched_at r).
        { rewrite <- Hstamp. destruct calls; [destruct puts|]; reflexivity. }
        rewrite Hstamp'.
        split; [exact Hup|]. split; [reflexivity|]. split; [reflexivity|].
        split; [reflexivity|]. split; [reflexivity|]. split.
        -- exists r. repeat split; assumption.
        -- split; [exact Hmax|].
           intros d Hd. apply in_app_or in Hd.
           destruct Hd as [Hd|Hd]; [apply (Hcalls d Hd) | apply (Hputs d Hd)].
      * intros _ _.
        destruct calls; [destruct puts|]; try (eexists; reflexivity).
        destruct Hsome; congruence.
  - apply latest_raises in Hget. split; [|split].
    + intros status detail H. injection H as <- <-. left.
      split; [reflexivity|]. exists e. split; [exact Hget | reflexivity].
    + intros body H. discriminate H.
    + intros Hup. congruence.
Qed.

End EndpointFacts.

(** X25: The endpoint [/option-chain/{symbol}] answers 500 exactly when the
    server of the database is unreachable and 404 exactly when no stored
    record carries the symbol in upper case; otherwise it returns the
    latest snapshot of that symbol: the two lists of
    [get_latest_option_data], their lengths as totals, and as time stamp
    the greatest [fetched_at] stored for the symbol, which every returned
    record carries. *)
Theorem option_chain_endpoint_answers :
  forall (upper : string -> string) (db : Collection) (symbol : string)
         (limit now : Z),
    (forall status detail,
        BackendApp.get_option_chain upper db symbol limit now
        = BackendApp.HTTPException status detail ->
        (status = 500
         /\ exists e, server_error db = Some e
                      /\ detail = "Failed to get option chain: " ++ exn_msg e)
        \/ (status = 404 /\ server_error db = None
            /\ (forall d, In d (documents db) ->
                          Models.symbol d <> upper symbol)
            /\ detail = "No data found for symbol " ++ upper symbol))
    /\ (forall body,
           BackendApp.get_option_chain upper db symbol limit now
           = BackendApp.Returned body ->
           server_error db = None
           /\ BackendApp.symbol body = upper symbol
           /\ get_latest_option_data db (upper symbol) limit
              = Ok (BackendApp.calls body, BackendApp.puts body)
           /\ BackendApp.total_calls body = len (BackendApp.calls body)
           /\ BackendApp.total_puts body = len (BackendApp.puts body)
           /\ (exists d, In d (documents db) /\ Models.symbol d = upper symbol
                         /\ fetched_at d = BackendApp.timestamp body)
           /\ (forall d, In d (documents db) ->
                         Models.symbol d = upper symbol ->
                         (fetched_at d <= BackendApp.timestamp body)%Z)
           /\ (forall d, In d (BackendApp.calls body ++ BackendApp.puts body) ->
                         fetched_at d = BackendApp.timestamp body))
    /\ (server_error db = None ->
        (exists d, In d (documents db) /\ Models.symbol d = upper symbol) ->
        exists body,
          BackendApp.get_option_chain upper db symbol limit now
          = BackendApp.Returned body).
Proof. exact get_option_chain_cases. Qed.

(** A request for [nifty] against one stored call and one stored put of
    NIFTY. *)
Lemma option_chain_endpoint_answers_witness :
  exists body,
    BackendApp.get_option_chain SpecMore.upper
      {| documents := [Examples.call_25000; Examples.put_25000];
         server_error := None; insert_many_calls := 2 |} "nifty" 100 2000
    = BackendApp.Returned body.
Proof.
  apply (option_chain_endpoint_answers SpecMore.upper
           {| documents := [Examples.call_25000; Examples.put_25000];
              server_error := None; insert_many_calls := 2 |}
           "nifty" 100%Z 2000%Z).
  - reflexivity.
  - exists Examples.call_25000. split; [left; reflexivity | reflexivity].
Defined.

(** ** The CSV pipeline: fetch, documents, mock storage *)

Section CsvMore.
Context {RT : Runtime}.
Import CsvPipeline.

Lemma fetch_csv_loop_cases (MAX_RETRIES : nat)
    (attempts : nat -> result string) (local_file : option string) :
  forall remaining attempt,
    attempt + remaining = MAX_RETRIES ->
    0 < remaining ->
    (exists k csv_data,
        attempt <= k < MAX_RETRIES
        /\ attempts k = Ok csv_data
        /\ (forall j, attempt <= j < k -> exists e, attempts j = Raised e)
        /\ fetch_csv_loop MAX_RETRIES attempts local_file attempt remaining
           = Ok csv_data)
    \/ ((forall k, attempt <= k < MAX_RETRIES ->
                   exists e, attempts k = Raised e)
        /\ fetch_csv_loop MAX_RETRIES attempts local_file attempt remaining
           = Ok (_get_fallback_csv_data local_file)).
Proof.
  induction remaining as [|remaining IH]; intros attempt Hsum Hpos; [lia|].
  cbn [fetch_csv_loop].
  destruct (attempts attempt) as [csv_data|e] eqn:Hattempt.
  - left. exists attempt, csv_data. split; [lia|]. split; [exact Hattempt|].
    split; [intros j Hj; lia | reflexivity].
  - destruct (Nat.eqb_spec attempt (MAX_RETRIES - 1)) as [Hlast|Hmore].
    + right. split; [|reflexivity].
      intros k Hk. assert (k = attempt) as -> by lia. exists e. exact Hattempt.
    + destruct (IH (S attempt) ltac:(lia) ltac:(lia))
        as [(k & csv_data & Hk & Hok & Hbefore & Hloop)|(Hall & Hloop)].
      * left. exists k, csv_data. split; [lia|]. split; [exact Hok|].
        split; [|exact Hloop].
        intros j Hj. destruct (Nat.eq_dec j attempt) as [->|Hne];
          [exists e; exact Hattempt | apply Hbefore; lia].
      * right. split; [|exact Hloop].
        intros k Hk. destruct (Nat.eq_dec k attempt) as [->|Hne];
          [exists e; exact Hattempt | apply Hall; lia].
Qed.

Lemma carries_identity_more (symbol option_type : string) (now : Z)
    (row : Row) (rows : list Row) (docs : list Document) :
  Forall (carries_identity symbol option_type now rows) docs ->
  Forall (carries_identity symbol option_type now (row :: rows)) docs.
Proof.
  apply Forall_impl. intros doc (Hs & Ht & Hf & (r & k & Hr & Hk & Hd) & Hlen).
  repeat split; try assumption.
  exists r, k. split; [right; exact Hr | split; assumption].
Qed.

(** The loop of [_transform_to_documents]: a row without [STRIKE] raises;
    otherwise the documents are appended in order and carry their
    identity. *)
Lemma transform_rows_cases (symbol : string) (now : Z) :
  forall (rows : list Row) (call_docs put_docs : list Document),
    ((exists row, In row rows /\ assoc "STRIKE" row = None)
     /\ transform_rows rows symbol now call_docs put_docs
        = Raised (Exn "KeyError" "'STRIKE'"))
    \/ ((forall row, In row rows -> assoc "STRIKE" row <> None)
        /\ exists calls puts,
             transform_rows rows symbol now call_docs put_docs
             = Ok ((call_docs ++ calls)%list, (put_docs ++ puts)%list)
             /\ Forall (carries_identity symbol "CALL" now rows) calls
             /\ Forall (carries_identity symbol "PUT" now rows) puts
             /\ List.length calls <= List.length rows
             /\ List.length puts <= List.length rows).
Proof.
  induction rows as [|row rows IH]; intros call_docs put_docs.
  - right. split; [intros row []|]. exists [], [].
    cbn. rewrite !app_nil_r. repeat split; constructor.
  - cbn [transform_rows].
    destruct (assoc "STRIKE" row) as [strike|] eqn:Hstrike.
    + set (call_docs' :=
             match _create_option_document row call_columns symbol "CALL"
                     strike now with
             | Some call_doc => (call_docs ++ [call_doc])%list
             | None => call_docs
             end).
      set (put_docs' :=
             match _create_option_document row put_columns symbol "PUT"
                     strike now with
             | Some put_doc => (put_docs ++ [put_doc])%list
             | None => put_docs
             end).
      destruct (IH call_docs' put_docs')
        as [((bad & Hbad & Hno) & Hraise)
           |(Hall & calls & puts & Hok & Hcalls & Hputs & Hlc & Hlp)].
      * left. split; [|exact Hraise].
        exists bad. split; [right; exact Hbad | exact Hno].
      * right. split.
        { intros r [<-|Hr]; [congruence | apply Hall; exact Hr]. }
        assert (Hnew : forall mapping ty,
                   mapping = call_columns \/ mapping = put_columns ->
                   exists new,
                     (forall docs,
                         match _create_option_document row mapping symbol ty
                                 strike now with
                         | Some doc => (docs ++ [doc])%list
                         | None => docs
                         end = (docs ++ new)%list)
                     /\ Forall (carries_identity symbol ty now (row :: rows))
                          new
                     /\ List.length new <= 1).
        { intros mapping ty Hmapping.
          destruct (_create_option_document row mapping symbol ty strike now)
            as [doc|] eqn:Hdoc.
          - exists [doc]. split; [reflexivity|]. split; [|cbn; lia].
            destruct (create_option_document_identity _ _ _ _ _ _ _
                        Hmapping Hdoc) as (Hs & Ht & Hk & Hf & Hlen).
            constructor; [|constructor].
            repeat split; try assumption.
            exists row, strike. split; [left; reflexivity|].
            split; assumption.
          - exists []. split; [intros docs; rewrite app_nil_r; reflexivity|].
            split; [constructor | cbn; lia]. }
        destruct (Hnew call_columns "CALL" (or_introl eq_refl))
          as (new_calls & Hnc & Hic & Hlnc).
        destruct (Hnew put_columns "PUT" (or_intror eq_refl))
          as (new_puts & Hnp & Hip & Hlnp).
        exists (new_calls ++ calls)%list, (new_puts ++ puts)%list.
        split; [|split; [|split; [|split]]].
        -- rewrite Hok. unfold call_docs', put_docs'.
           rewrite Hnc, Hnp, <- !app_assoc. reflexivity.
        -- apply Forall_app. split; [exact Hic|].
           apply carries_identity_more. exact Hcalls.
        -- apply Forall_app. split; [exact Hip|].
           apply carries_identity_more. exact Hputs.
        -- rewrite length_app. cbn [List.length]. lia.
        -- rewrite length_app. cbn [List.length]. lia.
    + left. split; [|reflexivity].
      exists row. split; [left; reflexivity | exact Hstrike].
Qed.

End CsvMore.

Section MockFacts.
Import CsvPipeline.

Lemma mock_store_effect (data : MockStorage.MockCollection)
    (call_docs put_docs : list Document) :
  MockStorage.store_option_data data call_docs put_docs
  = ({| MockStorage.calls_inserted := len call_docs;
        MockStorage.puts_inserted := len put_docs;
        MockStorage.calls_skipped := 0;
        MockStorage.puts_skipped := 0 |},
     (data ++ call_docs ++ put_docs)%list).
Proof.
  unfold MockStorage.store_option_data, MockStorage._bulk_insert_with_dedup,
    MockStorage.insert_many, len.
  destruct call_docs as [|c call_docs]; destruct put_docs as [|p put_docs];
    cbn [inserted skipped]; rewrite ?length_seq, ?app_nil_r, <- ?app_assoc;
    reflexivity.
Qed.

Lemma mock_count_app (data more : MockStorage.MockCollection) :
  MockStorage.count_documents (data ++ more)%list
  = (MockStorage.count_documents data + MockStorage.count_documents more)%Z.
Proof.
  unfold MockStorage.count_documents, len.
  rewrite filter_app, length_app. apply Nat2Z.inj_add.
Qed.

Lemma mock_count_side (symbol option_type : string) (now : Z)
    (rows : list Row) (docs : list Document) :
  Forall (carries_identity symbol option_type now rows) docs ->
  MockStorage.count_documents docs
  = if String.eqb option_type "CALL" then len docs else 0%Z.
Proof.
  intros Hdocs. unfold MockStorage.count_documents.
  destruct (String.eqb option_type "CALL") eqn:Hside.
  - rewrite filter_all; [reflexivity|].
    rewrite Forall_forall in Hdocs. intros d Hd.
    destruct (Hdocs d Hd) as (_ & -> & _). exact Hside.
  - rewrite filter_none; [reflexivity|].
    rewrite Forall_forall in Hdocs. intros d Hd.
    destruct (Hdocs d Hd) as (_ & -> & _). exact Hside.
Qed.

Lemma last_of_app {A : Type} (P : A -> Prop) (data more : list A) :
  more <> [] -> Forall P more ->
  exists x rest, rev (data ++ more)%list = x :: rest /\ P x.
Proof.
  intros Hsome Hall. rewrite rev_app_distr.
  destruct (rev more) as [|x rest] eqn:Hrev.
  - exfalso. apply Hsome. rewrite <- (rev_involutive more), Hrev. reflexivity.
  - exists x, (rest ++ rev data)%list. split; [reflexivity|].
    rewrite Forall_forall in Hall. apply Hall. apply in_rev.
    rewrite Hrev. left. reflexivity.
Qed.

End MockFacts.

(** X26: [fetch_option_chain_csv] with at least one attempt configured never
    raises: it returns the text of the first attempt that succeeds, the
    attempts before it having failed, or, all attempts having failed, the
    fallback text. With no attempt configured it raises
    [RuntimeError]. *)
Theorem csv_fetch_returns_the_first_answer :
  forall (MAX_RETRIES : nat) (attempts : nat -> result string)
         (local_file : option string),
    (0 < MAX_RETRIES ->
     (exists k csv_data,
         k < MAX_RETRIES
         /\ attempts k = Ok csv_data
         /\ (forall j, j < k -> exists e, attempts j = Raised e)
         /\ CsvPipeline.fetch_option_chain_csv MAX_RETRIES attempts local_file
            = Ok csv_data)
     \/ ((forall k, k < MAX_RETRIES -> exists e, attempts k = Raised e)
         /\ CsvPipeline.fetch_option_chain_csv MAX_RETRIES attempts local_file
            = Ok (CsvPipeline._get_fallback_csv_data local_file)))
    /\ (MAX_RETRIES = 0 ->
        CsvPipeline.fetch_option_chain_csv MAX_RETRIES attempts local_file
        = Raised (RuntimeError "Unexpected error in fetch_option_chain_csv")).
Proof.
  intros MAX_RETRIES attempts local_file.
  unfold CsvPipeline.fetch_option_chain_csv. split.
  - intros Hpos.
    destruct (fetch_csv_loop_cases MAX_RETRIES attempts local_file
                MAX_RETRIES 0 eq_refl Hpos)
      as [(k & csv_data & Hk & Hok & Hbefore & Hloop)|(Hall & Hloop)].
    + left. exists k, csv_data. split; [lia|]. split; [exact Hok|].
      split; [|exact Hloop]. intros j Hj. apply Hbefore. lia.
    + right. split; [|exact Hloop]. intros k Hk. apply Hall. lia.
  - intros ->. reflexivity.
Qed.

(** The second of three attempts answers. *)
Lemma csv_fetch_returns_the_first_answer_witness :
  (exists k csv_data,
      k < 3
      /\ (fun k => if (k =? 1)%nat then Ok "CALLS,,PUTS"
                   else Raised (ValueError "Empty response received")) k
         = Ok csv_data
      /\ (forall j, j < k ->
            exists e,
              (fun k => if (k =? 1)%nat then Ok "CALLS,,PUTS"
                        else Raised (ValueError "Empty response received")) j
              = Raised e)
      /\ CsvPipeline.fetch_option_chain_csv 3
           (fun k => if (k =? 1)%nat then Ok "CALLS,,PUTS"
                     else Raised (ValueError "Empty response received")) None
         = Ok csv_data)
  \/ ((forall k, k < 3 ->
         exists e,
           (fun k => if (k =? 1)%nat then Ok "CALLS,,PUTS"
                     else Raised (ValueError "Empty response received")) k
           = Raised e)
      /\ CsvPipeline.fetch_option_chain_csv 3
           (fun k => if (k =? 1)%nat then Ok "CALLS,,PUTS"
                     else Raised (ValueError "Empty response received")) None
         = Ok (CsvPipeline._get_fallback_csv_data None)).
Proof.
  apply (csv_fetch_returns_the_first_answer 3
           (fun k => if (k =? 1)%nat then Ok "CALLS,,PUTS"
                     else Raised (ValueError "Empty response received")) None).
  lia.
Defined.

(** X27: [_transform_to_documents] raises [KeyError] when a row of the frame
    has no [STRIKE]; when every row has one it returns, and every
    document it returns carries the symbol and the time stamp of the run,
    its side ([CALL] in the first list, [PUT] in the second), the strike of
    a row of the frame and at least one more field; neither list is longer
    than the frame. *)
Theorem csv_documents_carry_their_identity :
  forall {RT : Runtime} (df : list CsvPipeline.Row) (symbol : string)
         (fetched_at : Z),
    ((exists row, In row df /\ assoc "STRIKE" row = None) ->
     CsvPipeline._transform_to_documents df symbol fetched_at
     = Raised (Exn "KeyError" "'STRIKE'"))
    /\ ((forall row, In row df -> assoc "STRIKE" row <> None) ->
        exists call_docs put_docs,
          CsvPipeline._transform_to_documents df symbol fetched_at
          = Ok (call_docs, put_docs)
          /\ Forall (carries_identity symbol "CALL" fetched_at df) call_docs
          /\ Forall (carries_identity symbol "PUT" fetched_at df) put_docs
          /\ List.length call_docs <= List.length df
          /\ List.length put_docs <= List.length df).
Proof.
  intros RT df symbol fetched_at.
  unfold CsvPipeline._transform_to_documents.
  destruct (transform_rows_cases symbol fetched_at df [] [])
    as [((bad & Hbad & Hno) & Hraise)|(Hall & calls & puts & Hok & Hfacts)].
  - split; [intros _; exact Hraise|].
    intros Hevery. exfalso. exact (Hevery bad Hbad Hno).
  - split.
    + intros (bad & Hbad & Hno). exfalso. exact (Hall bad Hbad Hno).
    + intros _. exists calls, puts. split; [exact Hok | exact Hfacts].
Qed.

(** A frame of one row with both sides. *)
Lemma csv_documents_carry_their_identity_witness :
  exists call_docs put_docs,
    CsvPipeline._transform_to_documents (RT := DecimalRuntime.runtime)
      [ExamplesMore.two_sided_row] "NIFTY" 1000
    = Ok (call_docs, put_docs)
    /\ Forall (carries_identity "NIFTY" "CALL" 1000
                 [ExamplesMore.two_sided_row]) call_docs
    /\ Forall (carries_identity "NIFTY" "PUT" 1000
                 [ExamplesMore.two_sided_row]) put_docs
    /\ List.length call_docs <= 1
    /\ List.length put_docs <= 1.
Proof.
  apply (csv_documents_carry_their_identity (RT := DecimalRuntime.runtime)
           [ExamplesMore.two_sided_row] "NIFTY" 1000%Z).
  intros row [<-|[]]. discriminate.
Defined.

(** X28: The storage on the mock collection never skips a document: every call
    of [store_option_data] reports all the documents as inserted and
    appends them to the data, so that storing the same documents a second
    time reports them as inserted again and leaves them twice in the
    data. *)
Theorem mock_store_keeps_duplicates :
  forall (data : MockStorage.MockCollection)
         (call_docs put_docs : list CsvPipeline.Document),
    let first := MockStorage.store_option_data data call_docs put_docs in
    let second :=
      MockStorage.store_option_data (snd first) call_docs put_docs in
    MockStorage.calls_inserted (fst first) = len call_docs
    /\ MockStorage.puts_inserted (fst first) = len put_docs
    /\ MockStorage.calls_skipped (fst first) = 0%Z
    /\ MockStorage.puts_skipped (fst first) = 0%Z
    /\ fst second = fst first
    /\ snd second
       = (data ++ call_docs ++ put_docs ++ call_docs ++ put_docs)%list
    /\ List.length (snd second)
       = List.length data
         + 2 * (List.length call_docs + List.length put_docs).
Proof.
  intros data call_docs put_docs first second. unfold second, first.
  rewrite !mock_store_effect. cbn [fst snd].
  repeat split; try reflexivity.
  - rewrite <- !app_assoc. reflexivity.
  - rewrite !length_app. lia.
Qed.

(** X29: After the documents of a parsed frame are stored on the mock
    collection, [get_latest_data_count] reports, for any symbol, the
    number of the call documents of the whole collection, and reports it
    for the puts as well. *)
Theorem mock_count_reports_the_calls_for_both_sides :
  forall {RT : Runtime} (df : list CsvPipeline.Row) (symbol : string)
         (fetched_at : Z) (call_docs put_docs : list CsvPipeline.Document)
         (data : MockStorage.MockCollection) (asked : string),
    CsvPipeline._transform_to_documents df symbol fetched_at
    = Ok (call_docs, put_docs) ->
    (call_docs ++ put_docs)%list <> [] ->
    MockStorage.get_latest_data_count
      (snd (MockStorage.store_option_data data call_docs put_docs)) asked
    = ((MockStorage.count_documents data + len call_docs)%Z,
       (MockStorage.count_documents data + len call_docs)%Z).
Proof.
  intros RT df symbol fetched_at call_docs put_docs data asked Hdocs Hsome.
  unfold CsvPipeline._transform_to_documents in Hdocs.
  destruct (transform_rows_cases symbol fetched_at df [] [])
    as [(_ & Hraise)|(_ & calls & puts & Hok & Hcalls & Hputs & _)];
    [congruence|].
  rewrite Hok in Hdocs. cbn [app] in Hdocs. injection Hdocs as <- <-.
  rewrite mock_store_effect. cbn [snd].
  unfold MockStorage.get_latest_data_count.
  assert (Hstamp : Forall (fun doc => assoc "fetched_at" doc
                                      = Some (CsvPipeline.Time fetched_at))
                     (calls ++ puts)%list).
  { apply Forall_app. split;
      [revert Hcalls | revert Hputs]; apply Forall_impl;
      intros doc (_ & _ & Hf & _); exact Hf. }
  destruct (last_of_app _ data (calls ++ puts)%list Hsome Hstamp)
    as (latest_doc & rest & -> & ->).
  rewrite !mock_count_app.
  rewrite (mock_count_side _ _ _ _ _ Hcalls), (mock_count_side _ _ _ _ _ Hputs).
  cbn [String.eqb Ascii.eqb Bool.eqb]. f_equal; lia.
Qed.

(** One parsed row, stored on an empty mock collection: one call, and one
    reported for the puts too. *)
Lemma mock_count_reports_the_calls_for_both_sides_witness :
  MockStorage.get_latest_data_count
    (snd (MockStorage.store_option_data []
            [[("symbol", CsvPipeline.Str "NIFTY");
              ("type", CsvPipeline.Str "CALL");
              ("strike_price", CsvPipeline.Num 22950%Q);
              ("fetched_at", CsvPipeline.Time 1000);
              ("open_interest", CsvPipeline.Num 76%Q);
              ("last_traded_price", CsvPipeline.Str "n.a.")]] []))
    "BANKNIFTY"
  = (1%Z, 1%Z).
Proof.
  apply (mock_count_reports_the_calls_for_both_sides
           (RT := DecimalRuntime.runtime)
           [Examples.unparseable_row] "NIFTY" 1000%Z
           [[("symbol", CsvPipeline.Str "NIFTY");
             ("type", CsvPipeline.Str "CALL");
             ("strike_price", CsvPipeline.Num 22950%Q);
             ("fetched_at", CsvPipeline.Time 1000);
             ("open_interest", CsvPipeline.Num 76%Q);
             ("last_traded_price", CsvPipeline.Str "n.a.")]] [] []
           "BANKNIFTY").
  - vm_compute. reflexivity.
  - discriminate.
Defined.
